(** * KDB-X MCP server: connection, query and search core

    A shallow embedding of the TypeScript sources
    - [utils/kdbx.ts]               (connection cache, retry loop, cleanup),
    - [tools/kdbx-run-sql-query.ts] (the SQL safety gate and row cap),
    - [utils/embeddings-helpers.ts] (per-table embedding configuration),
    - [utils/embeddings.ts]         (provider registry, tokenizer),
    - [tools/kdbx-sim-search.ts]    (similarity and hybrid search),
    - [utils/format-utils.ts]       (vector-column stripping, normalisation,
                                     text tables),
    and the properties of these functions.

    Conventions of the model.
    - A JavaScript string is a [string]. The functions of the source look
      inside a string in three ways. [includes], [startsWith] and
      concatenation are used with ASCII needles and separators only, and
      are the same on the UTF-8 text of a string and on its code units.
      [toUpperCase] and [trim] are Unicode tables of the runtime: the model
      takes them from the environment and fixes nothing about them. The
      tokenizer and the text tables read code units ([charCodeAt],
      [split(/\s+/)], [length]): there a character of the model is one code
      unit, and texts with code units above 255 are outside the model.
    - Module-level variables ([cachedConnection], [csvCache]) and the
      JavaScript object heap are fields of [World]; every function of the
      source that reads or writes them is a computation in the monad [M]
      (state plus exceptions).
    - What the process cannot decide by itself (the outcome of a connect
      step, the reply of the database, the embedding providers, the file
      system) is taken from an environment [Env], universally quantified in
      the theorems.
    - Everything observable (log lines, sleeps, connect attempts, remote
      calls, provider calls) is appended to [trace]. *)

From stdpp Require Import base option list strings pretty gmap.
From Stdlib Require Import ZArith Ascii.

Local Open Scope Z_scope.
Local Open Scope nat_scope.

(** ** JavaScript strings *)

Module JS.

Definition isLower (c : ascii) : bool :=
  let n := nat_of_ascii c in (97 <=? n) && (n <=? 122).

Definition upChar (c : ascii) : ascii :=
  if isLower c then ascii_of_nat (nat_of_ascii c - 32) else c.

(** [String.prototype.toUpperCase] on ASCII text: the method of the sample
    environments, whose queries are ASCII. *)
Fixpoint toUpperCase (s : string) : string :=
  match s with
  | EmptyString => EmptyString
  | String c r => String (upChar c) (toUpperCase r)
  end.

(** White space of the ASCII range: TAB, LF, VT, FF, CR and SPACE. *)
Definition isSpace (c : ascii) : bool :=
  let n := nat_of_ascii c in ((9 <=? n) && (n <=? 13)) || (n =? 32).

Fixpoint trimStart (s : string) : string :=
  match s with
  | EmptyString => EmptyString
  | String c r => if isSpace c then trimStart r else s
  end.

Definition isEmpty (s : string) : bool :=
  match s with EmptyString => true | _ => false end.

Fixpoint trimEnd (s : string) : string :=
  match s with
  | EmptyString => EmptyString
  | String c r =>
      let r' := trimEnd r in
      if isSpace c && isEmpty r' then EmptyString else String c r'
  end.

(** [String.prototype.trim] on ASCII text: the method of the sample
    environments. *)
Definition trim (s : string) : string := trimEnd (trimStart s).

(** [s.startsWith(p)] *)
Fixpoint startsWith (s p : string) {struct p} : bool :=
  match p, s with
  | EmptyString, _ => true
  | String a p', String b s' => if Ascii.eqb a b then startsWith s' p' else false
  | String _ _, EmptyString => false
  end.

(** [s.includes(p)]: [p] occurs at some position of [s]. *)
Fixpoint includes (s p : string) : bool :=
  startsWith s p ||
  match s with
  | EmptyString => false
  | String _ s' => includes s' p
  end.

(** An [Error] object, as far as the code looks at it. *)
Record Error := mkError { name : string; message : string }.

(** [new Error(msg)] *)
Definition newError (msg : string) : Error := mkError "Error" msg.

(** [String(e)], that is [Error.prototype.toString]. *)
Definition toString (e : Error) : string :=
  if isEmpty (name e) then message e
  else if isEmpty (message e) then name e
  else name e +:+ ": " +:+ message e.

(** A cell of a result table. Temporal cells carry the text their
    [toISOString] method produces ([None] for an invalid date, on which
    the method throws a [RangeError]). *)
Inductive Value :=
| VNull
| VBool (b : bool)
| VNum (z : Z)
| VStr (s : string)
| VVector (v : list Z)
| VDate (iso : option string)
| VTemporal (iso : option string).

(** A plain object: its own enumerable properties in property order. Keys
    are pairwise distinct. *)
Definition Object := list (string * Value).

(** Property names every plain object inherits from [Object.prototype];
    the [in] operator sees them, [delete] does not touch them. *)
Definition inherited : list string :=
  [ "constructor"; "hasOwnProperty"; "isPrototypeOf"; "propertyIsEnumerable";
    "toLocaleString"; "toString"; "valueOf"; "__proto__";
    "__defineGetter__"; "__defineSetter__"; "__lookupGetter__";
    "__lookupSetter__" ].

Definition hasOwn (k : string) (o : Object) : bool :=
  existsb (fun p => String.eqb (fst p) k) o.

(** [k in o] *)
Definition hasProperty (k : string) (o : Object) : bool :=
  hasOwn k o || existsb (String.eqb k) inherited.

(** [delete o[k]] *)
Definition deleteProperty (k : string) (o : Object) : Object :=
  List.filter (fun p => negb (String.eqb (fst p) k)) o.

End JS.

Export JS (Error, Value, Object).

(** ** Configuration, observable events and process state *)

(** [KDBConfig] of [settings.ts]. The schema declares [port], [timeout] and
    [k] as positive and [retry] as non-negative integers. *)
Record KDBConfig := {
  host : string;
  port : nat;
  username : string;
  password : string;
  tls : bool;
  timeout : nat;
  retry : nat;
  embeddingCsvPath : string;
  metric : string;
  k : nat
}.

Inductive Level := LDebug | LInfo | LWarn | LError.

Inductive Event :=
| Log (lvl : Level) (msg : string)
| ConnectAttempt (attempt : nat)
| Sleep (ms : nat)
| RemoteCall (conn : nat) (q : string)
| ReadCsv (path : string)
| DenseEmbed (provider text model : string)
| SparseEmbed (provider text model : string).

(** What the [try] block of an iteration of the retry loop did. In the
    source the block is [cachedConnection = conn; logger.info(...); return
    conn]: the call of the client library at its head is commented out
    ([// await conn.connect();]). [Skipped] is this block running to its
    end: nothing is awaited and the [connected] flag stays as the
    constructor left it. [Refused e] is the block throwing [e]: the
    assignment to the cache is its first statement, so the cache holds the
    new object by then. [Established] is the block with a client library
    called at its head, the call succeeding: [KDBConnectionImpl.connect]
    sets [connected]. *)
Inductive ConnectOutcome :=
| Skipped
| Established
| Refused (e : Error).

(** A CSV record as [parse(content, {columns: true})] builds it, before the
    [cast] option is applied: column name to cell text. *)
Abbreviation RawRecord := (gmap string string).

(** A record of the cached configuration table: a cell is text or [null]. *)
Abbreviation CsvRow := (gmap string (option string)).

(** What [conn.query] evaluates to. *)
Inductive RemoteValue :=
| RNull
| RTable (rows : list Object)
| RQuery (rowCount : option Z) (data : option (list Object)).

Inductive RemoteOutcome :=
| Raises (e : Error)
| Returns (v : RemoteValue).

(** The environment of the process. [toUpperCase] and [trim] are the string
    methods of the runtime. The outcomes of the other steps are indexed by
    how many steps of the same kind the process made before; what such a
    step throws is an [Error] object. *)
Record Env := {
  toUpperCase : string -> string;
  trim : string -> string;
  connectStep : nat -> ConnectOutcome;
  remoteQuery : nat -> string -> RemoteOutcome;
  readCsv : string -> Error + list RawRecord;
  denseEmbedStep : nat -> string -> string -> string -> option Error;
  sparseEmbedStep : nat -> string -> string -> string -> option Error
}.

(** The source as it stands, for a runtime with the string methods [upper]
    and [trimmed]: no connect call, and a [query] method that always
    throws. *)
Definition placeholderEnv (upper trimmed : string -> string)
    (files : string -> Error + list RawRecord) : Env := {|
  toUpperCase := upper;
  trim := trimmed;
  connectStep := fun _ => Skipped;
  remoteQuery := fun _ _ =>
    Raises (JS.newError "KDB-X connection not implemented - requires client library");
  readCsv := files;
  denseEmbedStep := fun _ _ _ _ => None;
  sparseEmbedStep := fun _ _ _ _ => None
|}.

(** A heap cell: a row object or an array of references to row objects. *)
Inductive Cell :=
| RowCell (o : Object)
| ArrCell (rows : list nat).

Record World := {
  conns : list bool;               (* [KDBConnectionImpl] objects: the [connected] field *)
  cachedConnection : option nat;   (* [let cachedConnection] of kdbx.ts *)
  csvCache : gmap string (list CsvRow);  (* [let csvCache] of embeddings-helpers.ts *)
  heap : list Cell;
  trace : list Event;
  attempts : nat;                  (* connect steps made so far *)
  calls : nat                      (* remote and provider calls made so far *)
}.

Definition initialWorld : World := {|
  conns := []; cachedConnection := None; csvCache := ∅; heap := [];
  trace := []; attempts := 0; calls := 0
|}.

(** ** The monad of the model: state and exceptions *)

Inductive Outcome (A : Type) :=
| Ret (a : A)
| Throw (e : Error).
Arguments Ret {A} a.
Arguments Throw {A} e.

Definition M (A : Type) : Type := World -> Outcome A * World.

#[export] Instance M_ret : MRet M := fun A a w => (Ret a, w).

#[export] Instance M_bind : MBind M := fun A B f m w =>
  match m w with
  | (Ret a, w') => f a w'
  | (Throw e, w') => (Throw e, w')
  end.

Definition throw {A} (e : Error) : M A := fun w => (Throw e, w).

(** [try { body } catch (e) { handler e }] *)
Definition tryCatch {A} (body : M A) (handler : Error -> M A) : M A := fun w =>
  match body w with
  | (Ret a, w') => (Ret a, w')
  | (Throw e, w') => handler e w'
  end.

Definition emit (ev : Event) : M unit := fun w =>
  (Ret tt,
   {| conns := conns w; cachedConnection := cachedConnection w;
      csvCache := csvCache w; heap := heap w; trace := trace w ++ [ev];
      attempts := attempts w; calls := calls w |}).

Definition logger (lvl : Level) (msg : string) : M unit := emit (Log lvl msg).

Definition gets {A} (f : World -> A) : M A := fun w => (Ret (f w), w).

Definition setConns (cs : list bool) : M unit := fun w =>
  (Ret tt,
   {| conns := cs; cachedConnection := cachedConnection w;
      csvCache := csvCache w; heap := heap w; trace := trace w;
      attempts := attempts w; calls := calls w |}).

Definition setCachedConnection (c : option nat) : M unit := fun w =>
  (Ret tt,
   {| conns := conns w; cachedConnection := c;
      csvCache := csvCache w; heap := heap w; trace := trace w;
      attempts := attempts w; calls := calls w |}).

Definition setCsvCache (c : gmap string (list CsvRow)) : M unit := fun w =>
  (Ret tt,
   {| conns := conns w; cachedConnection := cachedConnection w;
      csvCache := c; heap := heap w; trace := trace w;
      attempts := attempts w; calls := calls w |}).

Definition setHeap (h : list Cell) : M unit := fun w =>
  (Ret tt,
   {| conns := conns w; cachedConnection := cachedConnection w;
      csvCache := csvCache w; heap := h; trace := trace w;
      attempts := attempts w; calls := calls w |}).

Definition tickAttempts : M nat := fun w =>
  (Ret (attempts w),
   {| conns := conns w; cachedConnection := cachedConnection w;
      csvCache := csvCache w; heap := heap w; trace := trace w;
      attempts := S (attempts w); calls := calls w |}).

Definition tickCalls : M nat := fun w =>
  (Ret (calls w),
   {| conns := conns w; cachedConnection := cachedConnection w;
      csvCache := csvCache w; heap := heap w; trace := trace w;
      attempts := attempts w; calls := S (calls w) |}).

(** ** utils/kdbx.ts: the connection and its process-wide cache *)

Section Kdbx.
Context (E : Env).

(** [new KDBConnectionImpl(config)]: a fresh object with
    [connected = false]; its address is returned. *)
Definition newConnection : M nat :=
  cs ← gets conns;
  setConns (cs ++ [false]);;
  mret (length cs).

(** [isConnected()] *)
Definition isConnected (c : nat) : M bool :=
  cs ← gets conns;
  mret (default false (cs !! c)).

(** [connect()]: [this.connected = true] *)
Definition connect (c : nat) : M unit :=
  cs ← gets conns;
  setConns (<[c := true]> cs).

(** [close()]: [this.connected = false] *)
Definition close (c : nat) : M unit :=
  cs ← gets conns;
  setConns (<[c := false]> cs).

(** [query(q)]: throws when the object is not connected. What follows the
    test in the source is a placeholder that always throws ("KDB-X
    connection not implemented - requires client library"), which is the
    reply of [placeholderEnv]; in general the reply is the environment's.
    The event [RemoteCall] marks the invocation of the method. *)
Definition query (c : nat) (q : string) : M RemoteValue :=
  emit (RemoteCall c q);;
  connected ← isConnected c;
  if negb connected then throw (JS.newError "Not connected to KDB-X")
  else
    n ← tickCalls;
    match remoteQuery E n q with
    | Raises e => throw e
    | Returns v => mret v
    end.

(** The [for (let attempt = 1; attempt <= config.retry + 1; attempt++)]
    loop of [getKDBConnection], over the attempt numbers still to run,
    followed by the two statements after the loop
    ([throw lastError || new Error(...)]). The event [ConnectAttempt] marks
    the entry into the [try] block of an iteration; the [Refused] branch is
    the assignment that opens the block followed by the [catch] block. *)
Fixpoint connectLoop (config : KDBConfig) (conn : nat) (todo : list nat)
    (lastError : option Error) : M nat :=
  match todo with
  | [] =>
      logger LError "Failed to connect to KDB";;
      throw (default (JS.newError "Failed to connect to KDB-X") lastError)
  | attempt :: rest =>
      emit (ConnectAttempt attempt);;
      n ← tickAttempts;
      match connectStep E n with
      | Refused e =>
          setCachedConnection (Some conn);;
          logger LWarn ("KDB-X connectivity attempt " +:+ pretty attempt +:+ "/"
                        +:+ pretty (retry config + 1) +:+ " failed: "
                        +:+ JS.message e);;
          (if attempt <? retry config + 1
           then emit (Sleep (1000 * attempt)) else mret tt);;
          connectLoop config conn rest (Some e)
      | outcome =>
          match outcome with Established => connect conn | _ => mret tt end;;
          setCachedConnection (Some conn);;
          logger LInfo "Connected to Q/KDB-X";;
          mret conn
      end
  end.

(** The [try] around [return cachedConnection] has nothing in it that
    throws, so its [catch] block is dead code. *)
Definition getKDBConnection (config : KDBConfig) : M nat :=
  cached ← gets cachedConnection;
  live ← match cached with Some c => isConnected c | None => mret false end;
  match cached, live with
  | Some c, true => mret c
  | _, _ =>
      logger LInfo ("Connecting to KDB at " +:+ host config +:+ ":"
                    +:+ pretty (port config));;
      conn ← newConnection;
      connectLoop config conn (seq 1 (retry config + 1)) None
  end.

Definition cleanupKDBConnection : M unit :=
  cached ← gets cachedConnection;
  match cached with
  | Some c => close c;; setCachedConnection None
  | None => mret tt
  end.

End Kdbx.

(** ** tools/kdbx-run-sql-query.ts *)

Definition MAX_ROWS_RETURNED : Z := 1000.

Inductive Status := success | error.

Record QueryResult := {
  status : Status;
  data : option (list Object);
  message : option string;
  error_type : option string;
  technical_details : option string
}.

Definition dangerousKeywords : list string :=
  ["INSERT"; "DROP"; "DELETE"; "TRUNCATE"; "ALTER"; "CREATE"].

(** The [for (const keyword of dangerousKeywords)] loop. *)
Fixpoint safetyGate (queryUpper : string) (keywords : list string) : M unit :=
  match keywords with
  | [] => mret tt
  | keyword :: rest =>
      if JS.includes queryUpper keyword && negb (JS.startsWith queryUpper "SELECT")
      then throw (JS.newError ("Query contains dangerous keyword: " +:+ keyword))
      else safetyGate queryUpper rest
  end.

Definition sqlWrapper : string :=
  "{r:.s.e x; `rowCount`data!(count r;.j.j y sublist r)}".


(** [result.rowCount || 0]; reading a property of [null] throws, an array
    has no such property. *)
Definition rowCountOf (result : RemoteValue) : M Z :=
  match result with
  | RNull => throw (JS.mkError "TypeError"
                      "Cannot read properties of null (reading 'rowCount')")
  | RTable _ => mret 0%Z
  | RQuery rc _ => mret (default 0%Z rc)
  end.

(** [result.data || []] *)
Definition dataOf (result : RemoteValue) : list Object :=
  match result with
  | RQuery _ (Some rows) => rows
  | _ => []
  end.

Section RunSqlQuery.
Context (E : Env).

(** The statements of the [try] block after the safety gate. [rowCount] is
    an integer; the text the code prints for it is its decimal text up to
    2^53. *)
Definition executeQuery (config : KDBConfig) : M QueryResult :=
  conn ← getKDBConnection E config;
  result ← query E conn sqlWrapper;
  total ← rowCountOf result;
  if (total =? 0)%Z then
    mret {| status := success; data := Some []; message := Some "No rows returned";
            error_type := None; technical_details := None |}
  else
    let rows := dataOf result in
    if (MAX_ROWS_RETURNED <? total)%Z then
      logger LInfo ("Table has " +:+ pretty total
                    +:+ " rows. Query returned truncated data to "
                    +:+ pretty MAX_ROWS_RETURNED +:+ " rows.");;
      mret {| status := success; data := Some rows;
              message := Some ("Showing first " +:+ pretty MAX_ROWS_RETURNED
                               +:+ " of " +:+ pretty total +:+ " rows");
              error_type := None; technical_details := None |}
    else
      logger LInfo ("Query returned " +:+ pretty total +:+ " rows.");;
      mret {| status := success; data := Some rows; message := None;
              error_type := None; technical_details := None |}.

(** The [catch (e: any)] block. *)
Definition queryFailed (e : Error) : M QueryResult :=
  logger LError ("Query failed: " +:+ JS.toString e);;
  if negb (JS.isEmpty (JS.message e)) && JS.includes (JS.message e) ".s.e" then
    logger LError "It looks like the SQL interface is not loaded. You can load it manually by running .s.init[]:";;
    mret {| status := error; data := None;
            message := Some "It looks like the SQL interface is not loaded in the KDB-X database. Please initialize it by running `.s.init[]` in your KDB-X session, or contact your system administrator.";
            error_type := Some "sql_interface_not_loaded";
            technical_details := Some (JS.toString e) |}
  else
    mret {| status := error; data := None; message := Some (JS.toString e);
            error_type := None; technical_details := None |}.

Definition runQueryImpl (sqlSelectQuery : string) (config : KDBConfig)
    : M QueryResult :=
  tryCatch
    (let queryUpper := trim E (toUpperCase E sqlSelectQuery) in
     safetyGate queryUpper dangerousKeywords;;
     executeQuery config)
    queryFailed.

End RunSqlQuery.

(** ** utils/embeddings-helpers.ts *)

Record EmbeddingConfig := {
  embeddingColumn : option string;
  embeddingProvider : option string;
  embeddingModel : option string;
  sparseEmbeddingColumn : option string;
  sparseIndexName : option string;
  sparseTokenizerProvider : option string;
  sparseTokenizerModel : option string
}.

(** The [cast] option given to the CSV parser: an empty cell is [null]. *)
Definition cast (value : string) : option string :=
  if JS.isEmpty value then None else Some value.

(** [row[key] || null]: an absent column, a [null] cell and an empty text
    all give [null]. *)
Definition field (row : CsvRow) (key : string) : option string :=
  match row !! key with
  | Some (Some s) => if JS.isEmpty s then None else Some s
  | _ => None
  end.

(** [row.table === table] *)
Definition matchesTable (table : string) (row : CsvRow) : bool :=
  match row !! "table" with
  | Some (Some t) => String.eqb t table
  | _ => false
  end.

(** The object literal returned by [getEmbeddingConfig]. *)
Definition configOfRow (row : CsvRow) : EmbeddingConfig := {|
  embeddingColumn := field row "embedding_column";
  embeddingProvider := field row "embedding_provider";
  embeddingModel := field row "embedding_model";
  sparseEmbeddingColumn := field row "sparse_embedding_column";
  sparseIndexName := field row "sparse_index_name";
  sparseTokenizerProvider := field row "sparse_tokenizer_provider";
  sparseTokenizerModel := field row "sparse_tokenizer_model"
|}.

Section EmbeddingsHelpers.
Context (E : Env).

Definition getCsvData (csvPath : string) : M (list CsvRow) :=
  cache ← gets csvCache;
  match cache !! csvPath with
  | Some records => mret records
  | None =>
      emit (ReadCsv csvPath);;
      match readCsv E csvPath with
      | inl e =>
          throw (JS.newError ("Failed to read embeddings CSV: " +:+ JS.toString e))
      | inr raw =>
          let records := fmap cast <$> raw in
          setCsvCache (<[csvPath := records]> cache);;
          mret records
      end
  end.

Definition getEmbeddingConfig (table : string) (config : KDBConfig)
    : M EmbeddingConfig :=
  df ← getCsvData (embeddingCsvPath config);
  let matchingRows := List.filter (matchesTable table) df in
  match matchingRows with
  | [] => throw (JS.newError ("No configuration found for table='" +:+ table +:+ "'"))
  | [row] => mret (configOfRow row)
  | _ :: _ :: _ =>
      throw (JS.newError ("Multiple configurations found for table='" +:+ table
             +:+ "'. Please ensure each table has only one configuration row."))
  end.

End EmbeddingsHelpers.

(** ** utils/embeddings.ts: the provider registry *)

Definition providerRegistry : list string := ["openai"; "sentence_transformers"].

(** A provider object is identified by the name it is registered under. *)
Definition getProvider (name : string) : M string :=
  if existsb (String.eqb name) providerRegistry then mret name
  else throw (JS.newError ("Unknown provider: " +:+ name)).

Section Providers.
Context (E : Env).

Definition denseEmbed (provider text modelName : string) : M unit :=
  emit (DenseEmbed provider text modelName);;
  n ← tickCalls;
  match denseEmbedStep E n provider text modelName with
  | Some e => throw e
  | None => mret tt
  end.

Definition sparseEmbed (provider text modelName : string) : M unit :=
  emit (SparseEmbed provider text modelName);;
  n ← tickCalls;
  match sparseEmbedStep E n provider text modelName with
  | Some e => throw e
  | None => mret tt
  end.

End Providers.

(** ** utils/format-utils.ts *)

(** *** The object heap

    A [TableRow[]] is the address of an [ArrCell] whose elements are
    addresses of [RowCell]s. A computation that is handed an address of the
    wrong kind ends with a [TypeError]. *)

Definition alloc (c : Cell) : M nat :=
  h ← gets heap;
  setHeap (h ++ [c]);;
  mret (length h).

Definition readRow (l : nat) : M Object :=
  h ← gets heap;
  match h !! l with
  | Some (RowCell o) => mret o
  | _ => throw (JS.mkError "TypeError" "row is not an object")
  end.

Definition readArray (l : nat) : M (list nat) :=
  h ← gets heap;
  match h !! l with
  | Some (ArrCell rows) => mret rows
  | _ => throw (JS.mkError "TypeError" "data.map is not a function")
  end.

(** In-place update of the row object at [l]. *)
Definition updateRow (l : nat) (f : Object -> Object) : M unit :=
  h ← gets heap;
  match h !! l with
  | Some (RowCell o) => setHeap (<[l := RowCell (f o)]> h)
  | _ => mret tt
  end.

(** The rows of the table at [l], read through the heap [h]. *)
Definition rowAt (h : list Cell) (l : nat) : option Object :=
  match h !! l with Some (RowCell o) => Some o | _ => None end.

Definition tableAt (h : list Cell) (l : nat) : option (list Object) :=
  match h !! l with
  | Some (ArrCell rows) => mapM (M := option) (rowAt h) rows
  | _ => None
  end.

(** JavaScript truthiness of a [string | null]. *)
Definition truthy (o : option string) : bool :=
  match o with Some s => negb (JS.isEmpty s) | None => false end.

(** [a || b] on [string | null] operands. *)
Definition orElse (a b : option string) : option string :=
  if truthy a then a else b.

Section FormatUtils.
Context (E : Env).

(** [if (column && column in newRow) { delete newRow[column]; logger.debug(...) }] *)
Definition dropColumn (newRow : nat) (column : option string) (what : string)
    : M unit :=
  match column with
  | Some c =>
      o ← readRow newRow;
      if truthy column && JS.hasProperty c o then
        updateRow newRow (JS.deleteProperty c);;
        logger LDebug ("Removed " +:+ what +:+ " '" +:+ c +:+ "' from results")
      else mret tt
  | None => mret tt
  end.

(** The arrow function given to [data.map]. *)
Definition stripRow (cfg : EmbeddingConfig) (row : nat) : M nat :=
  o ← readRow row;
  newRow ← alloc (RowCell o);
  dropColumn newRow (embeddingColumn cfg) "embedding column";;
  dropColumn newRow (sparseEmbeddingColumn cfg) "sparse embedding column";;
  mret newRow.

Definition removeVectorColumns (data : nat) (tableName : string)
    (config : KDBConfig) : M nat :=
  tryCatch
    (embeddingConfig ← getEmbeddingConfig E tableName config;
     rows ← readArray data;
     out ← mapM (stripRow embeddingConfig) rows;
     alloc (ArrCell out))
    (fun e =>
       logger LDebug ("Could not get embedding config for table " +:+ tableName
                      +:+ ": " +:+ JS.toString e);;
       mret data).

(** One cell of [normalizeSearchResult]: temporal values become their ISO
    text. *)
Definition normalizeValue (v : Value) : M Value :=
  match v with
  | JS.VDate (Some iso) | JS.VTemporal (Some iso) => mret (JS.VStr iso)
  | JS.VDate None | JS.VTemporal None =>
      throw (JS.mkError "RangeError" "Invalid time value")
  | _ => mret v
  end.

(** [newRow[key] = value] on a fresh object filled in property order. The
    value is computed first. Under the key ["__proto__"] the assignment
    goes to the setter of [Object.prototype] and creates no property of
    [newRow]. *)
Definition assign (newRow : nat) (kv : string * Value) : M unit :=
  v ← normalizeValue (snd kv);
  if String.eqb (fst kv) "__proto__" then mret tt
  else updateRow newRow (fun o => o ++ [(fst kv, v)]).

Definition normalizeRow (row : nat) : M nat :=
  o ← readRow row;
  newRow ← alloc (RowCell []);
  mapM (assign newRow) o;;
  mret newRow.

Definition normalizeSearchResult (data : nat) (tableName : string)
    (config : KDBConfig) : M nat :=
  rows ← readArray data;
  out ← mapM normalizeRow rows;
  normalized ← alloc (ArrCell out);
  removeVectorColumns normalized tableName config.

End FormatUtils.

(** ** tools/kdbx-sim-search.ts: hybrid search *)

Record SearchResult := {
  s_status : Status;
  s_table : option string;
  s_recordsCount : option nat;
  s_records : option nat;
  s_message : option string
}.

Definition hybridWrapper : string :=
  "{[args] .ai.hybrid.rrf[(.ai.flat.search[...];.ai.bm25.search[...]);60]}".

(** The rows of a remote reply as objects of the heap. *)
Definition materialize (rows : list Object) : M nat :=
  refs ← mapM (fun o => alloc (RowCell o)) rows;
  alloc (ArrCell refs).

Section HybridSearch.
Context (E : Env).

(** The statements of the [try] block after the sparse-index check. *)
Definition hybridSearch (embeddingConfig : EmbeddingConfig)
    (tableName queryText : string) (config : KDBConfig) : M SearchResult :=
  if negb (truthy (embeddingProvider embeddingConfig))
     || negb (truthy (embeddingModel embeddingConfig)) then
    throw (JS.newError ("Table " +:+ tableName
                        +:+ " does not have embedding configuration"))
  else
    let provider := default "" (embeddingProvider embeddingConfig) in
    let model := default "" (embeddingModel embeddingConfig) in
    denseProvider ← getProvider provider;
    sparseProvider ←
      (if decide (sparseTokenizerProvider embeddingConfig
                  = embeddingProvider embeddingConfig)
       then mret denseProvider
       else getProvider
              (default "" (orElse (sparseTokenizerProvider embeddingConfig)
                                  (embeddingProvider embeddingConfig))));
    denseEmbed E denseProvider queryText model;;
    sparseEmbed E sparseProvider queryText
      (default "" (orElse (sparseTokenizerModel embeddingConfig)
                          (embeddingModel embeddingConfig)));;
    conn ← getKDBConnection E config;
    result ← query E conn hybridWrapper;
    match result with
    | RNull | RTable [] =>
        logger LInfo ("Hybrid search on table " +:+ tableName
          +:+ " returned no results - sparse search may have found no matches");;
        records ← alloc (ArrCell []);
        mret {| s_status := success; s_table := Some tableName;
                s_recordsCount := Some 0; s_records := Some records;
                s_message := Some "No results found - the sparse search returned no matches for the query" |}
    | RTable rows =>
        received ← materialize rows;
        normalized ← normalizeSearchResult E received tableName config;
        out ← readArray normalized;
        mret {| s_status := success; s_table := Some tableName;
                s_recordsCount := Some (length out);
                s_records := Some normalized; s_message := None |}
    | RQuery _ _ =>
        throw (JS.mkError "TypeError" "data.map is not a function")
    end.

(** The [catch (e: any)] block. *)
Definition searchFailed (tableName : string) (e : Error) : M SearchResult :=
  logger LError ("Error performing search on table " +:+ tableName +:+ ": "
                 +:+ JS.toString e);;
  mret {| s_status := error; s_table := Some tableName; s_recordsCount := None;
          s_records := None; s_message := Some (JS.toString e) |}.

Definition kdbxHybridSearchImpl (tableName queryText : string) (n : option nat)
    (config : KDBConfig) : M SearchResult :=
  tryCatch
    (let _k := default (k config) n in
     embeddingConfig ← getEmbeddingConfig E tableName config;
     if negb (truthy (sparseIndexName embeddingConfig)) then
       logger LInfo ("Error performing hybrid search on table " +:+ tableName
                     +:+ ": Missing sparse index");;
       mret {| s_status := error; s_table := Some tableName;
               s_recordsCount := None; s_records := None;
               s_message := Some "The requested table does not have sparse index" |}
     else hybridSearch embeddingConfig tableName queryText config)
    (searchFailed tableName).

End HybridSearch.

(** ** Vocabulary of the statements *)

(** [w] with [evs] appended to its trace and nothing else changed. *)
Definition appendTrace (w : World) (evs : list Event) : World :=
  {| conns := conns w; cachedConnection := cachedConnection w;
     csvCache := csvCache w; heap := heap w; trace := trace w ++ evs;
     attempts := attempts w; calls := calls w |}.

(** The upper-cased, trimmed query text contains a keyword of the denylist. *)
Definition mentionsDangerous (queryUpper : string) : Prop :=
  ∃ keyword, keyword ∈ dangerousKeywords ∧ JS.includes queryUpper keyword = true.

(** No connect step of the environment throws. *)
Definition neverRefuses (E : Env) : Prop :=
  ∀ n e, connectStep E n ≠ Refused e.

(** The [k]-th connect step of the process throws. *)
Definition refusedAt (E : Env) (k : nat) : Prop :=
  ∃ e, connectStep E k = Refused e.

(** No cached connection that reports connected: the test at the head of
    [getKDBConnection] fails. *)
Definition noLiveCache (w : World) : Prop :=
  match cachedConnection w with
  | Some c => default false (conns w !! c) = false
  | None => True
  end.

(** The connect attempts and the sleeps among some events, in order. *)
Definition isSchedule (ev : Event) : bool :=
  match ev with
  | ConnectAttempt _ | Sleep _ => true
  | _ => false
  end.

Definition schedule (evs : list Event) : list Event := List.filter isSchedule evs.

(** Linear backoff: [n] attempts numbered from [first], and between an
    attempt and the next a sleep of 1000 ms times the number of the attempt
    that failed. *)
Fixpoint backoff (first n : nat) : list Event :=
  match n with
  | 0 => []
  | S n' =>
      match n' with
      | 0 => [ConnectAttempt first]
      | S _ => ConnectAttempt first :: Sleep (1000 * first) :: backoff (S first) n'
      end
  end.

(** What [n] refused attempts leave in the trace, the first of them
    numbered [first] and being the [k]-th connect step of the process: for
    each one the attempt, the warning with the message of its error, and the
    sleep unless the attempt is the last of the [retry + 1]. *)
Fixpoint refusals (E : Env) (config : KDBConfig) (k first n : nat) : list Event :=
  match n with
  | 0 => []
  | S n' =>
      ConnectAttempt first
      :: Log LWarn ("KDB-X connectivity attempt " +:+ pretty first +:+ "/"
                    +:+ pretty (retry config + 1) +:+ " failed: "
                    +:+ match connectStep E k with
                        | Refused e => JS.message e
                        | _ => EmptyString
                        end)
      :: (if first <? retry config + 1 then [Sleep (1000 * first)] else [])
      ++ refusals E config (S k) (S first) n'
  end.

(** How many connect attempts there are among some events. *)
Definition isAttempt (ev : Event) : bool :=
  match ev with ConnectAttempt _ => true | _ => false end.

Definition attemptsIn (evs : list Event) : nat := length (List.filter isAttempt evs).

(** The text [host:port] of the database the configuration targets. *)
Definition target (config : KDBConfig) : string :=
  host config +:+ ":" +:+ pretty (port config).

(** [w] with heap [h] and with [evs] appended to its trace. *)
Definition withHeap (w : World) (h : list Cell) (evs : list Event) : World :=
  {| conns := conns w; cachedConnection := cachedConnection w;
     csvCache := csvCache w; heap := h; trace := trace w ++ evs;
     attempts := attempts w; calls := calls w |}.

(** [data] is the address of a table: an array of row objects. *)
Definition isTable (h : list Cell) (data : nat) : Prop := is_Some (tableAt h data).

(** [key] is the column that [column] names. *)
Definition named (column : option string) (key : string) : bool :=
  match column with
  | Some c => truthy column && String.eqb key c
  | None => false
  end.

(** [key] is the configured dense or sparse embedding column. *)
Definition isVectorColumn (cfg : EmbeddingConfig) (key : string) : bool :=
  named (embeddingColumn cfg) key || named (sparseEmbeddingColumn cfg) key.

(** A row without its vector columns: the other columns, each with its
    value, in the order they had. *)
Definition withoutVectorColumns (cfg : EmbeddingConfig) (o : Object) : Object :=
  List.filter (fun p => negb (isVectorColumn cfg (fst p))) o.

(** What one conditional [delete] leaves of a row. *)
Definition dropped (column : option string) (o : Object) : Object :=
  match column with
  | Some c => if truthy column then JS.deleteProperty c o else o
  | None => o
  end.

(** The cell of a configuration row under [key]; [null] when the row has
    no such column. *)
Definition cell (row : CsvRow) (key : string) : option string :=
  mjoin (row !! key).

(** [x || null] for a cell [x]: an empty text counts as absent. *)
Definition orNull (x : option string) : option string :=
  match x with
  | Some EmptyString => None
  | _ => x
  end.

(** How many rows of the configuration table are for [table]. *)
Definition matching (table : string) (df : list CsvRow) : nat :=
  length (List.filter (matchesTable table) df).

(** ** Sample data *)

Definition cfg0 : KDBConfig := {|
  host := "127.0.0.1"; port := 5000; username := ""; password := ""; tls := false;
  timeout := 1; retry := 2; embeddingCsvPath := "embeddings.csv";
  metric := "CS"; k := 5 |}.

Definition noFiles : string -> Error + list RawRecord :=
  fun _ => inl (JS.newError "ENOENT").

Definition quietProviders : nat -> string -> string -> string -> option Error :=
  fun _ _ _ _ => None.

(** An environment in which the first connect step throws and the later
    ones succeed, and every query is answered with the empty table. *)
Definition flakyEnv : Env := {|
  toUpperCase := JS.toUpperCase;
  trim := JS.trim;
  connectStep := fun n => if n <? 1 then Refused (JS.newError "ECONNREFUSED") else Established;
  remoteQuery := fun _ _ => Returns (RTable []);
  readCsv := noFiles;
  denseEmbedStep := quietProviders;
  sparseEmbedStep := quietProviders
|}.

(** An environment in which every connect step throws. *)
Definition downEnv : Env := {|
  toUpperCase := JS.toUpperCase;
  trim := JS.trim;
  connectStep := fun _ => Refused (JS.newError "ECONNREFUSED");
  remoteQuery := fun _ _ => Raises (JS.newError "unreachable");
  readCsv := noFiles;
  denseEmbedStep := quietProviders;
  sparseEmbedStep := quietProviders
|}.

(** The process after a first successful [getKDBConnection]. *)
Definition connectedWorld : World :=
  Eval vm_compute in snd (getKDBConnection flakyEnv cfg0 initialWorld).




(** Two configured tables: [docs] has dense embeddings only, [notes] has a
    sparse index as well. *)
Definition docsRecord : RawRecord :=
  list_to_map [("table", "docs"); ("embedding_column", "emb");
               ("embedding_provider", "openai");
               ("embedding_model", "text-embedding-3-small");
               ("sparse_embedding_column", ""); ("sparse_index_name", "");
               ("sparse_tokenizer_provider", ""); ("sparse_tokenizer_model", "")].

Definition notesRecord : RawRecord :=
  list_to_map [("table", "notes"); ("embedding_column", "emb");
               ("embedding_provider", "openai");
               ("embedding_model", "text-embedding-3-small");
               ("sparse_embedding_column", "sparse"); ("sparse_index_name", "notes_bm25");
               ("sparse_tokenizer_provider", ""); ("sparse_tokenizer_model", "")].

Definition sampleFiles : string -> Error + list RawRecord :=
  fun path =>
    if String.eqb path "embeddings.csv" then inr [docsRecord; notesRecord]
    else inl (JS.newError "ENOENT: no such file or directory").

Definition searchEnv : Env := {|
  toUpperCase := JS.toUpperCase;
  trim := JS.trim;
  connectStep := fun _ => Established;
  remoteQuery := fun _ _ =>
    Returns (RTable [[("id", JS.VNum 7); ("emb", JS.VVector [1; 2]%Z);
                      ("sparse", JS.VNull); ("seen", JS.VDate (Some "2024-01-01T00:00:00.000Z"))]]);
  readCsv := sampleFiles;
  denseEmbedStep := quietProviders;
  sparseEmbedStep := quietProviders
|}.

(** A heap with one table of one row. *)
Definition tableWorld : World := {|
  conns := []; cachedConnection := None; csvCache := ∅;
  heap := [RowCell [("id", JS.VNum 7); ("emb", JS.VVector [1; 2]%Z);
                    ("text", JS.VStr "hello"); ("sparse", JS.VNull)];
           ArrCell [0]];
  trace := []; attempts := 0; calls := 0
|}.

(** ** tools/kdbx-sim-search.ts: similarity search *)

Definition similarityWrapper : string :=
  "{[args] .ai.flat.search[?[args`table;();();args`vcol];args`qvec;args`n;args`metric]}".

Section SimilaritySearch.
Context (E : Env).

(** The statements of the [try] block from the provider lookup to the
    remote call. *)
Definition similarityCalls (embeddingConfig : EmbeddingConfig)
    (queryText : string) (config : KDBConfig) : M RemoteValue :=
  provider ← getProvider (default "" (embeddingProvider embeddingConfig));
  denseEmbed E provider queryText (default "" (embeddingModel embeddingConfig));;
  conn ← getKDBConnection E config;
  query E conn similarityWrapper.

(** What follows the remote call. [normalizeSearchResult] calls [data.map]
    on the reply as it is: on [null] and on an object that is no array this
    throws. *)
Definition similarityReply (tableName : string) (config : KDBConfig)
    (result : RemoteValue) : M SearchResult :=
  match result with
  | RTable rows =>
      received ← materialize rows;
      normalized ← normalizeSearchResult E received tableName config;
      out ← readArray normalized;
      mret {| s_status := success; s_table := Some tableName;
              s_recordsCount := Some (length out);
              s_records := Some normalized; s_message := None |}
  | RNull =>
      throw (JS.mkError "TypeError" "Cannot read properties of null (reading 'map')")
  | RQuery _ _ =>
      throw (JS.mkError "TypeError" "data.map is not a function")
  end.

Definition similaritySearch (embeddingConfig : EmbeddingConfig)
    (tableName queryText : string) (config : KDBConfig) : M SearchResult :=
  result ← similarityCalls embeddingConfig queryText config;
  similarityReply tableName config result.

Definition kdbxSimilaritySearchImpl (tableName queryText : string) (n : option nat)
    (config : KDBConfig) : M SearchResult :=
  tryCatch
    (let _k := default (k config) n in
     embeddingConfig ← getEmbeddingConfig E tableName config;
     if negb (truthy (embeddingColumn embeddingConfig))
        || negb (truthy (embeddingProvider embeddingConfig))
        || negb (truthy (embeddingModel embeddingConfig)) then
       throw (JS.newError ("Table " +:+ tableName
                           +:+ " does not have embedding configuration"))
     else similaritySearch embeddingConfig tableName queryText config)
    (searchFailed tableName).

End SimilaritySearch.

(** ** Further vocabulary: what a computation keeps *)

(** Every run of [m] relates the state it starts from to the state it ends
    in by [R], whether it returns or throws. *)
Definition keeps (R : World -> World -> Prop) {A} (m : M A) : Prop :=
  ∀ w r w', m w = (r, w') → R w w'.

(** [w'] extends the trace of [w] by events that all satisfy [P]. *)
Definition emits (P : Event -> bool) (w w' : World) : Prop :=
  ∃ evs, trace w' = trace w ++ evs ∧ forallb P evs = true.

(** The configuration cache is the same in both states. *)
Definition sameCache (w w' : World) : Prop := csvCache w' = csvCache w.

(** Log lines, and the steps of a connect sequence. *)
Definition isLog (ev : Event) : bool :=
  match ev with Log _ _ => true | _ => false end.

Definition isConnectEvent (ev : Event) : bool :=
  match ev with Log _ _ | ConnectAttempt _ | Sleep _ => true | _ => false end.

(** Anything but a call of an embedding provider. *)
Definition notProviderCall (ev : Event) : bool :=
  match ev with DenseEmbed _ _ _ | SparseEmbed _ _ _ => false | _ => true end.

(** Anything but a call of [conn.query]. *)
Definition notRemoteCall (ev : Event) : bool :=
  match ev with RemoteCall _ _ => false | _ => true end.

(** [w] with heap [h]. *)
Definition onHeap (w : World) (h : list Cell) : World :=
  {| conns := conns w; cachedConnection := cachedConnection w;
     csvCache := csvCache w; heap := h; trace := trace w;
     attempts := attempts w; calls := calls w |}.

(** The statements of [hybridSearch] from the provider lookups to the remote
    call, and what it does with the reply. *)
Definition hybridCalls (E : Env) (embeddingConfig : EmbeddingConfig)
    (queryText : string) (config : KDBConfig) : M RemoteValue :=
  let provider := default "" (embeddingProvider embeddingConfig) in
  let model := default "" (embeddingModel embeddingConfig) in
  denseProvider ← getProvider provider;
  sparseProvider ←
    (if decide (sparseTokenizerProvider embeddingConfig
                = embeddingProvider embeddingConfig)
     then mret denseProvider
     else getProvider
            (default "" (orElse (sparseTokenizerProvider embeddingConfig)
                                (embeddingProvider embeddingConfig))));
  denseEmbed E denseProvider queryText model;;
  sparseEmbed E sparseProvider queryText
    (default "" (orElse (sparseTokenizerModel embeddingConfig)
                        (embeddingModel embeddingConfig)));;
  conn ← getKDBConnection E config;
  query E conn hybridWrapper.

Definition hybridReply (E : Env) (tableName : string) (config : KDBConfig)
    (result : RemoteValue) : M SearchResult :=
  match result with
  | RNull | RTable [] =>
      logger LInfo ("Hybrid search on table " +:+ tableName
        +:+ " returned no results - sparse search may have found no matches");;
      records ← alloc (ArrCell []);
      mret {| s_status := success; s_table := Some tableName;
              s_recordsCount := Some 0; s_records := Some records;
              s_message := Some "No results found - the sparse search returned no matches for the query" |}
  | RTable rows =>
      received ← materialize rows;
      normalized ← normalizeSearchResult E received tableName config;
      out ← readArray normalized;
      mret {| s_status := success; s_table := Some tableName;
              s_recordsCount := Some (length out);
              s_records := Some normalized; s_message := None |}
  | RQuery _ _ =>
      throw (JS.mkError "TypeError" "data.map is not a function")
  end.

(** The provider and the model that compute the sparse embedding: the
    tokenizer's when the configuration names them, the dense ones
    otherwise. *)
Definition sparseProviderOf (cfg : EmbeddingConfig) : string :=
  default "" (orElse (sparseTokenizerProvider cfg) (embeddingProvider cfg)).

Definition sparseModelOf (cfg : EmbeddingConfig) : string :=
  default "" (orElse (sparseTokenizerModel cfg) (embeddingModel cfg)).

Definition isRegistered (name : string) : bool :=
  existsb (String.eqb name) providerRegistry.

(** The events of the calls that follow the embeddings. *)
Definition isConnectOrRemote (ev : Event) : bool :=
  match ev with
  | Log _ _ | ConnectAttempt _ | Sleep _ | RemoteCall _ _ => true
  | _ => false
  end.

(** A temporal cell as its ISO text; other cells as they are. *)
Definition isoCell (v : Value) : Value :=
  match v with
  | JS.VDate (Some iso) | JS.VTemporal (Some iso) => JS.VStr iso
  | _ => v
  end.

(** A temporal cell whose [toISOString] throws. *)
Definition invalidTime (v : Value) : bool :=
  match v with
  | JS.VDate None | JS.VTemporal None => true
  | _ => false
  end.

(** The columns a row built by assignments keeps: all but ["__proto__"]. *)
Definition isColumn (kv : string * Value) : bool :=
  negb (String.eqb (fst kv) "__proto__").

(** A row with its temporal cells as ISO text: the columns in their order,
    without a column named ["__proto__"]. *)
Definition isoRow (o : Object) : Object :=
  map (fun kv => (fst kv, isoCell (snd kv))) (List.filter isColumn o).

Definition timesValid (o : Object) : bool :=
  forallb (fun kv => negb (invalidTime (snd kv))) o.

(** ** Further sample data *)

(** A table with a sparse index but no dense provider, and a table whose
    provider is not one of the registered ones. *)
Definition logsRecord : RawRecord :=
  list_to_map [("table", "logs"); ("embedding_column", "emb");
               ("embedding_provider", ""); ("embedding_model", "");
               ("sparse_embedding_column", "sparse"); ("sparse_index_name", "logs_bm25");
               ("sparse_tokenizer_provider", ""); ("sparse_tokenizer_model", "")].

Definition wikiRecord : RawRecord :=
  list_to_map [("table", "wiki"); ("embedding_column", "emb");
               ("embedding_provider", "cohere"); ("embedding_model", "embed-v3");
               ("sparse_embedding_column", "sparse"); ("sparse_index_name", "wiki_bm25");
               ("sparse_tokenizer_provider", ""); ("sparse_tokenizer_model", "")].

Definition moreFiles : string -> Error + list RawRecord :=
  fun _ => inr [docsRecord; notesRecord; logsRecord; wikiRecord].

Definition searchEnv2 : Env := {|
  toUpperCase := JS.toUpperCase;
  trim := JS.trim;
  connectStep := fun _ => Established;
  remoteQuery := fun _ _ => Returns (RTable []);
  readCsv := moreFiles;
  denseEmbedStep := quietProviders;
  sparseEmbedStep := quietProviders
|}.

(** The hosted provider refuses the request. *)
Definition denseFailEnv : Env := {|
  toUpperCase := JS.toUpperCase;
  trim := JS.trim;
  connectStep := fun _ => Established;
  remoteQuery := fun _ _ => Returns (RTable []);
  readCsv := sampleFiles;
  denseEmbedStep := fun _ _ _ _ => Some (JS.mkError "RateLimitError" "429 Too Many Requests");
  sparseEmbedStep := quietProviders
|}.

(** The database answers [null]. *)
Definition nullReplyEnv : Env := {|
  toUpperCase := JS.toUpperCase;
  trim := JS.trim;
  connectStep := fun _ => Established;
  remoteQuery := fun _ _ => Returns RNull;
  readCsv := sampleFiles;
  denseEmbedStep := quietProviders;
  sparseEmbedStep := quietProviders
|}.

(** The database answers with a row that has a column named
    ["__proto__"]. *)
Definition protoReplyEnv : Env := {|
  toUpperCase := JS.toUpperCase;
  trim := JS.trim;
  connectStep := fun _ => Established;
  remoteQuery := fun _ _ =>
    Returns (RTable [[("id", JS.VNum 7); ("__proto__", JS.VNum 1);
                      ("emb", JS.VVector [1; 2]%Z); ("sparse", JS.VNull);
                      ("seen", JS.VDate (Some "2024-01-01T00:00:00.000Z"))]]);
  readCsv := sampleFiles;
  denseEmbedStep := quietProviders;
  sparseEmbedStep := quietProviders
|}.

(** A table of one row that has a column named ["__proto__"]. *)
Definition protoWorld : World := {|
  conns := []; cachedConnection := None; csvCache := ∅;
  heap := [RowCell [("id", JS.VNum 7); ("__proto__", JS.VNum 1);
                    ("emb", JS.VVector [1; 2]%Z);
                    ("seen", JS.VDate (Some "2024-01-01T00:00:00.000Z"))];
           ArrCell [0]];
  trace := []; attempts := 0; calls := 0
|}.

(** A table whose second row holds an invalid date. *)
Definition badDateWorld : World := {|
  conns := []; cachedConnection := None; csvCache := ∅;
  heap := [RowCell [("id", JS.VNum 1); ("seen", JS.VDate (Some "2024-01-01T00:00:00.000Z"))];
           RowCell [("id", JS.VNum 2); ("seen", JS.VDate None)];
           ArrCell [0; 1]];
  trace := []; attempts := 0; calls := 0
|}.

(** ** utils/embeddings.ts: the tokenizer both providers share *)

(** [ToInt32]: the number modulo 2^32, read as a signed 32-bit integer. *)
Definition toInt32 (z : Z) : Z :=
  let m := (z mod 2 ^ 32)%Z in
  if (2 ^ 31 <=? m)%Z then (m - 2 ^ 32)%Z else m.

(** [a << k] *)
Definition shiftLeft (a k : Z) : Z :=
  toInt32 (Z.shiftl (toInt32 a) (k mod 32)).

(** [a & b] *)
Definition bitAnd (a b : Z) : Z := Z.land (toInt32 a) (toInt32 b).

(** [str.charCodeAt(i)]: a character of a text is one code unit, between 0
    and 255. *)
Definition charCode (c : ascii) : Z := Z.of_nat (nat_of_ascii c).

(** The body of the loop of [simpleHash]. *)
Definition hashStep (hash char : Z) : Z :=
  let hash := (shiftLeft hash 5 - hash + char)%Z in
  bitAnd hash hash.

Fixpoint hashLoop (str : string) (hash : Z) : Z :=
  match str with
  | EmptyString => hash
  | String c rest => hashLoop rest (hashStep hash (charCode c))
  end.

(** [simpleHash(str)] of [OpenAIProvider] and [SentenceTransformerProvider]. *)
Definition simpleHash (str : string) : string :=
  pretty (Z.abs (hashLoop str 0)).

(** The code units below 256 that [\s] matches: TAB, LF, VT, FF, CR, SPACE
    and the no-break space U+00A0. *)
Definition isWhiteSpace (c : ascii) : bool :=
  JS.isSpace c || (nat_of_ascii c =? 160).

(** [text.split(/\s+/)]: the pieces of [text] between maximal runs of white
    space. [cur] is the piece being read, and [inGap] tells that the
    character before was white space. A run at the start or at the end of
    the text leaves an empty piece there, and the empty text is one empty
    piece. *)
Fixpoint splitFrom (text cur : string) (inGap : bool) : list string :=
  match text with
  | EmptyString => [cur]
  | String c rest =>
      if isWhiteSpace c then
        if inGap then splitFrom rest EmptyString true
        else cur :: splitFrom rest EmptyString true
      else splitFrom rest (cur +:+ String c EmptyString) false
  end.

Definition splitWhitespace (text : string) : list string :=
  splitFrom text EmptyString false.

(** The body of the loop of [sparseEmbed]:
    [tokenCounts[tokenId] = (tokenCounts[tokenId] || 0) + 1]. *)
Definition countToken (tokenCounts : gmap string nat) (token : string)
  : gmap string nat :=
  let tokenId := simpleHash token in
  <[tokenId := default 0 (tokenCounts !! tokenId) + 1]> tokenCounts.

(** [sparseEmbed(text, modelName)] once the model is there: the hosted
    provider needs none, the local one awaits [getModel] first. *)
Definition tokenCountsOf (text : string) : gmap string nat :=
  foldl countToken ∅ (splitWhitespace text).

(** The hash of Java's [String.hashCode], without overflow. *)
Definition polynomial31 (str : string) : Z :=
  foldl (fun h c => (31 * h + charCode c)%Z) 0%Z (String.list_ascii_of_string str).

(** How many of the tokens get the identifier [tokenId]. *)
Definition tokensWithId (tokenId : string) (tokens : list string) : nat :=
  length (List.filter (fun t => String.eqb (simpleHash t) tokenId) tokens).

Definition startsWithSpace (text : string) : bool :=
  match text with
  | EmptyString => false
  | String c _ => isWhiteSpace c
  end.

Fixpoint endsWithSpace (text : string) : bool :=
  match text with
  | EmptyString => false
  | String c EmptyString => isWhiteSpace c
  | String _ rest => endsWithSpace rest
  end.

Definition isDigit (c : ascii) : bool :=
  let n := nat_of_ascii c in (48 <=? n) && (n <=? 57).

(** ** utils/format-utils.ts: text tables *)

(** [s.repeat(n)] *)
Fixpoint repeatString (s : string) (n : nat) : string :=
  match n with
  | 0 => EmptyString
  | S n' => s +:+ repeatString s n'
  end.

(** [s.padEnd(n)] *)
Definition padEnd (n : nat) (s : string) : string :=
  s +:+ repeatString " " (n - String.length s).

(** [l.join(sep)] *)
Fixpoint join (sep : string) (l : list string) : string :=
  match l with
  | [] => EmptyString
  | [x] => x
  | x :: rest => x +:+ sep +:+ join sep rest
  end.

Definition newline : string := String (ascii_of_nat 10) EmptyString.

(** [Math.max(x, ...l)] *)
Definition maxOf (x : nat) (l : list nat) : nat := foldl Nat.max x l.

(** The own property [k] of [o]. *)
Definition getOwn (k : string) (o : Object) : option Value :=
  snd <$> List.find (fun p => String.eqb (fst p) k) o.

(** A value of a metadata record, as [formatDataForDisplay] looks at it: a
    non-null object with its members [t], [f] and [a] ([None] where the
    object has none), or anything else. *)
Inductive Field :=
| FObject (t f a : option Value)
| FOther (v : Value).

(** The argument of [formatDataForDisplay], by the tests the function makes:
    an array of row objects, another non-null object with its entries, or a
    value that is neither. *)
Inductive Data :=
| DArray (rows : list Object)
| DObject (entries : list (string * Field))
| DOther (v : Value).

Section Display.

(** [String(v)], and [String] of the member of [Object.prototype] with a
    given name. *)
Context (text : Value -> string) (inheritedText : string -> string).

(** [String(x ?? '')] for a member that may be missing *)
Definition orEmpty (x : option Value) : string :=
  match x with
  | None | Some JS.VNull => EmptyString
  | Some v => text v
  end.

(** [String(row[h] ?? '')]: the lookup sees inherited members too. *)
Definition cellText (row : Object) (h : string) : string :=
  match getOwn h row with
  | Some v => orEmpty (Some v)
  | None => if existsb (String.eqb h) JS.inherited then inheritedText h else EmptyString
  end.

Definition formatRow (colWidths : list nat) (values : list string) : string :=
  "  " +:+ join " | " (imap (fun i v => padEnd (default 0 (colWidths !! i)) v) values).

(** The [lines] of the table branch; [first] is [data[0]]. *)
Definition tableLines (first : Object) (data : list Object) : list string :=
  let headers := fst <$> first in
  let rows := (fun row => cellText row <$> headers) <$> data in
  let colWidths :=
    imap (fun i h =>
            maxOf (String.length h)
              ((fun r => String.length (default EmptyString (r !! i))) <$> rows))
         headers in
  formatRow colWidths headers
  :: ("  " +:+ join "-|-" ((fun w => repeatString "-" w) <$> colWidths))
  :: (formatRow colWidths <$> rows).

(** A line of the metadata branch. *)
Definition entryLine (entry : string * Field) : string :=
  let (key, value) := entry in
  match value with
  | FObject t f a =>
      "  " +:+ padEnd 20 key +:+ " | type=" +:+ padEnd 3 (orEmpty t)
      +:+ " | f=" +:+ padEnd 5 (orEmpty f) +:+ " | a=" +:+ orEmpty a
  | FOther v => "  " +:+ key +:+ ": " +:+ text v
  end.

Definition formatDataForDisplay (data : Data) : string :=
  match data with
  | DArray rows =>
      match rows with
      | [] => "No data"
      | first :: _ => join newline (tableLines first rows)
      end
  | DObject entries => join newline (entryLine <$> entries)
  | DOther v => text v
  end.

End Display.

(** The length of [l.join(sep)] from the lengths of the pieces. *)
Fixpoint joinedLength (sep : nat) (l : list nat) : nat :=
  match l with
  | [] => 0
  | [x] => x
  | x :: rest => x + sep + joinedLength sep rest
  end.

(** ** Proof automation for the monad *)

Ltac run :=
  repeat (unfold mbind, M_bind, mret, M_ret, tryCatch, throw, emit, logger, gets,
            setConns, setCachedConnection, setCsvCache, setHeap, tickAttempts,
            tickCalls, appendTrace, newConnection, isConnected, connect, close in *;
          cbn beta iota zeta delta [fst snd conns cachedConnection csvCache heap
                                    trace attempts calls] in *).

(** ** Strings *)

Example trim_upper_sample :
  JS.trim (JS.toUpperCase ("  select a, 'drop' from t" +:+ String "010"%char " "))
  = "SELECT A, 'DROP' FROM T".
Proof. reflexivity. Qed.

Example includes_sample :
  JS.includes "SELECT CREATED_AT FROM T" "CREATE" = true
  ∧ JS.includes "SELECT A FROM T" "CREATE" = false
  ∧ JS.startsWith "SELECTED" "SELECT" = true
  ∧ JS.startsWith " SELECT" "SELECT" = false.
Proof. repeat split; reflexivity. Qed.

Example toString_sample :
  JS.toString (JS.newError "No configuration found for table='t'")
  = "Error: No configuration found for table='t'".
Proof. reflexivity. Qed.

Lemma append_cons c (s t : string) : String c s +:+ t = String c (s +:+ t).
Proof. reflexivity. Qed.

Lemma append_nil (t : string) : "" +:+ t = t.
Proof. reflexivity. Qed.

Lemma startsWith_spec s p :
  JS.startsWith s p = true ↔ ∃ t, s = p +:+ t.
Proof.
  revert s. induction p as [|a p IH]; intros s; simpl.
  - split; [intros _; exists s; reflexivity | reflexivity].
  - destruct s as [|b s].
    + split; [discriminate | intros [t Ht]; discriminate].
    + setoid_rewrite append_cons.
      destruct (Ascii.eqb_spec a b) as [->|Hne].
      * rewrite IH. split; intros [t Ht]; exists t; congruence.
      * split; [discriminate | intros [t Ht]; congruence].
Qed.

Lemma includes_spec s p :
  JS.includes s p = true ↔ ∃ a b, s = a +:+ p +:+ b.
Proof.
  induction s as [|c s IH].
  - cbn [JS.includes]. rewrite orb_false_r, startsWith_spec. split.
    + intros [t Ht]. exists "", t. exact Ht.
    + intros ([|x a] & b & Hab); [exists b; exact Hab | discriminate].
  - cbn [JS.includes]. rewrite orb_true_iff, startsWith_spec, IH. split.
    + intros [[t Ht] | (a & b & Hab)].
      * exists "", t. exact Ht.
      * exists (String c a), b. rewrite append_cons. congruence.
    + intros ([|x a] & b & Hab).
      * left. exists b. exact Hab.
      * right. exists a, b. rewrite append_cons in Hab. congruence.
Qed.

(** ** C1: the safety gate *)

Lemma safetyGate_pass queryUpper keywords w :
  JS.startsWith queryUpper "SELECT" = true →
  safetyGate queryUpper keywords w = (Ret tt, w).
Proof.
  intros Hsel. induction keywords as [|kw rest IH]; [reflexivity|].
  cbn [safetyGate]. rewrite Hsel, andb_false_r. exact IH.
Qed.

Lemma safetyGate_reject queryUpper keywords w :
  JS.startsWith queryUpper "SELECT" = false →
  (∃ kw, kw ∈ keywords ∧ JS.includes queryUpper kw = true) →
  ∃ kw, kw ∈ keywords ∧ JS.includes queryUpper kw = true ∧
    safetyGate queryUpper keywords w
    = (Throw (JS.newError ("Query contains dangerous keyword: " +:+ kw)), w).
Proof.
  intros Hsel. induction keywords as [|k0 rest IH]; intros (kw & Hin & Hinc).
  - inversion Hin.
  - cbn [safetyGate]. rewrite Hsel. cbn [negb]. rewrite andb_true_r.
    destruct (JS.includes queryUpper k0) eqn:Hk0.
    + exists k0. split; [left|]. split; [exact Hk0 | reflexivity].
    + destruct IH as (kw' & Hin' & Hinc' & Hrun).
      * apply elem_of_cons in Hin as [->|Hin]; [congruence|]. eauto.
      * exists kw'. split; [right; exact Hin'|]. split; assumption.
Qed.

Lemma dangerous_message_plain kw :
  kw ∈ dangerousKeywords →
  JS.includes ("Query contains dangerous keyword: " +:+ kw) ".s.e" = false.
Proof.
  unfold dangerousKeywords. rewrite !elem_of_cons, elem_of_nil.
  intros H. repeat (destruct H as [->|H]; [reflexivity|]). destruct H.
Qed.

Lemma getKDBConnection_neverRefuses E config w :
  neverRefuses E → ∃ conn w1, getKDBConnection E config w = (Ret conn, w1).
Proof.
  intros Hnr. unfold getKDBConnection.
  replace (retry config + 1) with (S (retry config)) by lia.
  cbn [seq connectLoop]. run.
  destruct (cachedConnection w) as [c|]; run;
    [destruct (default false (conns w !! c)); [eauto|]|];
    (destruct (connectStep E (attempts w)) eqn:Hstep; run; eauto;
     exfalso; exact (Hnr _ _ Hstep)).
Qed.

(** ** C3, C4: the retry loop *)

Lemma schedule_app evs1 evs2 : schedule (evs1 ++ evs2) = schedule evs1 ++ schedule evs2.
Proof. apply List.filter_app. Qed.

Lemma backoff_step first n :
  backoff first (S (S n)) = ConnectAttempt first :: Sleep (1000 * first) :: backoff (S first) (S n).
Proof. reflexivity. Qed.

Lemma connectLoop_spec E config conn m : ∀ s lastError w r w',
  s + m = retry config + 2 →
  connectLoop E config conn (seq s m) lastError w = (r, w') →
  ∃ n evs,
    n ≤ m ∧ attempts w' = attempts w + n ∧ trace w' = trace w ++ evs ∧
    schedule evs = backoff s n ∧ heap w' = heap w ∧ csvCache w' = csvCache w ∧
    calls w' = calls w ∧ length (conns w') = length (conns w) ∧
    last evs = Some (Log (match r with Ret _ => LInfo | Throw _ => LError end)
                         (match r with Ret _ => "Connected to Q/KDB-X"
                                     | Throw _ => "Failed to connect to KDB" end)) ∧
    match r with
    | Ret c =>
        c = conn ∧ 1 ≤ n ∧ (∀ i, i < n - 1 → refusedAt E (attempts w + i)) ∧
        ¬ refusedAt E (attempts w + (n - 1)) ∧ cachedConnection w' = Some conn ∧
        (connectStep E (attempts w + (n - 1)) = Established → conns w' = <[conn := true]> (conns w)) ∧
        (connectStep E (attempts w + (n - 1)) = Skipped → conns w' = conns w)
    | Throw e =>
        n = m ∧ (∀ i, i < m → refusedAt E (attempts w + i)) ∧
        cachedConnection w' = match m with
                              | 0 => cachedConnection w
                              | S _ => Some conn
                              end ∧
        conns w' = conns w ∧
        match m with
        | 0 => e = default (JS.newError "Failed to connect to KDB-X") lastError
        | S m' => connectStep E (attempts w + m') = Refused e
        end
    end.
Proof.
  induction m as [|m IH]; intros s lastError w r w' Hsm Hrun.
  - cbn [seq connectLoop] in Hrun. run. injection Hrun as <- <-.
    exists 0, [Log LError "Failed to connect to KDB"]. cbn.
    repeat split; try reflexivity; try lia.
  - cbn [seq connectLoop] in Hrun. run.
    destruct (connectStep E (attempts w)) as [| |e] eqn:Hstep; run.
    + injection Hrun as <- <-.
      exists 1, [ConnectAttempt s; Log LInfo "Connected to Q/KDB-X"]. cbn.
      rewrite <- app_assoc, Nat.add_0_r.
      repeat split; try reflexivity; try lia.
      * intros [e He]. congruence.
      * congruence.
    + injection Hrun as <- <-.
      exists 1, [ConnectAttempt s; Log LInfo "Connected to Q/KDB-X"]. cbn.
      rewrite <- app_assoc, Nat.add_0_r.
      repeat split; try reflexivity; try lia.
      * apply length_insert.
      * intros [e He]. congruence.
      * congruence.
    + assert (Hfirst : ∀ n i, (∀ j, j < n → refusedAt E (S (attempts w) + j)) →
                              i < S n → refusedAt E (attempts w + i)).
      { intros n [|i] Hall Hi.
        - rewrite Nat.add_0_r. exists e. exact Hstep.
        - replace (attempts w + S i) with (S (attempts w) + i) by lia.
          apply Hall. lia. }
      destruct (s <? retry config + 1) eqn:Hlt; run;
        (apply IH in Hrun as (n & evs & Hn & Hatt & Htr & Hsch & Hheap & Hcsv & Hcalls & Hlen & Hlast & Hr);
         [|lia]; cbn in Hatt, Htr, Hheap, Hcsv, Hcalls, Hlen, Hr).
      * apply Nat.ltb_lt in Hlt. destruct m as [|m]; [lia|].
        set (warn := Log LWarn _) in Htr.
        exists (S n), (ConnectAttempt s :: warn :: Sleep (1000 * s) :: evs).
        assert (Hn1 : 1 ≤ n) by (destruct r; lia).
        split; [lia|]. split; [lia|].
        split; [rewrite Htr, <- !app_assoc; reflexivity|].
        split.
        { destruct n as [|n]; [lia|]. rewrite backoff_step, <- Hsch. reflexivity. }
        split; [exact Hheap|]. split; [exact Hcsv|]. split; [exact Hcalls|].
        split; [exact Hlen|].
        split; [rewrite !last_cons, Hlast; reflexivity|].
        destruct r as [c|e'].
        -- destruct Hr as (-> & _ & Hall & Hnot & Hcache & Hest & Hskip).
           replace (attempts w + (S n - 1)) with (S (attempts w) + (n - 1)) by lia.
           repeat split; try assumption; try lia.
           intros i Hi. apply (Hfirst (n - 1)); [exact Hall|lia].
        -- destruct Hr as (-> & Hall & Hcache & Hconns & Hlast').
           replace (attempts w + S m) with (S (attempts w) + m) by lia.
           repeat split; try assumption.
           intros i Hi. apply (Hfirst (S m)); [exact Hall|lia].
      * apply Nat.ltb_ge in Hlt. assert (m = 0) as -> by lia.
        set (warn := Log LWarn _) in Htr.
        exists 1, (ConnectAttempt s :: warn :: evs).
        destruct r as [c|e']; [lia|].
        destruct Hr as (-> & Hall & Hcache & Hconns & Hlast').
        split; [lia|]. split; [lia|].
        split; [rewrite Htr, <- !app_assoc; reflexivity|].
        split; [cbn; unfold schedule in Hsch; rewrite Hsch; reflexivity|].
        split; [exact Hheap|]. split; [exact Hcsv|]. split; [exact Hcalls|].
        split; [exact Hlen|].
        split; [rewrite !last_cons, Hlast; reflexivity|].
        repeat split; try assumption.
        -- intros i Hi. apply (Hfirst 0); [intros j Hj; lia | lia].
        -- cbn in Hlast'. subst e'. rewrite Nat.add_0_r. exact Hstep.
Qed.

Lemma attemptsIn_schedule evs : attemptsIn (schedule evs) = attemptsIn evs.
Proof.
  unfold attemptsIn, schedule. induction evs as [|ev evs IH]; [reflexivity|].
  destruct ev; cbn; rewrite ?IH; reflexivity.
Qed.

Lemma attemptsIn_backoff n : ∀ first, attemptsIn (backoff first n) = n.
Proof.
  induction n as [|n IH]; intros first; [reflexivity|].
  destruct n as [|n]; [reflexivity|].
  rewrite backoff_step. unfold attemptsIn in *. cbn [List.filter isAttempt length].
  rewrite IH. reflexivity.
Qed.

Lemma getKDBConnection_fresh E config w :
  noLiveCache w →
  getKDBConnection E config w
  = connectLoop E config (length (conns w)) (seq 1 (retry config + 1)) None
      {| conns := conns w ++ [false]; cachedConnection := cachedConnection w;
         csvCache := csvCache w; heap := heap w;
         trace := trace w ++ [Log LInfo ("Connecting to KDB at " +:+ target config)];
         attempts := attempts w; calls := calls w |}.
Proof.
  unfold noLiveCache, getKDBConnection, target. run.
  destruct w as [cs cached csv h t a n]; cbn.
  destruct cached as [c|]; run; [intros ->|intros _]; reflexivity.
Qed.

(** C3: without a live cached connection, [getKDBConnection] makes between 1
    and [retry + 1] connect attempts; the attempts and sleeps it performs are
    exactly attempt 1, sleep 1000, attempt 2, sleep 2000, ... (linear
    backoff, no sleep after the last attempt); it returns as soon as an
    attempt is not refused, with the connection object created for this
    sequence, which it caches; it throws only when all [retry + 1] attempts
    were refused. *)
Theorem connect_attempts_bounded_linear_backoff E config w r w' :
  noLiveCache w →
  getKDBConnection E config w = (r, w') →
  ∃ n evs,
    1 ≤ n ∧ n ≤ retry config + 1 ∧
    trace w' = trace w ++ evs ∧
    attemptsIn evs = n ∧ attempts w' = attempts w + n ∧
    schedule evs = backoff 1 n ∧
    match r with
    | Ret conn =>
        (∀ i, i < n - 1 → refusedAt E (attempts w + i)) ∧
        ¬ refusedAt E (attempts w + (n - 1)) ∧
        conn = length (conns w) ∧ cachedConnection w' = Some conn
    | Throw _ =>
        n = retry config + 1 ∧ ∀ i, i < n → refusedAt E (attempts w + i)
    end.
Proof.
  intros Hcache Hrun. rewrite (getKDBConnection_fresh _ _ _ Hcache) in Hrun.
  apply connectLoop_spec in Hrun
    as (n & evs & Hn & Hatt & Htr & Hsch & _ & _ & _ & _ & _ & Hr); [|lia].
  cbn in Hatt, Htr, Hr.
  exists n, (Log LInfo ("Connecting to KDB at " +:+ target config) :: evs).
  assert (Hsch' : schedule (Log LInfo ("Connecting to KDB at " +:+ target config) :: evs)
                  = backoff 1 n) by exact Hsch.
  assert (1 ≤ n).
  { destruct r as [c|e]; [destruct Hr as (_ & H1 & _); exact H1|].
    destruct Hr as (-> & _). lia. }
  split; [assumption|]. split; [exact Hn|].
  split; [rewrite Htr, <- app_assoc; reflexivity|].
  split; [rewrite <- attemptsIn_schedule, Hsch'; apply attemptsIn_backoff|].
  split; [exact Hatt|]. split; [exact Hsch'|].
  destruct r as [c|e].
  - destruct Hr as (-> & _ & Hall & Hnot & Hc & _). auto.
  - destruct Hr as (-> & Hall & _). auto.
Qed.

Lemma connect_attempts_bounded_linear_backoff_witness :
  ∃ n evs,
    1 ≤ n ∧ n ≤ 3 ∧
    trace connectedWorld = [] ++ evs ∧
    attemptsIn evs = n ∧ attempts connectedWorld = 0 + n ∧
    schedule evs = backoff 1 n ∧
    (∀ i, i < n - 1 → refusedAt flakyEnv (0 + i)) ∧
    ¬ refusedAt flakyEnv (0 + (n - 1)) ∧
    0 = 0 ∧ cachedConnection connectedWorld = Some 0.
Proof.
  apply (connect_attempts_bounded_linear_backoff flakyEnv cfg0 initialWorld
           (Ret 0) connectedWorld); [exact I | vm_compute; reflexivity].
Defined.

Lemma connectLoop_all_refused E config conn m : ∀ s lastError w,
  (∀ i, i < m → refusedAt E (attempts w + i)) →
  ∃ w',
    connectLoop E config conn (seq s m) lastError w
    = (Throw (match m with
              | 0 => default (JS.newError "Failed to connect to KDB-X") lastError
              | S m' => match connectStep E (attempts w + m') with
                        | Refused e => e
                        | _ => JS.newError "Failed to connect to KDB-X"
                        end
              end), w') ∧
    trace w' = trace w ++ refusals E config (attempts w) s m
                       ++ [Log LError "Failed to connect to KDB"] ∧
    cachedConnection w' = match m with
                          | 0 => cachedConnection w
                          | S _ => Some conn
                          end ∧
    conns w' = conns w.
Proof.
  induction m as [|m IH]; intros s lastError w Hall.
  - cbn [seq connectLoop refusals]. run. eexists. split; [reflexivity|].
    cbn. auto.
  - destruct (Hall 0 ltac:(lia)) as [e He]. rewrite Nat.add_0_r in He.
    cbn [seq connectLoop refusals]. run. rewrite He. run.
    assert (Hstep : ∀ w2, attempts w2 = S (attempts w) →
              match m with
              | 0 => default (JS.newError "Failed to connect to KDB-X") (Some e)
              | S m' => match connectStep E (attempts w2 + m') with
                        | Refused e' => e'
                        | _ => JS.newError "Failed to connect to KDB-X"
                        end
              end
              = match connectStep E (attempts w + m) with
                | Refused e' => e'
                | _ => JS.newError "Failed to connect to KDB-X"
                end).
    { intros w2 Hw2. destruct m as [|m'].
      - rewrite Nat.add_0_r, He. reflexivity.
      - rewrite Hw2. replace (S (attempts w) + m') with (attempts w + S m') by lia.
        reflexivity. }
    destruct (s <? retry config + 1) eqn:Hlt; run;
      (match goal with |- context [connectLoop E config conn (seq (S s) m) (Some e) ?w2] =>
         destruct (IH (S s) (Some e) w2) as (w' & Hrun & Htr & Hc & Hcs);
           [intros i Hi; replace (attempts w2 + i) with (attempts w + S i) by (cbn; lia);
            apply Hall; lia|];
         rewrite (Hstep w2 eq_refl) in Hrun end;
       exists w'; split; [exact Hrun|];
       cbn in Htr, Hc, Hcs; rewrite Htr, <- !app_assoc; cbn;
       split; [reflexivity|]; split; [|exact Hcs]; destruct m; exact Hc).
Qed.

(** C4 (as the code has it): when the [try] block of every one of the
    [retry + 1] attempts throws, [getKDBConnection] throws the error object
    of the last attempt as it is: nothing is added to it. The target
    [host:port] is written by the function in the info line before the
    first attempt only: after it the log has, for each attempt, the warning
    with the attempt's number and the message of its error, and at the end
    the fixed text "Failed to connect to KDB". The cache then holds the
    object created for this sequence, which does not report connected. *)
Theorem exhausted_retries_throw_last_error E config w :
  noLiveCache w →
  (∀ i, i < retry config + 1 → refusedAt E (attempts w + i)) →
  ∃ e w',
    getKDBConnection E config w = (Throw e, w') ∧
    connectStep E (attempts w + retry config) = Refused e ∧
    trace w' = trace w
               ++ Log LInfo ("Connecting to KDB at " +:+ target config)
                  :: refusals E config (attempts w) 1 (retry config + 1)
                  ++ [Log LError "Failed to connect to KDB"] ∧
    cachedConnection w' = Some (length (conns w)) ∧
    conns w' = conns w ++ [false].
Proof.
  intros Hcache Hall. rewrite (getKDBConnection_fresh _ _ _ Hcache).
  match goal with |- context [connectLoop E config ?c ?todo None ?w0] =>
    destruct (connectLoop_all_refused E config c (retry config + 1) 1 None w0 Hall)
      as (w' & Hrun & Htr & Hc & Hcs) end.
  destruct (Hall (retry config) ltac:(lia)) as [e He].
  exists e, w'. rewrite Hrun. clear Hrun.
  cbn [attempts trace cachedConnection conns] in Htr, Hc, Hcs.
  replace (retry config + 1) with (S (retry config)) in Hc |- * by lia.
  cbn [attempts].
  split; [rewrite He; reflexivity|]. split; [exact He|].
  split; [|split; [exact Hc | exact Hcs]].
  replace (S (retry config)) with (retry config + 1) by lia.
  rewrite Htr, <- app_assoc. reflexivity.
Qed.

Lemma exhausted_retries_throw_last_error_witness :
  ∃ e w',
    getKDBConnection downEnv cfg0 initialWorld = (Throw e, w') ∧
    connectStep downEnv (0 + 2) = Refused e ∧
    trace w' = [] ++ Log LInfo ("Connecting to KDB at " +:+ target cfg0)
                     :: refusals downEnv cfg0 0 1 (2 + 1)
                     ++ [Log LError "Failed to connect to KDB"] ∧
    cachedConnection w' = Some 0 ∧
    conns w' = [] ++ [false].
Proof.
  apply (exhausted_retries_throw_last_error downEnv cfg0 initialWorld);
    [exact I | intros i _; exists (JS.newError "ECONNREFUSED"); reflexivity].
Defined.

(** C4 (as claimed) fails: when the [try] block of each of the three
    attempts of the sample configuration throws, the cache holds the new
    object and the error thrown is the last attempt's, whose text does not
    mention [127.0.0.1:5000]; neither does any warning or error line of the
    log. *)
Lemma exhausted_retries_error_not_annotated :
  ∃ e w',
    getKDBConnection downEnv cfg0 initialWorld = (Throw e, w') ∧
    cachedConnection w' = Some 0 ∧
    (∀ i, i < retry cfg0 + 1 → refusedAt downEnv (attempts initialWorld + i)) ∧
    target cfg0 = "127.0.0.1:5000" ∧
    JS.includes (JS.toString e) (target cfg0) = false ∧
    forallb (fun ev => match ev with
                       | Log LWarn msg | Log LError msg =>
                           negb (JS.includes msg (target cfg0))
                       | _ => true
                       end) (trace w') = true.
Proof.
  eexists _, _. split; [vm_compute; reflexivity|].
  split; [reflexivity|].
  split; [intros i _; exists (JS.newError "ECONNREFUSED"); reflexivity|].
  split; vm_compute; auto.
Qed.

(** ** C5: closing the connection *)

Lemma connectLoop_trace_grows E config conn todo : ∀ lastError w r w',
  connectLoop E config conn todo lastError w = (r, w') →
  ∃ evs, trace w' = trace w ++ evs.
Proof.
  induction todo as [|s todo IH]; intros lastError w r w' Hrun;
    cbn [connectLoop] in Hrun; run.
  - injection Hrun as <- <-. cbn. eauto.
  - destruct (connectStep E (attempts w)) as [| |e]; run;
      try (injection Hrun as <- <-; cbn; rewrite <- app_assoc; eauto).
    destruct (s <? retry config + 1); run;
      apply IH in Hrun as [evs Hevs]; cbn in Hevs; rewrite Hevs, <- !app_assoc; eauto.
Qed.

Lemma connectLoop_first_attempt E config conn s todo lastError w r w' :
  connectLoop E config conn (s :: todo) lastError w = (r, w') →
  ∃ evs, trace w' = trace w ++ ConnectAttempt s :: evs.
Proof.
  intros Hrun. cbn [connectLoop] in Hrun. run.
  destruct (connectStep E (attempts w)) as [| |e]; run;
    try (injection Hrun as <- <-; cbn; rewrite <- app_assoc; eauto).
  destruct (s <? retry config + 1); run;
    apply connectLoop_trace_grows in Hrun as [evs Hevs]; cbn in Hevs;
    rewrite Hevs, <- !app_assoc; eauto.
Qed.

(** C5: [cleanupKDBConnection] is idempotent (a second call changes nothing)
    and leaves the cache empty, having closed the object that was cached;
    the next [getKDBConnection] then starts a connect sequence (it logs the
    target, creates a new connection object and runs attempt 1) and what it
    returns is that new object, not one that existed before. *)
Theorem cleanup_idempotent_then_fresh_connect E config w :
  let w1 := snd (cleanupKDBConnection w) in
  cleanupKDBConnection w1 = (Ret tt, w1) ∧
  cachedConnection w1 = None ∧
  (∀ c, cachedConnection w = Some c → conns w1 = <[c := false]> (conns w)) ∧
  ∀ r w2, getKDBConnection E config w1 = (r, w2) →
    (∃ evs, trace w2 = trace w1 ++ Log LInfo ("Connecting to KDB at " +:+ target config)
                                  :: ConnectAttempt 1 :: evs) ∧
    length (conns w2) = S (length (conns w)) ∧
    ∀ conn, r = Ret conn →
      conns w !! conn = None ∧ conns w2 !! conn ≠ None ∧
      cachedConnection w2 = Some conn ∧
      (∀ c, cachedConnection w = Some c → c < length (conns w) → conn ≠ c).
Proof.
  cbn zeta.
  assert (Hw1 : noLiveCache (snd (cleanupKDBConnection w))
                ∧ cachedConnection (snd (cleanupKDBConnection w)) = None
                ∧ trace (snd (cleanupKDBConnection w)) = trace w
                ∧ length (conns (snd (cleanupKDBConnection w))) = length (conns w)).
  { unfold cleanupKDBConnection, noLiveCache. run.
    destruct (cachedConnection w) as [c|] eqn:Hc; cbn; rewrite ?Hc, ?length_insert; auto. }
  destruct Hw1 as (Hlive & Hnone & Htrace & Hlen).
  split; [|split; [exact Hnone|split]].
  - unfold cleanupKDBConnection at 1. run. rewrite Hnone. reflexivity.
  - intros c Hc. unfold cleanupKDBConnection. run. rewrite Hc. reflexivity.
  - intros r w2 Hrun. rewrite (getKDBConnection_fresh _ _ _ Hlive) in Hrun.
    pose proof Hrun as Hrun'.
    apply connectLoop_spec in Hrun
      as (k & evs & _ & _ & _ & _ & _ & _ & _ & Hlen2 & _ & Hr); [|lia].
    cbn in Hlen2. rewrite length_app, Hlen in Hlen2. cbn in Hlen2.
    replace (retry config + 1) with (S (retry config)) in Hrun' by lia.
    cbn [seq] in Hrun'. apply connectLoop_first_attempt in Hrun' as [evs' Hevs'].
    cbn in Hevs'.
    split; [exists evs'; rewrite Hevs', <- app_assoc; reflexivity|].
    split; [lia|].
    intros conn ->. destruct Hr as (-> & _ & _ & _ & Hc & _). rewrite Hlen.
    split; [apply lookup_ge_None; lia|].
    split; [|split; [rewrite <- Hlen; exact Hc|intros c _ Hlt; lia]].
    intros Hn. apply lookup_ge_None in Hn. lia.
Qed.

Lemma cleanup_idempotent_then_fresh_connect_witness :
  let w1 := snd (cleanupKDBConnection connectedWorld) in
  cleanupKDBConnection w1 = (Ret tt, w1) ∧
  cachedConnection w1 = None ∧
  conns w1 = [false] ∧
  ∃ conn w2, getKDBConnection flakyEnv cfg0 w1 = (Ret conn, w2) ∧
    conns connectedWorld !! conn = None ∧ conn ≠ 0.
Proof.
  destruct (cleanup_idempotent_then_fresh_connect flakyEnv cfg0 connectedWorld)
    as (Hidem & Hnone & Hclosed & Hnext).
  split; [exact Hidem|]. split; [exact Hnone|].
  split; [exact (Hclosed 0 eq_refl)|].
  exists 1, (snd (getKDBConnection flakyEnv cfg0 (snd (cleanupKDBConnection connectedWorld)))).
  split; [vm_compute; reflexivity|].
  destruct (Hnext (Ret 1) _ ltac:(vm_compute; reflexivity)) as (_ & _ & Hconn).
  destruct (Hconn 1 eq_refl) as (Hfresh & _ & _ & Hne).
  split; [exact Hfresh|]. apply (Hne 0); [reflexivity | vm_compute; lia].
Defined.

(** ** C1: what the gate lets through *)

Lemma query_announces_call E conn q w r w' :
  query E conn q w = (r, w') → ∃ evs, trace w' = trace w ++ RemoteCall conn q :: evs.
Proof.
  unfold query. run. intros Hrun.
  destruct (default false (conns w !! conn)); cbn in Hrun.
  - destruct (remoteQuery E (calls w) q); injection Hrun as <- <-; cbn; eauto.
  - injection Hrun as <- <-. cbn. eauto.
Qed.

Lemma queryFailed_trace_grows e w :
  ∃ evs res, queryFailed e w = (Ret res, appendTrace w evs) ∧ status res = error.
Proof.
  unfold queryFailed. run.
  destruct (negb (JS.isEmpty (JS.message e)) && JS.includes (JS.message e) ".s.e");
    run; rewrite <- ?app_assoc; eauto.
Qed.

Lemma executeQuery_reaches_call E config w conn w1 :
  getKDBConnection E config w = (Ret conn, w1) →
  ∃ evs, trace (snd (tryCatch (executeQuery E config) queryFailed w))
         = trace w1 ++ RemoteCall conn sqlWrapper :: evs.
Proof.
  intros Hconn. unfold tryCatch, executeQuery.
  unfold mbind at 1. unfold M_bind at 1. rewrite Hconn.
  unfold mbind at 1. unfold M_bind at 1.
  destruct (query E conn sqlWrapper w1) as [[result|e] w2] eqn:Hq;
    apply query_announces_call in Hq as [evs Hevs].
  - unfold rowCountOf.
    assert (Hfail : ∀ e, ∃ evs', trace (snd (queryFailed e w2))
                                  = trace w1 ++ RemoteCall conn sqlWrapper :: evs').
    { intros e. destruct (queryFailed_trace_grows e w2) as (evs' & res & -> & _).
      cbn. rewrite Hevs, <- app_assoc. eauto. }
    destruct result as [|rows|rc rows]; run.
    + apply Hfail.
    + cbn. eauto.
    + destruct (default 0%Z rc =? 0)%Z; [cbn; eauto|].
      destruct (MAX_ROWS_RETURNED <? default 0%Z rc)%Z; cbn;
        rewrite Hevs, <- app_assoc; eauto.
  - destruct (queryFailed_trace_grows e w2) as (evs' & res & -> & _).
    cbn. rewrite Hevs, <- app_assoc. eauto.
Qed.

(** C1: the safety gate of [runQueryImpl], for every query text and whatever
    the runtime's [toUpperCase] and [trim] compute. With [queryUpper] the
    upper-cased, trimmed query text:
    - if it contains a keyword of the denylist and does not start with
      SELECT, the result has status [error] (its message names the keyword)
      and the only effect is one error line in the log: no connection is
      looked up or made and no remote call is issued;
    - if it starts with SELECT, the gate throws nothing whatever else the
      text contains, and the function is the execution phase: the connection
      is acquired and, once it is, the remote call is issued on it (always
      so when no connect step is refused). *)
Theorem safety_gate_rejects_exactly E sqlSelectQuery config w :
  let queryUpper := trim E (toUpperCase E sqlSelectQuery) in
  (mentionsDangerous queryUpper → JS.startsWith queryUpper "SELECT" = false →
   ∃ keyword,
     keyword ∈ dangerousKeywords ∧ JS.includes queryUpper keyword = true ∧
     runQueryImpl E sqlSelectQuery config w
     = (Ret {| status := error; data := None;
               message := Some ("Error: Query contains dangerous keyword: " +:+ keyword);
               error_type := None; technical_details := None |},
        appendTrace w [Log LError ("Query failed: Error: Query contains dangerous keyword: "
                                   +:+ keyword)]))
  ∧
  (JS.startsWith queryUpper "SELECT" = true →
   safetyGate queryUpper dangerousKeywords w = (Ret tt, w) ∧
   runQueryImpl E sqlSelectQuery config w
   = tryCatch (executeQuery E config) queryFailed w ∧
   (∀ conn w1, getKDBConnection E config w = (Ret conn, w1) →
      ∃ evs, trace (snd (runQueryImpl E sqlSelectQuery config w))
             = trace w1 ++ RemoteCall conn sqlWrapper :: evs) ∧
   (neverRefuses E →
      ∃ conn w1, getKDBConnection E config w = (Ret conn, w1))).
Proof.
  cbn zeta. split.
  - intros Hkw Hsel.
    destruct (safetyGate_reject _ _ w Hsel Hkw) as (kw & Hin & Hinc & Hgate).
    exists kw. split; [exact Hin|]. split; [exact Hinc|].
    unfold runQueryImpl, tryCatch. unfold mbind at 1. unfold M_bind at 1.
    rewrite Hgate. unfold queryFailed. run.
    cbn [JS.newError JS.message]. rewrite (dangerous_message_plain _ Hin), andb_false_r.
    reflexivity.
  - intros Hsel.
    assert (Hrun : runQueryImpl E sqlSelectQuery config w
                   = tryCatch (executeQuery E config) queryFailed w).
    { unfold runQueryImpl, tryCatch. unfold mbind at 1. unfold M_bind at 1.
      rewrite (safetyGate_pass _ _ w Hsel). reflexivity. }
    split; [apply safetyGate_pass, Hsel|]. split; [exact Hrun|].
    split; [|apply getKDBConnection_neverRefuses].
    intros conn w1 Hconn. rewrite Hrun. apply executeQuery_reaches_call, Hconn.
Qed.

Lemma safety_gate_rejects_exactly_witness :
  (∃ keyword,
     keyword ∈ dangerousKeywords ∧ JS.includes "DROP TABLE TRADES" keyword = true ∧
     runQueryImpl (placeholderEnv JS.toUpperCase JS.trim noFiles) "  drop table trades " cfg0 initialWorld
     = (Ret {| status := error; data := None;
               message := Some ("Error: Query contains dangerous keyword: " +:+ keyword);
               error_type := None; technical_details := None |},
        appendTrace initialWorld
          [Log LError ("Query failed: Error: Query contains dangerous keyword: "
                       +:+ keyword)]))
  ∧ (safetyGate "SELECT CREATED_AT FROM DROPS" dangerousKeywords initialWorld
     = (Ret tt, initialWorld)
     ∧ ∃ conn w1, getKDBConnection (placeholderEnv JS.toUpperCase JS.trim noFiles) cfg0 initialWorld
                  = (Ret conn, w1)).
Proof.
  destruct (safety_gate_rejects_exactly (placeholderEnv JS.toUpperCase JS.trim noFiles)
              "  drop table trades " cfg0 initialWorld) as [Hreject _].
  destruct (safety_gate_rejects_exactly (placeholderEnv JS.toUpperCase JS.trim noFiles)
              "select created_at from drops" cfg0 initialWorld) as [_ Hpass].
  split.
  - apply Hreject; [|reflexivity].
    exists "DROP". split; [|reflexivity]. right. left.
  - destruct (Hpass eq_refl) as (Hgate & _ & _ & Hconn).
    split; [exact Hgate|]. apply Hconn. intros n e. discriminate.
Defined.

(** ** C2: the row cap *)

(** What [runQueryImpl] returns for a non-zero [rowCount]: the rows of the
    reply as they were received, whatever their number. *)
Lemma rows_returned_as_received E sqlSelectQuery config w conn w1 w2 total rows :
  JS.startsWith (trim E (toUpperCase E sqlSelectQuery)) "SELECT" = true →
  getKDBConnection E config w = (Ret conn, w1) →
  query E conn sqlWrapper w1 = (Ret (RQuery (Some total) rows), w2) →
  total ≠ 0%Z →
  ∃ line,
    runQueryImpl E sqlSelectQuery config w
    = (Ret {| status := success; data := Some (default [] rows);
              message := if (MAX_ROWS_RETURNED <? total)%Z
                         then Some ("Showing first " +:+ pretty MAX_ROWS_RETURNED
                                    +:+ " of " +:+ pretty total +:+ " rows")
                         else None;
              error_type := None; technical_details := None |},
       appendTrace w2 [Log LInfo line]).
Proof.
  intros Hsel Hconn Hq Htotal.
  unfold runQueryImpl, tryCatch. unfold mbind at 1. unfold M_bind at 1.
  rewrite (safetyGate_pass _ _ w Hsel). unfold executeQuery.
  unfold mbind at 1. unfold M_bind at 1. rewrite Hconn.
  unfold mbind at 1. unfold M_bind at 1. rewrite Hq.
  unfold rowCountOf, dataOf. run. cbn [default from_option id].
  destruct (Z.eqb_spec total 0) as [?|_]; [contradiction|].
  destruct (MAX_ROWS_RETURNED <? total)%Z; destruct rows; run; eauto.
Qed.




(** ** C6: per-table embedding configuration *)

Lemma matchesTable_spec table row :
  matchesTable table row = true ↔ row !! "table" = Some (Some table).
Proof.
  unfold matchesTable. destruct (row !! "table") as [[t|]|]; try (split; discriminate).
  destruct (String.eqb_spec t table) as [->|Hne]; split; try done. congruence.
Qed.

Lemma field_cast (raw : RawRecord) key :
  field (cast <$> raw) key = cell (cast <$> raw) key.
Proof.
  unfold field, cell. rewrite lookup_fmap.
  destruct (raw !! key) as [s|]; [|reflexivity]. cbn. unfold cast.
  destruct (JS.isEmpty s) eqn:Hs; [reflexivity|]. cbn. rewrite Hs. reflexivity.
Qed.

(** What [getCsvData] does to the process: it reads the file at most once
    and caches the table; a failed read caches nothing. *)
Lemma getCsvData_effects E path w r w1 :
  getCsvData E path w = (r, w1) →
  ∃ evs, (evs = [] ∨ evs = [ReadCsv path]) ∧
    w1 = {| conns := conns w; cachedConnection := cachedConnection w;
            csvCache := match r with
                        | Ret df => <[path := df]> (csvCache w)
                        | Throw _ => csvCache w
                        end;
            heap := heap w; trace := trace w ++ evs;
            attempts := attempts w; calls := calls w |} ∧
    match r with
    | Ret df =>
        csvCache w !! path = Some df ∨
        (csvCache w !! path = None ∧ ∃ raw, readCsv E path = inr raw ∧ df = fmap (M := gmap string) cast <$> raw)
    | Throw e =>
        csvCache w !! path = None ∧
        ∃ e0, readCsv E path = inl e0 ∧
              e = JS.newError ("Failed to read embeddings CSV: " +:+ JS.toString e0)
    end.
Proof.
  unfold getCsvData. run. destruct w as [cs cached csv h t a n]; cbn.
  destruct (csv !! path) as [df|] eqn:Hhit.
  - intros [= <- <-]. exists []. rewrite app_nil_r, (insert_id _ _ _ Hhit). auto.
  - destruct (readCsv E path) as [e0|raw] eqn:Hread; run; intros [= <- <-];
      exists [ReadCsv path]; split; auto; split; eauto.
Qed.

Lemma getEmbeddingConfig_unfold E table config w df w1 :
  getCsvData E (embeddingCsvPath config) w = (Ret df, w1) →
  getEmbeddingConfig E table config w
  = match List.filter (matchesTable table) df with
    | [] => (Throw (JS.newError ("No configuration found for table='" +:+ table +:+ "'")), w1)
    | [row] => (Ret (configOfRow row), w1)
    | _ :: _ :: _ =>
        (Throw (JS.newError ("Multiple configurations found for table='" +:+ table
                  +:+ "'. Please ensure each table has only one configuration row.")), w1)
    end.
Proof.
  intros Hdf. unfold getEmbeddingConfig. unfold mbind at 1. unfold M_bind at 1.
  rewrite Hdf. destruct (List.filter (matchesTable table) df) as [|row [|row' rest]];
    reflexivity.
Qed.

Lemma field_orNull row key : field row key = orNull (cell row key).
Proof.
  unfold field, cell, orNull. destruct (row !! key) as [[[|c s]|]|]; reflexivity.
Qed.

Lemma orNull_cast (raw : RawRecord) key :
  orNull (cell (cast <$> raw) key) = cell (cast <$> raw) key.
Proof. rewrite <- field_orNull. apply field_cast. Qed.

(** C6: on the configuration table [df] that [getCsvData] returns,
    [getEmbeddingConfig] succeeds exactly when one row is for the requested
    table. Then each of the seven fields of the result is the cell of that
    row in the column of the same meaning ([embeddingColumn] from
    [embedding_column], and so on), [null] for an absent or empty cell; on
    a table read from the file in this call the field is the cell as
    cached. With no row for the table, and with more than one, it throws. *)
Theorem embedding_config_needs_exactly_one_row E table config w df w1 :
  getCsvData E (embeddingCsvPath config) w = (Ret df, w1) →
  (matching table df = 1 →
   ∃ row cfg,
     row ∈ df ∧ row !! "table" = Some (Some table) ∧
     List.filter (matchesTable table) df = [row] ∧
     getEmbeddingConfig E table config w = (Ret cfg, w1) ∧
     embeddingColumn cfg = orNull (cell row "embedding_column") ∧
     embeddingProvider cfg = orNull (cell row "embedding_provider") ∧
     embeddingModel cfg = orNull (cell row "embedding_model") ∧
     sparseEmbeddingColumn cfg = orNull (cell row "sparse_embedding_column") ∧
     sparseIndexName cfg = orNull (cell row "sparse_index_name") ∧
     sparseTokenizerProvider cfg = orNull (cell row "sparse_tokenizer_provider") ∧
     sparseTokenizerModel cfg = orNull (cell row "sparse_tokenizer_model") ∧
     (csvCache w !! embeddingCsvPath config = None →
      ∀ key, orNull (cell row key) = cell row key))
  ∧ (matching table df = 0 →
     getEmbeddingConfig E table config w
     = (Throw (JS.newError ("No configuration found for table='" +:+ table +:+ "'")), w1))
  ∧ (1 < matching table df →
     getEmbeddingConfig E table config w
     = (Throw (JS.newError ("Multiple configurations found for table='" +:+ table
                 +:+ "'. Please ensure each table has only one configuration row.")), w1)).
Proof.
  intros Hdf. rewrite (getEmbeddingConfig_unfold _ table _ _ _ _ Hdf).
  unfold matching.
  destruct (List.filter (matchesTable table) df) as [|row [|row' rest]] eqn:Hrows;
    cbn [length]; (split; [|split]); intros Hcount; try lia; try reflexivity.
  exists row, (configOfRow row).
  assert (Hin : In row df ∧ matchesTable table row = true).
  { apply List.filter_In. rewrite Hrows. left. reflexivity. }
  destruct Hin as [Hin Hmatch].
  split; [apply list_elem_of_In, Hin|].
  split; [apply matchesTable_spec, Hmatch|].
  split; [reflexivity|]. split; [reflexivity|].
  unfold configOfRow. cbn [embeddingColumn embeddingProvider embeddingModel
    sparseEmbeddingColumn sparseIndexName sparseTokenizerProvider sparseTokenizerModel].
  repeat (split; [apply field_orNull|]).
  intros Hmiss key.
  apply getCsvData_effects in Hdf as (_ & _ & _ & [Hhit | (_ & raw & _ & ->)]);
    [congruence|].
  apply list_elem_of_In, list_elem_of_fmap in Hin as (rawrec & -> & _).
  apply orNull_cast.
Qed.

Lemma embedding_config_needs_exactly_one_row_witness :
  ∃ cfg w1,
    getEmbeddingConfig searchEnv "notes" cfg0 initialWorld = (Ret cfg, w1) ∧
    cfg = {| embeddingColumn := Some "emb"; embeddingProvider := Some "openai";
             embeddingModel := Some "text-embedding-3-small";
             sparseEmbeddingColumn := Some "sparse";
             sparseIndexName := Some "notes_bm25";
             sparseTokenizerProvider := None; sparseTokenizerModel := None |} ∧
    trace w1 = [ReadCsv "embeddings.csv"].
Proof.
  destruct (embedding_config_needs_exactly_one_row searchEnv "notes" cfg0 initialWorld
              (fmap (M := gmap string) cast <$> [docsRecord; notesRecord])
              (snd (getCsvData searchEnv "embeddings.csv" initialWorld)))
    as [Hone _]; [vm_compute; reflexivity|].
  destruct Hone as (row & cfg & _ & _ & _ & Hcfg & _); [vm_compute; reflexivity|].
  assert (Hval : fst (getEmbeddingConfig searchEnv "notes" cfg0 initialWorld) = Ret cfg)
    by (rewrite Hcfg; reflexivity).
  vm_compute in Hval. injection Hval as <-.
  eexists _, _. split; [exact Hcfg|]. split; [reflexivity | vm_compute; reflexivity].
Defined.

(** ** C7, C9: hybrid search without a usable configuration *)

Lemma getEmbeddingConfig_effects E table config w r w1 :
  getEmbeddingConfig E table config w = (r, w1) →
  ∃ evs, (evs = [] ∨ evs = [ReadCsv (embeddingCsvPath config)]) ∧
    trace w1 = trace w ++ evs ∧ conns w1 = conns w ∧
    cachedConnection w1 = cachedConnection w ∧ heap w1 = heap w ∧
    attempts w1 = attempts w ∧ calls w1 = calls w.
Proof.
  unfold getEmbeddingConfig. unfold mbind at 1. unfold M_bind at 1.
  destruct (getCsvData E (embeddingCsvPath config) w) as [[df|e] w0] eqn:Hdf;
    apply getCsvData_effects in Hdf as (evs & Hevs & -> & _); intros Hrun;
    exists evs; (split; [exact Hevs|]).
  - destruct (List.filter (matchesTable table) df) as [|row [|row' rest]];
      injection Hrun as <- <-; cbn; auto 10.
  - injection Hrun as <- <-. cbn. auto 10.
Qed.

(** C7: when the table's configuration resolves and has no sparse index
    name, hybrid search returns (it does not throw) the result
    [{status: error, message: "The requested table does not have sparse
    index", table}]; besides the configuration lookup, which at most reads
    the CSV file, its only effect is one info line in the log: no embedding
    provider is called, no connection is made and no remote call is
    issued. *)
Theorem hybrid_search_soft_fails_without_sparse_index
    E tableName queryText n config w cfg w1 :
  getEmbeddingConfig E tableName config w = (Ret cfg, w1) →
  truthy (sparseIndexName cfg) = false →
  kdbxHybridSearchImpl E tableName queryText n config w
  = (Ret {| s_status := error; s_table := Some tableName; s_recordsCount := None;
            s_records := None;
            s_message := Some "The requested table does not have sparse index" |},
     appendTrace w1 [Log LInfo ("Error performing hybrid search on table " +:+ tableName
                                +:+ ": Missing sparse index")])
  ∧ ∃ evs, (evs = [] ∨ evs = [ReadCsv (embeddingCsvPath config)]) ∧
      trace w1 = trace w ++ evs ∧ calls w1 = calls w ∧ attempts w1 = attempts w ∧
      conns w1 = conns w ∧ cachedConnection w1 = cachedConnection w.
Proof.
  intros Hcfg Hsparse. split.
  - unfold kdbxHybridSearchImpl, tryCatch. cbn zeta.
    unfold mbind at 1. unfold M_bind at 1. rewrite Hcfg, Hsparse. reflexivity.
  - apply getEmbeddingConfig_effects in Hcfg
      as (evs & Hevs & Htr & Hconns & Hcache & _ & Hatt & Hcalls).
    exists evs. auto 10.
Qed.

Lemma hybrid_search_soft_fails_without_sparse_index_witness :
  ∃ w',
    kdbxHybridSearchImpl searchEnv "docs" "kdb tick architecture" None cfg0 initialWorld
    = (Ret {| s_status := error; s_table := Some "docs"; s_recordsCount := None;
              s_records := None;
              s_message := Some "The requested table does not have sparse index" |}, w')
    ∧ trace w' = [ReadCsv "embeddings.csv";
                  Log LInfo "Error performing hybrid search on table docs: Missing sparse index"]
    ∧ calls w' = 0.
Proof.
  destruct (hybrid_search_soft_fails_without_sparse_index searchEnv "docs"
              "kdb tick architecture" None cfg0 initialWorld
              (configOfRow (cast <$> docsRecord))
              (snd (getEmbeddingConfig searchEnv "docs" cfg0 initialWorld)))
    as (Hrun & _); [vm_compute; reflexivity | vm_compute; reflexivity |].
  eexists. split; [exact Hrun|]. split; vm_compute; reflexivity.
Defined.

(** C9: when the configuration table has no row for the table, hybrid
    search does not reach the sparse-index check: the lookup throws, the
    [catch] block turns the error into the result [{status: error, table,
    message}] whose message is the text of the lookup error, "Error: No
    configuration found for table='...'"; besides the lookup, which at most
    reads the CSV file, the only effect is one error line in the log, so no
    embedding provider is called and no remote call is issued. *)
Theorem hybrid_search_on_unconfigured_table
    E tableName queryText n config w df w1 :
  getCsvData E (embeddingCsvPath config) w = (Ret df, w1) →
  matching tableName df = 0 →
  let text := "Error: No configuration found for table='" +:+ tableName +:+ "'" in
  kdbxHybridSearchImpl E tableName queryText n config w
  = (Ret {| s_status := error; s_table := Some tableName; s_recordsCount := None;
            s_records := None; s_message := Some text |},
     appendTrace w1 [Log LError ("Error performing search on table " +:+ tableName
                                 +:+ ": " +:+ text)])
  ∧ text ≠ "The requested table does not have sparse index"
  ∧ ∃ evs, (evs = [] ∨ evs = [ReadCsv (embeddingCsvPath config)]) ∧
      trace w1 = trace w ++ evs ∧ calls w1 = calls w ∧ attempts w1 = attempts w ∧
      conns w1 = conns w ∧ cachedConnection w1 = cachedConnection w.
Proof.
  intros Hdf Hcount. cbn zeta.
  pose proof (getEmbeddingConfig_unfold E tableName _ _ _ _ Hdf) as Hcfg.
  unfold matching in Hcount.
  destruct (List.filter (matchesTable tableName) df) as [|row rest]; [|discriminate].
  split; [|split].
  - unfold kdbxHybridSearchImpl, tryCatch. cbn zeta.
    unfold mbind at 1. unfold M_bind at 1. rewrite Hcfg. reflexivity.
  - discriminate.
  - apply getEmbeddingConfig_effects in Hcfg
      as (evs & Hevs & Htr & Hconns & Hcache & _ & Hatt & Hcalls).
    exists evs. auto 10.
Qed.

Lemma hybrid_search_on_unconfigured_table_witness :
  ∃ w',
    kdbxHybridSearchImpl searchEnv "trades" "kdb tick architecture" None cfg0 initialWorld
    = (Ret {| s_status := error; s_table := Some "trades"; s_recordsCount := None;
              s_records := None;
              s_message := Some "Error: No configuration found for table='trades'" |}, w')
    ∧ trace w' = [ReadCsv "embeddings.csv";
                  Log LError "Error performing search on table trades: Error: No configuration found for table='trades'"]
    ∧ calls w' = 0.
Proof.
  destruct (hybrid_search_on_unconfigured_table searchEnv "trades"
              "kdb tick architecture" None cfg0 initialWorld
              (fmap (M := gmap string) cast <$> [docsRecord; notesRecord])
              (snd (getCsvData searchEnv "embeddings.csv" initialWorld)))
    as (Hrun & _); [vm_compute; reflexivity | vm_compute; reflexivity |].
  eexists. split; [exact Hrun|]. split; vm_compute; reflexivity.
Defined.

(** ** C8, C10: stripping the vector columns *)

Lemma deleteProperty_absent key o :
  JS.hasOwn key o = false → JS.deleteProperty key o = o.
Proof.
  unfold JS.hasOwn, JS.deleteProperty. induction o as [|p o IH]; [reflexivity|].
  cbn. destruct (String.eqb (fst p) key); [discriminate|].
  cbn. intros H. rewrite (IH H). reflexivity.
Qed.

Lemma filter_filter_andb {A} (f g : A -> bool) (l : list A) :
  List.filter f (List.filter g l) = List.filter (fun x => g x && f x) l.
Proof.
  induction l as [|x l IH]; [reflexivity|]. cbn [List.filter].
  destruct (g x); cbn [andb List.filter]; [destruct (f x)|]; rewrite IH; reflexivity.
Qed.

Lemma dropped_filter column o :
  dropped column o = List.filter (fun p => negb (named column (fst p))) o.
Proof.
  unfold dropped, named. destruct column as [c|].
  - destruct (truthy (Some c)); [reflexivity|].
    cbn [andb negb]. induction o as [|p o IH]; [reflexivity|].
    cbn [List.filter]. rewrite <- IH. reflexivity.
  - cbn [negb]. induction o as [|p o IH]; [reflexivity|].
    cbn [List.filter]. rewrite <- IH. reflexivity.
Qed.

Lemma dropped_twice cfg o :
  dropped (sparseEmbeddingColumn cfg) (dropped (embeddingColumn cfg) o)
  = withoutVectorColumns cfg o.
Proof.
  rewrite !dropped_filter, filter_filter_andb. unfold withoutVectorColumns, isVectorColumn.
  apply List.filter_ext. intros p. rewrite negb_orb. reflexivity.
Qed.

Lemma withoutVectorColumns_idempotent cfg o :
  withoutVectorColumns cfg (withoutVectorColumns cfg o) = withoutVectorColumns cfg o.
Proof.
  unfold withoutVectorColumns. induction o as [|p o IH]; [reflexivity|].
  cbn [List.filter]. destruct (negb (isVectorColumn cfg (fst p))) eqn:Hp; [|exact IH].
  cbn [List.filter]. rewrite Hp, IH. reflexivity.
Qed.

Lemma rowAt_app h cells l o : rowAt h l = Some o → rowAt (h ++ cells) l = Some o.
Proof.
  unfold rowAt. destruct (h !! l) as [c|] eqn:Hl; [|discriminate].
  rewrite (lookup_app_l_Some _ _ _ _ Hl). trivial.
Qed.

Lemma rowAt_end h o : rowAt (h ++ [RowCell o]) (length h) = Some o.
Proof. unfold rowAt. rewrite list_lookup_middle; reflexivity. Qed.

Lemma insert_end (h : list Cell) c c' : <[length h := c']> (h ++ [c]) = h ++ [c'].
Proof.
  rewrite insert_app_r_alt by lia. rewrite Nat.sub_diag. reflexivity.
Qed.

Lemma dropColumn_end column what w h o :
  heap w = h ++ [RowCell o] →
  ∃ evs, dropColumn (length h) column what w
         = (Ret tt, withHeap w (h ++ [RowCell (dropped column o)]) evs).
Proof.
  intros Hh. unfold dropColumn, dropped, readRow, updateRow. run.
  destruct w as [cs cached csv hp t a n]; cbn in *. subst hp.
  destruct column as [c|]; [|exists []; unfold withHeap; cbn; rewrite app_nil_r; reflexivity].
  run. rewrite list_lookup_middle by reflexivity.
  destruct (truthy (Some c)); cbn [andb].
  - destruct (JS.hasProperty c o) eqn:Hin.
    + run. rewrite list_lookup_middle by reflexivity. run.
      rewrite insert_end. eexists. unfold withHeap. cbn. reflexivity.
    + exists []. unfold withHeap. cbn. rewrite app_nil_r, deleteProperty_absent; [reflexivity|].
      unfold JS.hasProperty in Hin. apply orb_false_iff in Hin as [Hown _]. exact Hown.
  - exists []. unfold withHeap. cbn. rewrite app_nil_r. reflexivity.
Qed.

(** One call of the arrow function: on a row object it allocates the copy
    without the vector columns at the next free address and touches nothing
    else; on any other address it throws before allocating. *)
Lemma stripRow_cases cfg row w :
  match rowAt (heap w) row with
  | Some o =>
      ∃ evs, stripRow cfg row w
             = (Ret (length (heap w)),
                withHeap w (heap w ++ [RowCell (withoutVectorColumns cfg o)]) evs)
  | None => ∃ e, stripRow cfg row w = (Throw e, w)
  end.
Proof.
  unfold rowAt. destruct (heap w !! row) as [[o|rows]|] eqn:Hrow;
    unfold stripRow, alloc; unfold readRow at 1; run; rewrite Hrow; run;
    try (eexists; reflexivity).
  set (w1 := {| conns := conns w; cachedConnection := cachedConnection w;
                csvCache := csvCache w; heap := heap w ++ [RowCell o];
                trace := trace w; attempts := attempts w; calls := calls w |}).
  destruct (dropColumn_end (embeddingColumn cfg) "embedding column" w1 (heap w) o eq_refl)
    as [evs1 ->].
  destruct (dropColumn_end (sparseEmbeddingColumn cfg) "sparse embedding column"
              (withHeap w1 (heap w ++ [RowCell (dropped (embeddingColumn cfg) o)]) evs1)
              (heap w) (dropped (embeddingColumn cfg) o) eq_refl)
    as [evs2 ->].
  exists (evs1 ++ evs2). unfold withHeap. cbn. rewrite dropped_twice, app_assoc. reflexivity.
Qed.

Lemma mapM_stripRow_table cfg rows : ∀ objs w,
  Forall2 (fun r o => rowAt (heap w) r = Some o) rows objs →
  ∃ evs, mapM (stripRow cfg) rows w
         = (Ret (seq (length (heap w)) (length rows)),
            withHeap w (heap w ++ (RowCell <$> (withoutVectorColumns cfg <$> objs))) evs).
Proof.
  induction rows as [|r rows IH]; intros objs w Hrows.
  - apply Forall2_nil_inv_l in Hrows as ->. exists []. cbn. unfold withHeap.
    rewrite !app_nil_r. destruct w; reflexivity.
  - apply Forall2_cons_inv_l in Hrows as (o & objs' & Hr & Hrows & ->).
    pose proof (stripRow_cases cfg r w) as Hstrip. rewrite Hr in Hstrip.
    destruct Hstrip as [evs1 Hstrip].
    set (w1 := withHeap w (heap w ++ [RowCell (withoutVectorColumns cfg o)]) evs1) in *.
    destruct (IH objs' w1) as [evs2 Hrest].
    { eapply Forall2_impl; [exact Hrows|]. intros r' o' Hr'. apply rowAt_app, Hr'. }
    exists (evs1 ++ evs2). cbn [mapM]. unfold mbind at 1. unfold M_bind at 1.
    rewrite Hstrip. unfold mbind at 1. unfold M_bind at 1. fold (mapM (stripRow cfg)).
    rewrite Hrest. unfold w1, withHeap. cbn.
    rewrite length_app, Nat.add_1_r, <- !app_assoc. reflexivity.
Qed.

Lemma mapM_stripRow_frame cfg rows : ∀ w r w',
  mapM (stripRow cfg) rows w = (r, w') →
  ∃ cells evs, w' = withHeap w (heap w ++ cells) evs.
Proof.
  induction rows as [|row rows IH]; intros w r w' Hrun.
  - injection Hrun as <- <-. exists [], []. unfold withHeap. rewrite !app_nil_r.
    destruct w; reflexivity.
  - cbn [mapM] in Hrun. unfold mbind at 1 in Hrun. unfold M_bind at 1 in Hrun.
    fold (mapM (stripRow cfg)) in Hrun.
    pose proof (stripRow_cases cfg row w) as Hstrip.
    destruct (rowAt (heap w) row) as [o|].
    + destruct Hstrip as [evs1 Hstrip]. rewrite Hstrip in Hrun.
      unfold mbind at 1 in Hrun. unfold M_bind at 1 in Hrun.
      destruct (mapM (stripRow cfg) rows _) as [[out|e] w2] eqn:Hrest;
        apply IH in Hrest as (cells & evs2 & ->); injection Hrun as <- <-;
        eexists (_ :: cells), (evs1 ++ evs2); unfold withHeap; cbn;
        rewrite <- !app_assoc; reflexivity.
    + destruct Hstrip as [e Hstrip]. rewrite Hstrip in Hrun. injection Hrun as <- <-.
      exists [], []. unfold withHeap. rewrite !app_nil_r. destruct w; reflexivity.
Qed.

Lemma removeVectorColumns_unfold E data tableName config w :
  removeVectorColumns E data tableName config w
  = let fallback (e : Error) :=
      logger LDebug ("Could not get embedding config for table " +:+ tableName
                     +:+ ": " +:+ JS.toString e);; mret data in
    match getEmbeddingConfig E tableName config w with
    | (Throw e, wa) => fallback e wa
    | (Ret cfg, wa) =>
        match heap wa !! data with
        | Some (ArrCell rows) =>
            match mapM (stripRow cfg) rows wa with
            | (Ret out, wb) => alloc (ArrCell out) wb
            | (Throw e, wb) => fallback e wb
            end
        | _ => fallback (JS.mkError "TypeError" "data.map is not a function") wa
        end
    end.
Proof.
  unfold removeVectorColumns, tryCatch. cbn zeta.
  unfold mbind at 1. unfold M_bind at 1.
  destruct (getEmbeddingConfig E tableName config w) as [[cfg|e] wa]; [|reflexivity].
  unfold mbind at 1. unfold M_bind at 1. unfold readArray at 1. run.
  destruct (heap wa !! data) as [[o|rows]|]; try reflexivity.
  destruct (mapM (stripRow cfg) rows wa) as [[out|e] wb]; reflexivity.
Qed.

Lemma tableAt_app h cells l objs :
  tableAt h l = Some objs → tableAt (h ++ cells) l = Some objs.
Proof.
  unfold tableAt. destruct (h !! l) as [[o|rows]|] eqn:Hl; try discriminate.
  rewrite (lookup_app_l_Some _ _ _ _ Hl). rewrite !mapM_Some.
  intros Hrows. eapply Forall2_impl; [exact Hrows|].
  intros r o Hr. apply rowAt_app, Hr.
Qed.

Lemma rows_fresh objs : ∀ pre post,
  mapM (rowAt (pre ++ (RowCell <$> objs) ++ post)) (seq (length pre) (length objs))
  = Some objs.
Proof.
  induction objs as [|o objs IH]; intros pre post; [reflexivity|].
  change ((RowCell <$> (o :: objs)) ++ post)
    with (RowCell o :: ((RowCell <$> objs) ++ post)).
  apply mapM_Some. cbn [length seq]. constructor.
  - unfold rowAt. rewrite list_lookup_middle; reflexivity.
  - apply mapM_Some. specialize (IH (pre ++ [RowCell o]) post).
    rewrite length_app, Nat.add_1_r, <- app_assoc in IH. exact IH.
Qed.

Lemma tableAt_fresh h objs :
  tableAt (h ++ (RowCell <$> objs) ++ [ArrCell (seq (length h) (length objs))])
          (length h + length objs) = Some objs.
Proof.
  unfold tableAt. rewrite app_assoc.
  rewrite list_lookup_middle by (rewrite length_app, length_fmap; reflexivity).
  rewrite <- app_assoc. apply rows_fresh.
Qed.

(** A second lookup, in a process with the cache the first one left, has
    the outcome of the first. *)
Lemma getEmbeddingConfig_again E table config w r wa :
  getEmbeddingConfig E table config w = (r, wa) →
  ∀ w2, csvCache w2 = csvCache wa →
  ∃ evs, getEmbeddingConfig E table config w2 = (r, withHeap w2 (heap w2) evs).
Proof.
  unfold getEmbeddingConfig. unfold mbind at 1. unfold M_bind at 1.
  destruct (getCsvData E (embeddingCsvPath config) w) as [[df|e] w0] eqn:Hdf;
    pose proof (getCsvData_effects _ _ _ _ _ Hdf) as (evs & _ & Hw0 & Hcase);
    intros Hrun w2 Hcache.
  - assert (Hhit : csvCache w2 !! embeddingCsvPath config = Some df).
    { rewrite Hcache.
      assert (csvCache wa = csvCache w0) as ->.
      { destruct (List.filter (matchesTable table) df) as [|row [|row' rest]];
          injection Hrun as _ <-; reflexivity. }
      rewrite Hw0. cbn. apply lookup_insert_eq. }
    exists []. unfold mbind at 1. unfold M_bind at 1.
    unfold getCsvData. run. rewrite Hhit.
    assert (withHeap w2 (heap w2) [] = w2) as ->.
    { unfold withHeap. rewrite app_nil_r. destruct w2; reflexivity. }
    destruct (List.filter (matchesTable table) df) as [|row [|row' rest]];
      injection Hrun as <- _; reflexivity.
  - injection Hrun as <- <-. destruct Hcase as (Hmiss & e0 & Hread & ->).
    exists [ReadCsv (embeddingCsvPath config)].
    unfold mbind at 1. unfold M_bind at 1. unfold getCsvData. run.
    rewrite Hcache, Hw0. cbn. rewrite Hmiss, Hread. reflexivity.
Qed.

Lemma removeVectorColumns_resolved E data tableName config w cfg wa objs :
  getEmbeddingConfig E tableName config w = (Ret cfg, wa) →
  tableAt (heap w) data = Some objs →
  ∃ evs,
    removeVectorColumns E data tableName config w
    = (Ret (length (heap w) + length objs),
       withHeap wa (heap w ++ (RowCell <$> (withoutVectorColumns cfg <$> objs))
                           ++ [ArrCell (seq (length (heap w)) (length objs))]) evs).
Proof.
  intros Hcfg Htable. rewrite removeVectorColumns_unfold, Hcfg. cbn zeta.
  apply getEmbeddingConfig_effects in Hcfg as (_ & _ & _ & _ & _ & Hheap & _).
  rewrite Hheap. unfold tableAt in Htable.
  destruct (heap w !! data) as [[o|rows]|]; try discriminate.
  apply mapM_Some in Htable. rewrite <- Hheap in Htable.
  destruct (mapM_stripRow_table cfg rows objs wa Htable) as [evs ->].
  exists evs. unfold alloc, withHeap. run.
  rewrite Hheap, <- app_assoc, length_app, !length_fmap.
  rewrite (Forall2_length _ _ _ Htable). reflexivity.
Qed.

(** C8: on a table, stripping the vector columns a second time, from the
    output of the first, gives a table with the same rows as the first
    output (and leaves the first output as it was). *)
Theorem removeVectorColumns_idempotent E data tableName config w :
  isTable (heap w) data →
  ∃ out1 w1 out2 w2,
    removeVectorColumns E data tableName config w = (Ret out1, w1) ∧
    removeVectorColumns E out1 tableName config w1 = (Ret out2, w2) ∧
    isTable (heap w1) out1 ∧
    tableAt (heap w2) out2 = tableAt (heap w1) out1 ∧
    tableAt (heap w2) out1 = tableAt (heap w1) out1.
Proof.
  intros [objs Hobjs].
  destruct (getEmbeddingConfig E tableName config w) as [[cfg|e] wa] eqn:Hcfg.
  - destruct (removeVectorColumns_resolved _ _ _ _ _ _ _ _ Hcfg Hobjs) as [evs1 Hrun1].
    set (objs1 := withoutVectorColumns cfg <$> objs) in *.
    set (w1 := withHeap wa _ evs1) in Hrun1.
    assert (Hout1 : tableAt (heap w1) (length (heap w) + length objs) = Some objs1).
    { unfold w1, withHeap. cbn [heap].
      replace (length objs) with (length objs1) by apply length_fmap.
      apply tableAt_fresh. }
    destruct (getEmbeddingConfig_again _ _ _ _ _ _ Hcfg w1 eq_refl) as [evs Hcfg1].
    destruct (removeVectorColumns_resolved _ _ _ _ _ _ _ _ Hcfg1 Hout1) as [evs2 Hrun2].
    set (w2 := withHeap (withHeap w1 (heap w1) evs) _ evs2) in Hrun2.
    exists (length (heap w) + length objs), w1, (length (heap w1) + length objs1), w2.
    split; [exact Hrun1|]. split; [exact Hrun2|].
    split; [exists objs1; exact Hout1|].
    rewrite Hout1. unfold w2, withHeap. cbn [heap]. split.
    + replace (length objs1) with (length (withoutVectorColumns cfg <$> objs1))
        by apply length_fmap.
      rewrite tableAt_fresh. f_equal. unfold objs1.
      rewrite <- list_fmap_compose. apply list_fmap_ext.
      intros i o _. apply withoutVectorColumns_idempotent.
    + apply tableAt_app, Hout1.
  - assert (Hfall : ∀ w0 wb, getEmbeddingConfig E tableName config w0 = (Throw e, wb) →
              ∃ w', removeVectorColumns E data tableName config w0 = (Ret data, w')
                    ∧ heap w' = heap w0 ∧ csvCache w' = csvCache wb).
    { intros w0 wb H0. rewrite removeVectorColumns_unfold, H0. cbn zeta. run.
      eexists. split; [reflexivity|]. cbn.
      apply getEmbeddingConfig_effects in H0 as (_ & _ & _ & _ & _ & Hh & _). auto. }
    destruct (Hfall _ _ Hcfg) as (w1 & Hrun1 & Hheap1 & Hcache1).
    destruct (getEmbeddingConfig_again _ _ _ _ _ _ Hcfg w1 Hcache1) as [evs Hcfg1].
    destruct (Hfall _ _ Hcfg1) as (w2 & Hrun2 & Hheap2 & _).
    exists data, w1, data, w2. split; [exact Hrun1|]. split; [exact Hrun2|].
    rewrite Hheap2, Hheap1. split; [exists objs; exact Hobjs|]. split; reflexivity.
Qed.

Lemma removeVectorColumns_idempotent_witness :
  ∃ out1 w1 out2 w2,
    removeVectorColumns searchEnv 1 "notes" cfg0 tableWorld = (Ret out1, w1) ∧
    removeVectorColumns searchEnv out1 "notes" cfg0 w1 = (Ret out2, w2) ∧
    isTable (heap w1) out1 ∧
    tableAt (heap w2) out2 = tableAt (heap w1) out1 ∧
    tableAt (heap w2) out1 = tableAt (heap w1) out1.
Proof.
  apply (removeVectorColumns_idempotent searchEnv 1 "notes" cfg0 tableWorld).
  exists [[("id", JS.VNum 7); ("emb", JS.VVector [1; 2]%Z);
           ("text", JS.VStr "hello"); ("sparse", JS.VNull)]].
  reflexivity.
Defined.

(** C10 (as claimed) fails where the configuration lookup fails: for the
    unconfigured table [trades] the function returns the array it was given,
    whose row is the caller's row object, not a copy. *)
Lemma removeVectorColumns_fallback_returns_input :
  ∃ w' rows,
    removeVectorColumns searchEnv 1 "trades" cfg0 tableWorld = (Ret 1, w') ∧
    heap w' !! 1 = Some (ArrCell rows) ∧
    ¬ Forall (fun r => length (heap tableWorld) ≤ r) rows ∧
    heap tableWorld !! 1 = Some (ArrCell rows).
Proof.
  eexists _, [0]. split; [vm_compute; reflexivity|].
  split; [reflexivity|]. split; [|reflexivity].
  intros H. apply Forall_cons in H as [H _]. cbn in H. lia.
Qed.

Lemma removeVectorColumns_returns E data tableName config w :
  ∃ out w' cells,
    removeVectorColumns E data tableName config w = (Ret out, w') ∧
    heap w' = heap w ++ cells.
Proof.
  rewrite removeVectorColumns_unfold. cbn zeta.
  destruct (getEmbeddingConfig E tableName config w) as [[cfg|e] wa] eqn:Hcfg;
    apply getEmbeddingConfig_effects in Hcfg as (_ & _ & _ & _ & _ & Hheap & _).
  - destruct (heap wa !! data) as [[o|rows]|] eqn:Hdata;
      try (run; eexists _, _, []; split; [reflexivity|];
           cbn; rewrite app_nil_r; exact Hheap).
    destruct (mapM (stripRow cfg) rows wa) as [[refs|e] wb] eqn:Hmap;
      apply mapM_stripRow_frame in Hmap as (cells & evs & ->).
    + exists (length (heap wa ++ cells)). unfold alloc, withHeap. run.
      eexists _, (cells ++ [ArrCell refs]). split; [reflexivity|].
      cbn. rewrite Hheap, <- app_assoc. reflexivity.
    + run. eexists _, _, cells. split; [reflexivity|]. cbn. rewrite Hheap. reflexivity.
  - run. eexists _, _, []. split; [reflexivity|]. cbn. rewrite app_nil_r. exact Hheap.
Qed.

(** C10 (as the code has it): [removeVectorColumns] always returns, and
    never changes an object that existed before the call: the heap after it
    is the heap before it followed by the objects the call created, so the
    input rows keep all their columns. When the table's configuration
    resolves (and [data] is a table) the output is a new array of new row
    objects, pairwise distinct, and each output row is the input row of the
    same position without the configured vector columns: the other columns
    keep their values and their order. When the lookup throws, the output is
    the input array itself and nothing is created. *)
Theorem removeVectorColumns_frame E data tableName config w :
  ∃ out w' cells,
    removeVectorColumns E data tableName config w = (Ret out, w') ∧
    heap w' = heap w ++ cells ∧
    (∀ cfg wa objs,
       getEmbeddingConfig E tableName config w = (Ret cfg, wa) →
       tableAt (heap w) data = Some objs →
       ∃ rows,
         heap w' !! out = Some (ArrCell rows) ∧
         length (heap w) ≤ out ∧
         Forall (fun r => length (heap w) ≤ r) rows ∧ NoDup rows ∧
         tableAt (heap w') out = Some (withoutVectorColumns cfg <$> objs)) ∧
    (∀ e wa,
       getEmbeddingConfig E tableName config w = (Throw e, wa) →
       out = data ∧ cells = []).
Proof.
  destruct (removeVectorColumns_returns E data tableName config w)
    as (out & w' & cells & Hrun & Hheap).
  exists out, w', cells. split; [exact Hrun|]. split; [exact Hheap|]. split.
  - intros cfg wa objs Hcfg Htable.
    destruct (removeVectorColumns_resolved _ _ _ _ _ _ _ _ Hcfg Htable) as [evs Hres].
    rewrite Hres in Hrun. injection Hrun as <- <-.
    exists (seq (length (heap w)) (length objs)). unfold withHeap. cbn [heap].
    split.
    { rewrite app_assoc.
      rewrite list_lookup_middle by (rewrite length_app, !length_fmap; reflexivity).
      reflexivity. }
    split; [lia|]. split; [apply Forall_seq; intros; lia|].
    split; [apply NoDup_seq|].
    replace (length objs) with (length (withoutVectorColumns cfg <$> objs))
      by apply length_fmap.
    apply tableAt_fresh.
  - intros e wa Hcfg. rewrite removeVectorColumns_unfold, Hcfg in Hrun.
    cbn zeta in Hrun. run. injection Hrun as <- <-. split; [reflexivity|].
    apply getEmbeddingConfig_effects in Hcfg as (_ & _ & _ & _ & _ & Hwa & _).
    cbn in Hheap. rewrite Hwa in Hheap.
    apply (app_inv_head (heap w)). rewrite app_nil_r. symmetry. exact Hheap.
Qed.

Lemma removeVectorColumns_frame_witness :
  ∃ out w' cells rows,
    removeVectorColumns searchEnv 1 "notes" cfg0 tableWorld = (Ret out, w') ∧
    heap w' = heap tableWorld ++ cells ∧
    heap w' !! out = Some (ArrCell rows) ∧
    Forall (fun r => 2 ≤ r) rows ∧
    tableAt (heap w') out = Some [[("id", JS.VNum 7); ("text", JS.VStr "hello")]].
Proof.
  destruct (removeVectorColumns_frame searchEnv 1 "notes" cfg0 tableWorld)
    as (out & w' & cells & Hrun & Hheap & Hfresh & _).
  destruct (Hfresh (configOfRow (cast <$> notesRecord))
              (snd (getEmbeddingConfig searchEnv "notes" cfg0 tableWorld))
              [[("id", JS.VNum 7); ("emb", JS.VVector [1; 2]%Z);
                ("text", JS.VStr "hello"); ("sparse", JS.VNull)]])
    as (rows & Hout & _ & Hrows & _ & Htable);
    [vm_compute; reflexivity | reflexivity |].
  exists out, w', cells, rows. repeat split; assumption.
Defined.

(** ** Relations kept along a computation *)

Section Keeps.
Context (R : World -> World -> Prop) `{!PreOrder R}.

Lemma keeps_ret {A} (a : A) : keeps R (mret a).
Proof. intros w r w' [= <- <-]. reflexivity. Qed.

Lemma keeps_throw {A} e : keeps R (throw (A := A) e).
Proof. intros w r w' [= <- <-]. reflexivity. Qed.

Lemma keeps_gets {A} (f : World -> A) : keeps R (gets f).
Proof. intros w r w' [= <- <-]. reflexivity. Qed.

Lemma keeps_bind {A B} (m : M A) (k : A -> M B) :
  keeps R m → (∀ a, keeps R (k a)) → keeps R (m ≫= k).
Proof.
  intros Hm Hk w r w'. unfold mbind, M_bind.
  destruct (m w) as [[a|e] w1] eqn:Hrun.
  - intros Hrest. etransitivity; [exact (Hm _ _ _ Hrun) | exact (Hk _ _ _ _ Hrest)].
  - intros [= <- <-]. exact (Hm _ _ _ Hrun).
Qed.

Lemma keeps_tryCatch {A} (body : M A) (handler : Error -> M A) :
  keeps R body → (∀ e, keeps R (handler e)) → keeps R (tryCatch body handler).
Proof.
  intros Hb Hh w r w'. unfold tryCatch.
  destruct (body w) as [[a|e] w1] eqn:Hrun.
  - intros [= <- <-]. exact (Hb _ _ _ Hrun).
  - intros Hrest. etransitivity; [exact (Hb _ _ _ Hrun) | exact (Hh _ _ _ _ Hrest)].
Qed.

Lemma keeps_mapM {A B} (f : A -> M B) (l : list A) :
  (∀ x, keeps R (f x)) → keeps R (mapM f l).
Proof.
  intros Hf. induction l as [|x l IH]; [apply keeps_ret|].
  change (mapM f (x :: l)) with (y ← f x; ys ← mapM f l; mret (y :: ys)).
  apply keeps_bind; [apply Hf|]. intros y.
  apply keeps_bind; [exact IH|]. intros ys. apply keeps_ret.
Qed.

End Keeps.

#[local] Instance emits_preorder P : PreOrder (emits P).
Proof.
  split.
  - intros w. exists []. rewrite app_nil_r. auto.
  - intros w1 w2 w3 (evs1 & H1 & P1) (evs2 & H2 & P2). exists (evs1 ++ evs2).
    rewrite H2, H1, <- app_assoc, forallb_app, P1, P2. auto.
Qed.

#[local] Instance sameCache_preorder : PreOrder sameCache.
Proof.
  split; [intros w; reflexivity|].
  intros w1 w2 w3 H1 H2. unfold sameCache in *. congruence.
Qed.

Lemma emits_weaken (P Q : Event -> bool) {A} (m : M A) :
  (∀ ev, P ev = true → Q ev = true) → keeps (emits P) m → keeps (emits Q) m.
Proof.
  intros HPQ Hm w r w' Hrun. destruct (Hm _ _ _ Hrun) as (evs & Htr & HP).
  exists evs. split; [exact Htr|]. rewrite forallb_forall in *. auto.
Qed.

Lemma emits_emit P ev : P ev = true → keeps (emits P) (emit ev).
Proof.
  intros HP w r w' [= <- <-]. exists [ev]. cbn. rewrite HP. auto.
Qed.

Lemma emits_silent P {A} (m : M A) :
  (∀ w r w', m w = (r, w') → trace w' = trace w) → keeps (emits P) m.
Proof.
  intros Hm w r w' Hrun. exists []. rewrite app_nil_r. split; [eauto|reflexivity].
Qed.

Lemma emits_logger P lvl msg : P (Log lvl msg) = true → keeps (emits P) (logger lvl msg).
Proof. apply emits_emit. Qed.

(** One step of a proof that a sequence keeps a relation. *)
Ltac kbind := simple eapply keeps_bind; [typeclasses eauto | | intros ?].
Ltac ktry := simple eapply keeps_tryCatch; [typeclasses eauto | | intros ?].
Ltac kret :=
  first [ simple eapply keeps_throw; typeclasses eauto
        | simple eapply keeps_gets; typeclasses eauto
        | simple eapply keeps_ret; typeclasses eauto ].
Ltac ksilent := simple apply emits_silent; run; intros ? ? ? [= <- <-]; reflexivity.
Ltac kemit := first [simple apply emits_emit | simple apply emits_logger]; reflexivity.

(** ** The connection: reuse, and what an acquisition emits *)

(** X1: a cached connection that reports connected is returned as it is: the
    process state is unchanged (no log line, no new object, no attempt). *)
Theorem cached_connection_reused E config w c :
  cachedConnection w = Some c →
  conns w !! c = Some true →
  getKDBConnection E config w = (Ret c, w).
Proof.
  intros Hc Hlive. unfold getKDBConnection. run. rewrite Hc. run. rewrite Hlive.
  reflexivity.
Qed.

Lemma cached_connection_reused_witness :
  getKDBConnection downEnv cfg0 connectedWorld = (Ret 0, connectedWorld).
Proof.
  apply (cached_connection_reused downEnv cfg0 connectedWorld 0); reflexivity.
Defined.

Lemma connectLoop_emits E config conn todo : ∀ lastError,
  keeps (emits isConnectEvent) (connectLoop E config conn todo lastError).
Proof.
  induction todo as [|attempt rest IH]; intros lastError; cbn [connectLoop].
  - kbind; [kemit | ]. kret.
  - kbind; [kemit|]. kbind; [unfold tickAttempts; ksilent|].
    destruct (connectStep E a0) as [| |e].
    + kbind; [kret|]. kbind; [unfold setCachedConnection; ksilent|].
      kbind; [kemit | kret].
    + kbind; [unfold connect; ksilent|]. kbind; [unfold setCachedConnection; ksilent|].
      kbind; [kemit | kret].
    + kbind; [unfold setCachedConnection; ksilent|].
      kbind; [kemit|]. kbind; [|apply IH].
      destruct (attempt <? retry config + 1); [kemit | kret].
Qed.

Lemma getKDBConnection_emits E config :
  keeps (emits isConnectEvent) (getKDBConnection E config).
Proof.
  unfold getKDBConnection. kbind; [kret|]. kbind.
  { destruct a; [unfold isConnected; ksilent | kret]. }
  assert (Hfresh : keeps (emits isConnectEvent)
            (logger LInfo ("Connecting to KDB at " +:+ host config +:+ ":"
                           +:+ pretty (port config));;
             conn ← newConnection;
             connectLoop E config conn (seq 1 (retry config + 1)) None)).
  { kbind; [kemit|]. kbind; [unfold newConnection; ksilent | apply connectLoop_emits]. }
  destruct a as [c|], a0; try exact Hfresh. kret.
Qed.

(** ** runQueryImpl: failures, the empty reply and the source's own connection *)

(** X3: when the reply reports no rows ([rowCount] is 0 or absent, or the
    reply is an array, which has no [rowCount]), the result is [{status:
    success, data: [], message: "No rows returned"}]: rows the reply may
    carry in [data] are dropped, and nothing is logged. *)
Theorem zero_row_count_gives_empty_result
    E sqlSelectQuery config w conn w1 result w2 :
  JS.startsWith (trim E (toUpperCase E sqlSelectQuery)) "SELECT" = true →
  getKDBConnection E config w = (Ret conn, w1) →
  query E conn sqlWrapper w1 = (Ret result, w2) →
  match result with
  | RNull => False
  | RTable _ => True
  | RQuery rowCount _ => rowCount = None ∨ rowCount = Some 0%Z
  end →
  runQueryImpl E sqlSelectQuery config w
  = (Ret {| status := success; data := Some []; message := Some "No rows returned";
            error_type := None; technical_details := None |}, w2).
Proof.
  intros Hsel Hconn Hq Hzero.
  unfold runQueryImpl, tryCatch. unfold mbind at 1. unfold M_bind at 1.
  rewrite (safetyGate_pass _ _ w Hsel). unfold executeQuery.
  unfold mbind at 1. unfold M_bind at 1. rewrite Hconn.
  unfold mbind at 1. unfold M_bind at 1. rewrite Hq.
  destruct result as [|rows|rc rows]; [contradiction|reflexivity|].
  destruct Hzero as [-> | ->]; reflexivity.
Qed.

(** X4: a failure of the remote call is classified by the text of its
    message: if the message contains ".s.e" the result is the
    [sql_interface_not_loaded] error, with the remediation message and the
    text of the error as technical details; otherwise it is the plain
    [error] whose message is the text of the error. *)
Theorem remote_failure_classified E sqlSelectQuery config w conn w1 e w2 :
  JS.startsWith (trim E (toUpperCase E sqlSelectQuery)) "SELECT" = true →
  getKDBConnection E config w = (Ret conn, w1) →
  query E conn sqlWrapper w1 = (Throw e, w2) →
  ∃ res evs,
    runQueryImpl E sqlSelectQuery config w = (Ret res, appendTrace w2 evs) ∧
    forallb isLog evs = true ∧
    res = if JS.includes (JS.message e) ".s.e"
          then {| status := error; data := None;
                  message := Some "It looks like the SQL interface is not loaded in the KDB-X database. Please initialize it by running `.s.init[]` in your KDB-X session, or contact your system administrator.";
                  error_type := Some "sql_interface_not_loaded";
                  technical_details := Some (JS.toString e) |}
          else {| status := error; data := None; message := Some (JS.toString e);
                  error_type := None; technical_details := None |}.
Proof.
  intros Hsel Hconn Hq.
  unfold runQueryImpl, tryCatch. unfold mbind at 1. unfold M_bind at 1.
  rewrite (safetyGate_pass _ _ w Hsel). unfold executeQuery.
  unfold mbind at 1. unfold M_bind at 1. rewrite Hconn.
  unfold mbind at 1. unfold M_bind at 1. rewrite Hq.
  unfold queryFailed. run.
  destruct (JS.includes (JS.message e) ".s.e") eqn:Hinc.
  - assert (JS.isEmpty (JS.message e) = false) as ->.
    { destruct (JS.message e); [discriminate Hinc | reflexivity]. }
    cbn [negb andb]. run. rewrite <- app_assoc. eexists _, _. split; [reflexivity|]. auto.
  - rewrite andb_false_r. eexists _, _. split; [reflexivity|]. auto.
Qed.

Lemma remote_failure_classified_witness :
  ∃ res evs,
    runQueryImpl downEnv "select * from trades" cfg0 connectedWorld
    = (Ret res, appendTrace
                  (snd (query downEnv 0 sqlWrapper connectedWorld)) evs) ∧
    forallb isLog evs = true ∧
    res = {| status := error; data := None; message := Some "Error: unreachable";
             error_type := None; technical_details := None |}.
Proof.
  apply (remote_failure_classified downEnv "select * from trades" cfg0 connectedWorld
           0 connectedWorld (JS.newError "unreachable")); reflexivity.
Defined.

Lemma zero_row_count_gives_empty_result_witness :
  runQueryImpl flakyEnv "select * from trades" cfg0 connectedWorld
  = (Ret {| status := success; data := Some []; message := Some "No rows returned";
            error_type := None; technical_details := None |},
     snd (query flakyEnv 0 sqlWrapper connectedWorld)).
Proof.
  apply (zero_row_count_gives_empty_result flakyEnv "select * from trades" cfg0
           connectedWorld 0 connectedWorld (RTable []));
    [reflexivity | reflexivity | reflexivity | exact I].
Defined.

Lemma placeholder_query_throws upper trimmed files conn q w :
  ∃ e w', query (placeholderEnv upper trimmed files) conn q w = (Throw e, w').
Proof.
  unfold query. run. destruct (default false (conns w !! conn)); cbn; eauto.
Qed.

(** X5: with the connection class of the source (no connect call, a [query]
    method that always throws), [runQueryImpl] returns status [error] for
    every query, configuration and process state: it never returns data. *)
Theorem placeholder_connection_never_succeeds upper trimmed files sqlSelectQuery config w :
  ∃ res w',
    runQueryImpl (placeholderEnv upper trimmed files) sqlSelectQuery config w = (Ret res, w') ∧
    status res = error ∧ data res = None.
Proof.
  unfold runQueryImpl, tryCatch. cbn zeta.
  destruct ((safetyGate _ dangerousKeywords;; executeQuery _ config) w)
    as [[a|e] w1] eqn:Hb.
  - exfalso. revert Hb. unfold mbind at 1. unfold M_bind at 1.
    destruct (safetyGate _ dangerousKeywords w) as [[[]|e] w0]; [|discriminate].
    unfold executeQuery. unfold mbind at 1. unfold M_bind at 1.
    destruct (getKDBConnection (placeholderEnv upper trimmed files) config w0) as [[conn|e] w2];
      [|discriminate].
    unfold mbind at 1. unfold M_bind at 1.
    destruct (placeholder_query_throws upper trimmed files conn sqlWrapper w2) as (e & w3 & ->).
    discriminate.
  - unfold queryFailed. run.
    destruct (negb (JS.isEmpty (JS.message e)) && JS.includes (JS.message e) ".s.e");
      run; eexists _, _; (split; [reflexivity|]); cbn; auto.
Qed.

Lemma getKDBConnection_exhausted E config w :
  noLiveCache w →
  (∀ i, i < retry config + 1 → refusedAt E (attempts w + i)) →
  ∃ e w',
    getKDBConnection E config w = (Throw e, w') ∧
    connectStep E (attempts w + retry config) = Refused e ∧
    attempts w' = attempts w + (retry config + 1) ∧
    calls w' = calls w.
Proof.
  intros Hcache Hall.
  destruct (getKDBConnection E config w) as [r w'] eqn:Hrun.
  rewrite (getKDBConnection_fresh _ _ _ Hcache) in Hrun.
  apply connectLoop_spec in Hrun
    as (n & evs & Hn & Hatt & _ & _ & _ & _ & Hcalls & _ & _ & Hr); [|lia].
  cbn in Hatt, Hcalls, Hr. destruct r as [c|e].
  - destruct Hr as (_ & H1 & _ & Hnot & _). exfalso. apply Hnot, Hall. lia.
  - destruct Hr as (-> & _ & _ & _ & He).
    replace (retry config + 1) with (S (retry config)) in He by lia.
    exists e, w'. auto.
Qed.

(** X6: when no connection can be made (no live cached connection and every
    one of the [retry + 1] attempts refused), [runQueryImpl] on a SELECT
    query returns status [error] carrying the text of the last attempt's
    error, after exactly [retry + 1] connect attempts; everything it emits
    is a log line, a connect attempt or a sleep, so no remote call is
    issued. *)
Theorem query_reports_connection_failure E sqlSelectQuery config w :
  JS.startsWith (trim E (toUpperCase E sqlSelectQuery)) "SELECT" = true →
  noLiveCache w →
  (∀ i, i < retry config + 1 → refusedAt E (attempts w + i)) →
  ∃ e res w',
    connectStep E (attempts w + retry config) = Refused e ∧
    runQueryImpl E sqlSelectQuery config w = (Ret res, w') ∧
    status res = error ∧
    (message res = Some (JS.toString e) ∨ technical_details res = Some (JS.toString e)) ∧
    attempts w' = attempts w + (retry config + 1) ∧ calls w' = calls w ∧
    emits isConnectEvent w w'.
Proof.
  intros Hsel Hcache Hall.
  destruct (getKDBConnection_exhausted E config w Hcache Hall)
    as (e & w1 & Hconn & He & Hatt & Hcalls).
  pose proof (getKDBConnection_emits E config _ _ _ Hconn) as Hemit.
  exists e. unfold runQueryImpl, tryCatch. unfold mbind at 1. unfold M_bind at 1.
  rewrite (safetyGate_pass _ _ w Hsel). unfold executeQuery.
  unfold mbind at 1. unfold M_bind at 1. rewrite Hconn.
  unfold queryFailed. run.
  destruct (negb (JS.isEmpty (JS.message e)) && JS.includes (JS.message e) ".s.e");
    run; eexists _, _; (split; [exact He|]); (split; [reflexivity|]); cbn;
    (split; [reflexivity|]); (split; [auto|]); (split; [exact Hatt|]);
    (split; [exact Hcalls|]);
    (etransitivity; [exact Hemit|]); eexists; cbn; rewrite <- ?app_assoc;
    (split; [reflexivity|]); reflexivity.
Qed.

Lemma query_reports_connection_failure_witness :
  ∃ e res w',
    connectStep downEnv (0 + 2) = Refused e ∧
    runQueryImpl downEnv "select * from trades" cfg0 initialWorld = (Ret res, w') ∧
    status res = error ∧
    (message res = Some (JS.toString e) ∨ technical_details res = Some (JS.toString e)) ∧
    attempts w' = 0 + (2 + 1) ∧ calls w' = 0 ∧
    emits isConnectEvent initialWorld w'.
Proof.
  apply (query_reports_connection_failure downEnv "select * from trades" cfg0
           initialWorld);
    [reflexivity | exact I | intros i _; exists (JS.newError "ECONNREFUSED"); reflexivity].
Defined.

(** X7: a handle obtained from [getKDBConnection] is the cached object
    itself, so [cleanupKDBConnection] closes it under its holder: a [query]
    on the handle after the cleanup throws "Not connected to KDB-X" without
    reaching the database. *)
Theorem handle_closed_by_cleanup E config w conn w1 q :
  getKDBConnection E config w = (Ret conn, w1) →
  let w2 := snd (cleanupKDBConnection w1) in
  cachedConnection w1 = Some conn ∧
  query E conn q w2
  = (Throw (JS.newError "Not connected to KDB-X"), appendTrace w2 [RemoteCall conn q]).
Proof.
  intros Hconn. cbn zeta.
  assert (Hcached : cachedConnection w1 = Some conn ∧ conn < length (conns w1)).
  { revert Hconn. unfold getKDBConnection. run.
    destruct (cachedConnection w) as [c|] eqn:Hc; run.
    - destruct (conns w !! c) as [b|] eqn:Hb; cbn [default from_option id].
      + destruct b.
        * intros [= <- <-]. split; [exact Hc|]. apply lookup_lt_Some in Hb. exact Hb.
        * intros Hloop. apply connectLoop_spec in Hloop
            as (n & evs & _ & _ & _ & _ & _ & _ & _ & Hlen & _ & Hr); [|lia].
          destruct Hr as (-> & _ & _ & _ & Hcache & _). cbn in Hlen.
          rewrite length_app in Hlen. cbn in Hlen. split; [exact Hcache|lia].
      + intros Hloop. apply connectLoop_spec in Hloop
          as (n & evs & _ & _ & _ & _ & _ & _ & _ & Hlen & _ & Hr); [|lia].
        destruct Hr as (-> & _ & _ & _ & Hcache & _). cbn in Hlen.
        rewrite length_app in Hlen. cbn in Hlen. split; [exact Hcache|lia].
    - intros Hloop. apply connectLoop_spec in Hloop
        as (n & evs & _ & _ & _ & _ & _ & _ & _ & Hlen & _ & Hr); [|lia].
      destruct Hr as (-> & _ & _ & _ & Hcache & _). cbn in Hlen.
      rewrite length_app in Hlen. cbn in Hlen. split; [exact Hcache|lia]. }
  destruct Hcached as [Hcached Hlt]. split; [exact Hcached|].
  unfold cleanupKDBConnection, query. run. rewrite Hcached. run.
  rewrite list_lookup_insert_eq by exact Hlt. reflexivity.
Qed.

Lemma handle_closed_by_cleanup_witness :
  let w2 := snd (cleanupKDBConnection connectedWorld) in
  cachedConnection connectedWorld = Some 0 ∧
  query flakyEnv 0 sqlWrapper w2
  = (Throw (JS.newError "Not connected to KDB-X"),
     appendTrace w2 [RemoteCall 0 sqlWrapper]).
Proof.
  apply (handle_closed_by_cleanup flakyEnv cfg0 initialWorld 0 connectedWorld).
  vm_compute. reflexivity.
Defined.

(** ** Hybrid search: the order of its calls and what it returns *)

Lemma bind_run {A B} (m : M A) (k : A -> M B) w :
  (m ≫= k) w = match m w with
               | (Ret a, w1) => k a w1
               | (Throw e, w1) => (Throw e, w1)
               end.
Proof. reflexivity. Qed.

Lemma hybridSearch_split E cfg tableName queryText config w :
  truthy (embeddingProvider cfg) = true →
  truthy (embeddingModel cfg) = true →
  hybridSearch E cfg tableName queryText config w
  = (hybridCalls E cfg queryText config ≫= hybridReply E tableName config) w.
Proof.
  intros Hp Hm. unfold hybridSearch, hybridCalls. rewrite Hp, Hm. cbn [negb orb].
  cbn zeta. rewrite !bind_run.
  destruct (getProvider _ w) as [[dp|e] w1]; [|reflexivity]. rewrite !bind_run.
  assert (Hsp : ∃ r, (if decide (sparseTokenizerProvider cfg = embeddingProvider cfg)
                       then mret dp
                       else getProvider (default "" (orElse (sparseTokenizerProvider cfg)
                                                            (embeddingProvider cfg)))) w1
                     = r) by eauto.
  destruct Hsp as [[[sp|e] w2] ->]; [|reflexivity].
  rewrite !bind_run.
  destruct (denseEmbed E dp queryText _ w2) as [[[]|e] w3]; [|reflexivity].
  rewrite !bind_run.
  destruct (sparseEmbed E sp queryText _ w3) as [[[]|e] w4]; [|reflexivity].
  rewrite !bind_run.
  destruct (getKDBConnection E config w4) as [[conn|e] w5]; [|reflexivity].
  rewrite !bind_run.
  destruct (query E conn hybridWrapper w5) as [[result|e] w6]; reflexivity.
Qed.

Lemma hybrid_unfold E tableName queryText n config w cfg w1 :
  getEmbeddingConfig E tableName config w = (Ret cfg, w1) →
  truthy (sparseIndexName cfg) = true →
  kdbxHybridSearchImpl E tableName queryText n config w
  = match hybridSearch E cfg tableName queryText config w1 with
    | (Ret res, w2) => (Ret res, w2)
    | (Throw e, w2) => searchFailed tableName e w2
    end.
Proof.
  intros Hcfg Hsparse. unfold kdbxHybridSearchImpl, tryCatch. cbn zeta.
  rewrite bind_run, Hcfg, Hsparse. reflexivity.
Qed.

(** X8: [kdbxHybridSearchImpl] never throws, and the result always names the
    table it was asked about; whatever is thrown inside its [try] block
    becomes a result with status [error] whose message is the text of the
    error. *)
Theorem hybrid_search_never_throws E tableName queryText n config w :
  ∃ res w',
    kdbxHybridSearchImpl E tableName queryText n config w = (Ret res, w') ∧
    s_table res = Some tableName ∧
    (s_status res = error →
     s_records res = None ∧ s_recordsCount res = None ∧ ∃ text, s_message res = Some text).
Proof.
  unfold kdbxHybridSearchImpl, tryCatch. cbn zeta. rewrite bind_run.
  assert (Hfail : ∀ e w0, ∃ res w',
            searchFailed tableName e w0 = (Ret res, w') ∧
            s_table res = Some tableName ∧
            (s_status res = error →
             s_records res = None ∧ s_recordsCount res = None
             ∧ ∃ text, s_message res = Some text)).
  { intros e w0. unfold searchFailed. run. eexists _, _. split; [reflexivity|].
    cbn. eauto. }
  destruct (getEmbeddingConfig E tableName config w) as [[cfg|e] w1]; [|apply Hfail].
  destruct (truthy (sparseIndexName cfg)); cbn [negb].
  - destruct (hybridSearch E cfg tableName queryText config w1) as [[res|e] w2] eqn:Hs;
      [|apply Hfail].
    exists res, w2. split; [reflexivity|].
    revert Hs. unfold hybridSearch.
    destruct (negb _ || negb _); [discriminate|]. cbn zeta. rewrite !bind_run.
    destruct (getProvider _ w1) as [[dp|e] w3]; [|discriminate]. rewrite !bind_run.
    assert (Hsp : ∃ r, (if decide (sparseTokenizerProvider cfg = embeddingProvider cfg)
                         then mret dp
                         else getProvider (default "" (orElse (sparseTokenizerProvider cfg)
                                                              (embeddingProvider cfg)))) w3
                       = r) by eauto.
    destruct Hsp as [[[sp|e] w4] ->]; [|discriminate].
    rewrite !bind_run.
    destruct (denseEmbed E dp queryText _ w4) as [[[]|e] w5]; [|discriminate].
    rewrite !bind_run.
    destruct (sparseEmbed E sp queryText _ w5) as [[[]|e] w6]; [|discriminate].
    rewrite !bind_run.
    destruct (getKDBConnection E config w6) as [[conn|e] w7]; [|discriminate].
    rewrite !bind_run.
    destruct (query E conn hybridWrapper w7) as [[result|e] w8]; [|discriminate].
    destruct result as [|[|row rows]|rc d]; try discriminate.
    + run. intros [= <- <-]. cbn. split; [reflexivity|discriminate].
    + run. intros [= <- <-]. cbn. split; [reflexivity|discriminate].
    + rewrite !bind_run.
      destruct (materialize (row :: rows) w8) as [[rcv|e] w9]; [|discriminate].
      rewrite !bind_run.
      destruct (normalizeSearchResult E rcv tableName config w9) as [[nz|e] w10];
        [|discriminate].
      rewrite !bind_run.
      destruct (readArray nz w10) as [[out|e] w11]; [|discriminate].
      intros [= <- <-]. cbn. split; [reflexivity|discriminate].
  - run. eexists _, _. split; [reflexivity|]. cbn. eauto.
Qed.

Lemma emits_alloc P c : keeps (emits P) (alloc c).
Proof. unfold alloc. ksilent. Qed.

Lemma emits_readRow P l : keeps (emits P) (readRow l).
Proof.
  apply emits_silent. unfold readRow. run. intros w r w'.
  destruct (heap w !! l) as [[o|rows]|]; intros [= <- <-]; reflexivity.
Qed.

Lemma emits_readArray P l : keeps (emits P) (readArray l).
Proof.
  apply emits_silent. unfold readArray. run. intros w r w'.
  destruct (heap w !! l) as [[o|rows]|]; intros [= <- <-]; reflexivity.
Qed.

Lemma emits_updateRow P l f : keeps (emits P) (updateRow l f).
Proof.
  apply emits_silent. unfold updateRow. run. intros w r w'.
  destruct (heap w !! l) as [[o|rows]|]; intros [= <- <-]; reflexivity.
Qed.

Lemma emits_getProvider P name : keeps (emits P) (getProvider name).
Proof.
  apply emits_silent. unfold getProvider. intros w r w'.
  destruct (existsb _ _); intros [= <- <-]; reflexivity.
Qed.

Lemma emits_query E conn q :
  keeps (emits isConnectOrRemote) (query E conn q).
Proof.
  unfold query. kbind; [kemit|]. kbind; [unfold isConnected; ksilent|].
  destruct (negb a0); [kret|]. kbind; [unfold tickCalls; ksilent|].
  destruct (remoteQuery E a1 q); kret.
Qed.

Lemma emits_getCsvData E path :
  keeps (emits notProviderCall) (getCsvData E path).
Proof.
  intros w r w' Hrun. apply getCsvData_effects in Hrun as (evs & Hevs & -> & _).
  exists evs. split; [reflexivity|]. destruct Hevs as [-> | ->]; reflexivity.
Qed.

Lemma emits_getEmbeddingConfig E table config :
  keeps (emits notProviderCall) (getEmbeddingConfig E table config).
Proof.
  unfold getEmbeddingConfig. kbind; [apply emits_getCsvData|].
  destruct (List.filter (matchesTable table) a) as [|row [|row' rest]]; kret.
Qed.

Lemma emits_removeVectorColumns E data tableName config :
  keeps (emits notProviderCall) (removeVectorColumns E data tableName config).
Proof.
  unfold removeVectorColumns. ktry.
  - kbind; [apply emits_getEmbeddingConfig|]. kbind; [apply emits_readArray|].
    kbind; [|apply emits_alloc].
    simple apply keeps_mapM; [typeclasses eauto|]. intros row. unfold stripRow.
    kbind; [apply emits_readRow|]. kbind; [apply emits_alloc|].
    assert (Hdrop : ∀ col what, keeps (emits notProviderCall) (dropColumn a2 col what)).
    { intros col what. unfold dropColumn. destruct col as [c|]; [|kret].
      kbind; [apply emits_readRow|].
      destruct (truthy (Some c) && JS.hasProperty c a3); [|kret].
      kbind; [apply emits_updateRow | kemit]. }
    kbind; [apply Hdrop|]. kbind; [apply Hdrop | kret].
  - kbind; [kemit | kret].
Qed.

Lemma emits_normalizeSearchResult E data tableName config :
  keeps (emits notProviderCall) (normalizeSearchResult E data tableName config).
Proof.
  unfold normalizeSearchResult. kbind; [apply emits_readArray|].
  kbind.
  { simple apply keeps_mapM; [typeclasses eauto|]. intros row. unfold normalizeRow.
    kbind; [apply emits_readRow|]. kbind; [apply emits_alloc|].
    kbind; [|kret].
    simple apply keeps_mapM; [typeclasses eauto|]. intros kv. unfold assign.
    kbind; [|destruct (String.eqb (fst kv) "__proto__"); [kret | apply emits_updateRow]].
    unfold normalizeValue. destruct (snd kv) as [| | | | |[iso|]|[iso|]]; kret. }
  kbind; [apply emits_alloc | apply emits_removeVectorColumns].
Qed.

Lemma emits_materialize rows : keeps (emits notProviderCall) (materialize rows).
Proof.
  unfold materialize. kbind; [|apply emits_alloc].
  simple apply keeps_mapM; [typeclasses eauto|]. intros o. apply emits_alloc.
Qed.

Lemma emits_hybridReply E tableName config result :
  keeps (emits notProviderCall) (hybridReply E tableName config result).
Proof.
  assert (Hempty : keeps (emits notProviderCall)
            (logger LInfo ("Hybrid search on table " +:+ tableName
               +:+ " returned no results - sparse search may have found no matches");;
             records ← alloc (ArrCell []);
             mret {| s_status := success; s_table := Some tableName;
                     s_recordsCount := Some 0; s_records := Some records;
                     s_message := Some "No results found - the sparse search returned no matches for the query" |})).
  { kbind; [kemit|]. kbind; [apply emits_alloc | kret]. }
  unfold hybridReply. destruct result as [|[|row rows]|rc d]; try exact Hempty; [|kret].
  kbind; [apply emits_materialize|]. kbind; [apply emits_normalizeSearchResult|].
  kbind; [apply emits_readArray | kret].
Qed.

Lemma emits_searchFailed tableName e :
  keeps (emits notProviderCall) (searchFailed tableName e).
Proof. unfold searchFailed. kbind; [kemit | kret]. Qed.

Lemma getProvider_cases name w :
  getProvider name w
  = if isRegistered name then (Ret name, w)
    else (Throw (JS.newError ("Unknown provider: " +:+ name)), w).
Proof. unfold getProvider, isRegistered. destruct (existsb _ _); reflexivity. Qed.

Lemma truthy_default o : truthy o = true → o = Some (default "" o).
Proof. destruct o; [reflexivity | discriminate]. Qed.

(** X9: with a sparse index but without a dense provider or model in the
    configuration, hybrid search returns the error "Table T does not have
    embedding configuration"; nothing but the error line is emitted after
    the configuration lookup. *)
Theorem hybrid_search_needs_dense_configuration
    E tableName queryText n config w cfg w1 :
  getEmbeddingConfig E tableName config w = (Ret cfg, w1) →
  truthy (sparseIndexName cfg) = true →
  truthy (embeddingProvider cfg) = false ∨ truthy (embeddingModel cfg) = false →
  let text := "Error: Table " +:+ tableName +:+ " does not have embedding configuration" in
  kdbxHybridSearchImpl E tableName queryText n config w
  = (Ret {| s_status := error; s_table := Some tableName; s_recordsCount := None;
            s_records := None; s_message := Some text |},
     appendTrace w1 [Log LError ("Error performing search on table " +:+ tableName
                                 +:+ ": " +:+ text)]).
Proof.
  intros Hcfg Hsparse Hmissing. cbn zeta.
  rewrite (hybrid_unfold _ _ _ _ _ _ _ _ Hcfg Hsparse). unfold hybridSearch.
  assert (negb (truthy (embeddingProvider cfg)) || negb (truthy (embeddingModel cfg))
          = true) as ->.
  { destruct Hmissing as [-> | ->]; [reflexivity|]. apply orb_true_r. }
  reflexivity.
Qed.

(** X10: the providers the configuration names are resolved before any
    embedding is computed: if the dense provider, or else the provider of
    the sparse tokenizer, is not registered, hybrid search returns the error
    "Unknown provider: <name>" and emits nothing but the error line. *)
Theorem hybrid_search_unknown_provider
    E tableName queryText n config w cfg w1 :
  getEmbeddingConfig E tableName config w = (Ret cfg, w1) →
  truthy (sparseIndexName cfg) = true →
  truthy (embeddingProvider cfg) = true →
  truthy (embeddingModel cfg) = true →
  isRegistered (default "" (embeddingProvider cfg)) = false
  ∨ isRegistered (sparseProviderOf cfg) = false →
  ∃ name,
    (name = default "" (embeddingProvider cfg) ∨ name = sparseProviderOf cfg) ∧
    isRegistered name = false ∧
    kdbxHybridSearchImpl E tableName queryText n config w
    = (Ret {| s_status := error; s_table := Some tableName; s_recordsCount := None;
              s_records := None;
              s_message := Some ("Error: Unknown provider: " +:+ name) |},
       appendTrace w1 [Log LError ("Error performing search on table " +:+ tableName
                                   +:+ ": Error: Unknown provider: " +:+ name)]).
Proof.
  intros Hcfg Hsparse Hp Hm Hunknown.
  rewrite (hybrid_unfold _ _ _ _ _ _ _ _ Hcfg Hsparse).
  rewrite (hybridSearch_split _ _ _ _ _ _ Hp Hm). unfold hybridCalls. cbn zeta.
  rewrite !bind_run, getProvider_cases.
  destruct (isRegistered (default "" (embeddingProvider cfg))) eqn:Hdense.
  - destruct Hunknown as [?|Hsp]; [discriminate|].
    exists (sparseProviderOf cfg). split; [auto|]. split; [exact Hsp|].
    rewrite !bind_run.
    destruct (decide (sparseTokenizerProvider cfg = embeddingProvider cfg)) as [Heq|Hne].
    + exfalso. unfold sparseProviderOf, orElse in Hsp. rewrite Heq, Hp in Hsp. congruence.
    + rewrite getProvider_cases. fold (sparseProviderOf cfg). rewrite Hsp. reflexivity.
  - exists (default "" (embeddingProvider cfg)). split; [auto|]. split; [exact Hdense|].
    reflexivity.
Qed.

(** X11: when the dense embedding fails, hybrid search returns the error
    with the text of the provider's failure; the sparse embedding is not
    computed, no connection is made and no remote call is issued: the only
    events are the dense call and the error line. *)
Theorem hybrid_search_dense_embedding_failure
    E tableName queryText n config w cfg w1 e :
  getEmbeddingConfig E tableName config w = (Ret cfg, w1) →
  truthy (sparseIndexName cfg) = true →
  truthy (embeddingProvider cfg) = true →
  truthy (embeddingModel cfg) = true →
  isRegistered (default "" (embeddingProvider cfg)) = true →
  isRegistered (sparseProviderOf cfg) = true →
  denseEmbedStep E (calls w1) (default "" (embeddingProvider cfg)) queryText
    (default "" (embeddingModel cfg)) = Some e →
  ∃ w',
    kdbxHybridSearchImpl E tableName queryText n config w
    = (Ret {| s_status := error; s_table := Some tableName; s_recordsCount := None;
              s_records := None; s_message := Some (JS.toString e) |}, w') ∧
    trace w' = trace w1
               ++ [DenseEmbed (default "" (embeddingProvider cfg)) queryText
                     (default "" (embeddingModel cfg));
                   Log LError ("Error performing search on table " +:+ tableName
                               +:+ ": " +:+ JS.toString e)] ∧
    calls w' = S (calls w1) ∧ attempts w' = attempts w1 ∧
    cachedConnection w' = cachedConnection w1.
Proof.
  intros Hcfg Hsparse Hp Hm Hdense Hsp Hfail.
  rewrite (hybrid_unfold _ _ _ _ _ _ _ _ Hcfg Hsparse).
  rewrite (hybridSearch_split _ _ _ _ _ _ Hp Hm). unfold hybridCalls. cbn zeta.
  rewrite !bind_run, getProvider_cases, Hdense. rewrite !bind_run.
  assert ((if decide (sparseTokenizerProvider cfg = embeddingProvider cfg)
           then mret (default "" (embeddingProvider cfg))
           else getProvider (default "" (orElse (sparseTokenizerProvider cfg)
                                                (embeddingProvider cfg)))) w1
          = (Ret (sparseProviderOf cfg), w1)) as ->.
  { destruct (decide _) as [Heq|Hne].
    - unfold sparseProviderOf, orElse. rewrite Heq, Hp. reflexivity.
    - rewrite getProvider_cases. fold (sparseProviderOf cfg). rewrite Hsp. reflexivity. }
  rewrite !bind_run. unfold denseEmbed. run. rewrite Hfail.
  unfold searchFailed. run. eexists. split; [reflexivity|]. cbn.
  rewrite <- app_assoc. auto.
Qed.

Lemma isConnect_notProvider ev : isConnectEvent ev = true → notProviderCall ev = true.
Proof. destruct ev; cbn; congruence. Qed.

Lemma isConnectOrRemote_notProvider ev :
  isConnectOrRemote ev = true → notProviderCall ev = true.
Proof. destruct ev; cbn; congruence. Qed.

(** X12: once the configuration is complete and its providers registered,
    hybrid search computes the dense embedding first and, if that succeeds,
    the sparse embedding next, with the tokenizer's provider and model when
    the configuration names them and the dense ones otherwise; these are the
    only provider calls of the invocation, and they precede the connection
    and the remote call. *)
Theorem hybrid_search_embeds_before_calling
    E tableName queryText n config w cfg w1 :
  getEmbeddingConfig E tableName config w = (Ret cfg, w1) →
  truthy (sparseIndexName cfg) = true →
  truthy (embeddingProvider cfg) = true →
  truthy (embeddingModel cfg) = true →
  isRegistered (default "" (embeddingProvider cfg)) = true →
  isRegistered (sparseProviderOf cfg) = true →
  denseEmbedStep E (calls w1) (default "" (embeddingProvider cfg)) queryText
    (default "" (embeddingModel cfg)) = None →
  ∃ res w' rest,
    kdbxHybridSearchImpl E tableName queryText n config w = (Ret res, w') ∧
    trace w' = trace w1
               ++ DenseEmbed (default "" (embeddingProvider cfg)) queryText
                    (default "" (embeddingModel cfg))
               :: SparseEmbed (sparseProviderOf cfg) queryText (sparseModelOf cfg)
               :: rest ∧
    forallb notProviderCall rest = true.
Proof.
  intros Hcfg Hsparse Hp Hm Hdense Hsp Hok.
  rewrite (hybrid_unfold _ _ _ _ _ _ _ _ Hcfg Hsparse).
  rewrite (hybridSearch_split _ _ _ _ _ _ Hp Hm). unfold hybridCalls. cbn zeta.
  rewrite !bind_run, getProvider_cases, Hdense. rewrite !bind_run.
  assert ((if decide (sparseTokenizerProvider cfg = embeddingProvider cfg)
           then mret (default "" (embeddingProvider cfg))
           else getProvider (default "" (orElse (sparseTokenizerProvider cfg)
                                                (embeddingProvider cfg)))) w1
          = (Ret (sparseProviderOf cfg), w1)) as ->.
  { destruct (decide _) as [Heq|Hne].
    - unfold sparseProviderOf, orElse. rewrite Heq, Hp. reflexivity.
    - rewrite getProvider_cases. fold (sparseProviderOf cfg). rewrite Hsp. reflexivity. }
  rewrite !bind_run. unfold denseEmbed. run. rewrite Hok. run.
  fold (sparseModelOf cfg). unfold sparseEmbed. run.
  assert (Hfail : ∀ e w0 evs,
            trace w0 = trace w1 ++ evs →
            ∃ res w' rest0, searchFailed tableName e w0 = (Ret res, w') ∧
              trace w' = trace w1 ++ evs ++ rest0 ∧ forallb notProviderCall rest0 = true).
  { intros e w0 evs Hw0. unfold searchFailed. run. eexists _, _, _.
    split; [reflexivity|]. cbn. rewrite Hw0, <- app_assoc. auto. }
  set (dense := DenseEmbed _ _ _). set (sparse := SparseEmbed _ _ _).
  destruct (sparseEmbedStep E (S (calls w1)) _ _ _) as [e|].
  - edestruct (Hfail e) as (res & w' & rest0 & -> & Htr & Hrest);
      [|exists res, w', rest0; split; [reflexivity|]; split; [|exact Hrest]].
    + cbn. rewrite <- app_assoc. reflexivity.
    + rewrite Htr. reflexivity.
  - match goal with |- context [getKDBConnection E config ?w0] => set (wS := w0) end.
    assert (HwS : trace wS = trace w1 ++ [dense; sparse]).
    { unfold wS. cbn. rewrite <- app_assoc. reflexivity. }
    clearbody wS.
    assert (Hstep : ∀ {A} (m : M A) wa r wb evs,
              keeps (emits notProviderCall) m → m wa = (r, wb) →
              trace wa = trace w1 ++ [dense; sparse] ++ evs →
              forallb notProviderCall evs = true →
              ∃ evs', trace wb = trace w1 ++ [dense; sparse] ++ evs'
                      ∧ forallb notProviderCall evs' = true).
    { intros A m wa r wb evs Hk Hrun Hwa Hevs.
      destruct (Hk _ _ _ Hrun) as (more & Hmore & Hp').
      exists (evs ++ more). rewrite Hmore, Hwa, <- !app_assoc, forallb_app, Hevs, Hp'.
      auto. }
    assert (Hdone : ∀ (res : SearchResult) wb evs,
              trace wb = trace w1 ++ [dense; sparse] ++ evs →
              forallb notProviderCall evs = true →
              ∃ res0 w' rest, (Ret res, wb) = (Ret res0, w') ∧
                trace w' = trace w1 ++ dense :: sparse :: rest ∧
                forallb notProviderCall rest = true).
    { intros res wb evs Hwb Hevs. exists res, wb, evs. auto. }
    assert (Hcatch : ∀ e wb evs,
              trace wb = trace w1 ++ [dense; sparse] ++ evs →
              forallb notProviderCall evs = true →
              ∃ res0 w' rest, searchFailed tableName e wb = (Ret res0, w') ∧
                trace w' = trace w1 ++ dense :: sparse :: rest ∧
                forallb notProviderCall rest = true).
    { intros e wb evs Hwb Hevs. unfold searchFailed. run. eexists _, _, _.
      split; [reflexivity|]. cbn. rewrite Hwb, <- !app_assoc.
      split; [reflexivity|]. rewrite forallb_app, Hevs. reflexivity. }
    destruct (getKDBConnection E config wS) as [[conn|e] w5] eqn:Hconn;
      eapply (Hstep _ _ _ _ _ []) in Hconn as (evs5 & Hw5 & Hp5);
      try (rewrite app_nil_r; exact HwS); try reflexivity;
      try (eapply emits_weaken; [apply isConnect_notProvider | apply getKDBConnection_emits]);
      [|eapply Hcatch; eassumption].
    destruct (query E conn hybridWrapper w5) as [[result|e] w6] eqn:Hq;
      eapply Hstep in Hq as (evs6 & Hw6 & Hp6); try eassumption;
      try (eapply emits_weaken; [apply isConnectOrRemote_notProvider | apply emits_query]);
      [|eapply Hcatch; eassumption].
    destruct (hybridReply E tableName config result w6) as [[res|e] w7] eqn:Hr;
      eapply Hstep in Hr as (evs7 & Hw7 & Hp7); try eassumption;
      try apply emits_hybridReply;
      [eapply Hdone; eassumption | eapply Hcatch; eassumption].
Qed.

(** X13: an empty reply of the hybrid call ([null] or an empty array) is a
    success: zero records, a new empty array of records, the message "No
    results found - the sparse search returned no matches for the query",
    and one info line in the log. *)
Theorem hybrid_search_empty_reply
    E tableName queryText n config w cfg w1 result w2 :
  getEmbeddingConfig E tableName config w = (Ret cfg, w1) →
  truthy (sparseIndexName cfg) = true →
  truthy (embeddingProvider cfg) = true →
  truthy (embeddingModel cfg) = true →
  hybridCalls E cfg queryText config w1 = (Ret result, w2) →
  result = RNull ∨ result = RTable [] →
  kdbxHybridSearchImpl E tableName queryText n config w
  = (Ret {| s_status := success; s_table := Some tableName; s_recordsCount := Some 0;
            s_records := Some (length (heap w2));
            s_message := Some "No results found - the sparse search returned no matches for the query" |},
     withHeap w2 (heap w2 ++ [ArrCell []])
       [Log LInfo ("Hybrid search on table " +:+ tableName
          +:+ " returned no results - sparse search may have found no matches")]).
Proof.
  intros Hcfg Hsparse Hp Hm Hcalls Hempty.
  rewrite (hybrid_unfold _ _ _ _ _ _ _ _ Hcfg Hsparse).
  rewrite (hybridSearch_split _ _ _ _ _ _ Hp Hm), bind_run, Hcalls.
  destruct Hempty as [-> | ->]; reflexivity.
Qed.

(** ** normalizeSearchResult *)

Lemma onHeap_same w : onHeap w (heap w) = w.
Proof. destruct w; reflexivity. Qed.

Lemma assign_one h acc key v w :
  heap w = h ++ [RowCell acc] →
  assign (length h) (key, v) w
  = if invalidTime v
    then (Throw (JS.mkError "RangeError" "Invalid time value"), w)
    else (Ret tt, onHeap w (h ++ [RowCell (acc ++ isoRow [(key, v)])])).
Proof.
  intros Hw. unfold assign. cbn [fst snd]. rewrite bind_run.
  destruct (invalidTime v) eqn:Hv.
  - assert (normalizeValue v w
            = (Throw (JS.mkError "RangeError" "Invalid time value"), w)) as ->.
    { destruct v as [| | | | |[iso|]|[iso|]]; try discriminate; reflexivity. }
    reflexivity.
  - assert (normalizeValue v w = (Ret (isoCell v), w)) as ->.
    { destruct v as [| | | | |[iso|]|[iso|]]; try discriminate; reflexivity. }
    unfold isoRow, isColumn. cbn [List.filter fst snd map].
    destruct (String.eqb key "__proto__"); cbn [negb map].
    + rewrite app_nil_r, <- Hw, onHeap_same. reflexivity.
    + unfold updateRow. run. rewrite Hw, list_lookup_middle by reflexivity.
      cbn. rewrite insert_end. reflexivity.
Qed.

Lemma isoRow_cons kv o : isoRow (kv :: o) = isoRow [kv] ++ isoRow o.
Proof.
  unfold isoRow. cbn [List.filter]. destruct (isColumn kv); reflexivity.
Qed.

Lemma assign_all h o : ∀ acc w,
  heap w = h ++ [RowCell acc] →
  if timesValid o
  then ∃ us, mapM (assign (length h)) o w
             = (Ret us, onHeap w (h ++ [RowCell (acc ++ isoRow o)]))
  else ∃ acc', mapM (assign (length h)) o w
               = (Throw (JS.mkError "RangeError" "Invalid time value"),
                  onHeap w (h ++ [RowCell acc'])).
Proof.
  induction o as [|[key v] o IH]; intros acc w Hw.
  - cbn. exists []. rewrite app_nil_r, <- Hw. destruct w; reflexivity.
  - change (mapM (assign (length h)) ((key, v) :: o))
      with (u ← assign (length h) (key, v); us ← mapM (assign (length h)) o; mret (u :: us)).
    rewrite bind_run, (assign_one h acc key v w Hw).
    cbn [timesValid forallb snd]. fold (timesValid o).
    destruct (invalidTime v) eqn:Hv; cbn [negb andb].
    + exists acc. rewrite <- Hw. destruct w; reflexivity.
    + rewrite bind_run.
      specialize (IH (acc ++ isoRow [(key, v)])
                    (onHeap w (h ++ [RowCell (acc ++ isoRow [(key, v)])])) eq_refl).
      rewrite (isoRow_cons (key, v) o).
      destruct (timesValid o).
      * destruct IH as [us ->]. exists (tt :: us). cbn. rewrite <- app_assoc. reflexivity.
      * destruct IH as [acc' ->]. exists acc'. reflexivity.
Qed.

Lemma normalizeRow_cases row o w :
  rowAt (heap w) row = Some o →
  if timesValid o
  then normalizeRow row w
       = (Ret (length (heap w)), onHeap w (heap w ++ [RowCell (isoRow o)]))
  else ∃ acc, normalizeRow row w
              = (Throw (JS.mkError "RangeError" "Invalid time value"),
                 onHeap w (heap w ++ [RowCell acc])).
Proof.
  intros Hrow. unfold normalizeRow. rewrite bind_run.
  assert (readRow row w = (Ret o, w)) as ->.
  { unfold readRow, rowAt in *. run. destruct (heap w !! row) as [[o'|]|]; congruence. }
  rewrite bind_run.
  assert (alloc (RowCell []) w = (Ret (length (heap w)), onHeap w (heap w ++ [RowCell []])))
    as -> by reflexivity.
  rewrite bind_run.
  pose proof (assign_all (heap w) o [] (onHeap w (heap w ++ [RowCell []])) eq_refl) as Hall.
  destruct (timesValid o).
  - destruct Hall as [us ->]. reflexivity.
  - destruct Hall as [acc ->]. exists acc. reflexivity.
Qed.

Lemma mapM_normalizeRow rows : ∀ objs w,
  Forall2 (fun r o => rowAt (heap w) r = Some o) rows objs →
  if forallb timesValid objs
  then mapM normalizeRow rows w
       = (Ret (seq (length (heap w)) (length rows)),
          onHeap w (heap w ++ (RowCell <$> (isoRow <$> objs))))
  else ∃ cells, mapM normalizeRow rows w
                = (Throw (JS.mkError "RangeError" "Invalid time value"),
                   onHeap w (heap w ++ cells)).
Proof.
  induction rows as [|r rows IH]; intros objs w Hrows.
  - apply Forall2_nil_inv_l in Hrows as ->. cbn. rewrite app_nil_r.
    destruct w; reflexivity.
  - apply Forall2_cons_inv_l in Hrows as (o & objs' & Hr & Hrows & ->).
    change (mapM normalizeRow (r :: rows))
      with (y ← normalizeRow r; ys ← mapM normalizeRow rows; mret (y :: ys)).
    rewrite bind_run. pose proof (normalizeRow_cases r o w Hr) as Hone.
    cbn [forallb]. destruct (timesValid o); cbn [andb].
    + rewrite Hone, bind_run.
      specialize (IH objs' (onHeap w (heap w ++ [RowCell (isoRow o)]))).
      cbn [heap onHeap] in IH.
      assert (Hrows' : Forall2 (fun r0 o0 => rowAt (heap w ++ [RowCell (isoRow o)]) r0 = Some o0)
                         rows objs').
      { eapply Forall2_impl; [exact Hrows|]. intros r' o' Hr'. apply rowAt_app, Hr'. }
      specialize (IH Hrows'). destruct (forallb timesValid objs').
      * rewrite IH. cbn. rewrite length_app, Nat.add_1_r, <- app_assoc. reflexivity.
      * destruct IH as [cells ->]. exists (RowCell (isoRow o) :: cells). cbn.
        rewrite <- app_assoc. reflexivity.
    + destruct Hone as [acc ->]. exists [RowCell acc]. reflexivity.
Qed.

Lemma getEmbeddingConfig_onHeap E table config w h :
  getEmbeddingConfig E table config (onHeap w h)
  = (fst (getEmbeddingConfig E table config w),
     onHeap (snd (getEmbeddingConfig E table config w)) h).
Proof.
  unfold getEmbeddingConfig, getCsvData, onHeap. run.
  destruct (csvCache w !! embeddingCsvPath config) as [df|].
  - destruct (List.filter (matchesTable table) df) as [|row [|row' rest]]; reflexivity.
  - destruct (readCsv E (embeddingCsvPath config)) as [e|raw]; [reflexivity|].
    run. destruct (List.filter (matchesTable table) _) as [|row [|row' rest]];
      reflexivity.
Qed.

Lemma readArray_run l w :
  readArray l w
  = match heap w !! l with
    | Some (ArrCell rows) => (Ret rows, w)
    | _ => (Throw (JS.mkError "TypeError" "data.map is not a function"), w)
    end.
Proof.
  unfold readArray. run. destruct (heap w !! l) as [[o|rows]|]; reflexivity.
Qed.

Lemma alloc_run c w : alloc c w = (Ret (length (heap w)), onHeap w (heap w ++ [c])).
Proof. reflexivity. Qed.

Lemma normalizeSearchResult_valid E data tableName config w objs :
  tableAt (heap w) data = Some objs →
  forallb timesValid objs = true →
  ∃ out w' cells base,
    normalizeSearchResult E data tableName config w = (Ret out, w') ∧
    heap w' = heap w ++ cells ∧
    tableAt (heap w') out
    = Some (match fst (getEmbeddingConfig E tableName config w) with
            | Ret cfg => withoutVectorColumns cfg <$> (isoRow <$> objs)
            | Throw _ => isoRow <$> objs
            end) ∧
    length (heap w) ≤ base ∧ out = base + length objs ∧
    heap w' !! out = Some (ArrCell (seq base (length objs))).
Proof.
  intros Htable Hvalid. unfold normalizeSearchResult. rewrite bind_run, readArray_run.
  unfold tableAt in Htable.
  destruct (heap w !! data) as [[o|rows]|] eqn:Hdata; try discriminate.
  apply mapM_Some in Htable.
  pose proof (mapM_normalizeRow rows objs w Htable) as Hmap. rewrite Hvalid in Hmap.
  rewrite bind_run, Hmap, bind_run, alloc_run. unfold onHeap at 1 2.
  cbn [heap onHeap conns cachedConnection csvCache trace attempts calls].
  set (h1 := heap w ++ (RowCell <$> (isoRow <$> objs))
             ++ [ArrCell (seq (length (heap w)) (length rows))]).
  set (w1 := onHeap w h1).
  assert (Hlen : length rows = length (isoRow <$> objs)).
  { rewrite length_fmap. exact (Forall2_length _ _ _ Htable). }
  assert (Hlen' : length rows = length objs) by exact (Forall2_length _ _ _ Htable).
  assert (Hnorm : tableAt (heap w1) (length (heap w ++ (RowCell <$> (isoRow <$> objs))))
                  = Some (isoRow <$> objs)).
  { unfold w1, h1. cbn [heap onHeap]. rewrite length_app, length_fmap, Hlen.
    apply tableAt_fresh. }
  assert (Hw1 : {| conns := conns w; cachedConnection := cachedConnection w;
                   csvCache := csvCache w;
                   heap := (heap w ++ (RowCell <$> (isoRow <$> objs)))
                           ++ [ArrCell (seq (length (heap w)) (length rows))];
                   trace := trace w; attempts := attempts w; calls := calls w |} = w1).
  { unfold w1, onHeap, h1. rewrite <- app_assoc. reflexivity. }
  rewrite Hw1.
  pose proof (getEmbeddingConfig_onHeap E tableName config w h1) as Hcfg.
  fold w1 in Hcfg.
  destruct (getEmbeddingConfig E tableName config w) as [[cfg|e] wa] eqn:Hlookup;
    cbn [fst snd] in Hcfg |- *.
  - destruct (removeVectorColumns_resolved _ _ _ _ _ _ _ _ Hcfg Hnorm) as [evs ->].
    eexists _, _, _, (length (heap w1)). split; [reflexivity|].
    unfold withHeap. cbn [heap onHeap].
    split; [unfold w1, h1; cbn [heap onHeap]; rewrite <- !app_assoc; reflexivity|].
    split.
    { replace (length (isoRow <$> objs))
        with (length (withoutVectorColumns cfg <$> (isoRow <$> objs)))
        by apply length_fmap.
      apply tableAt_fresh. }
    split; [unfold w1, h1; cbn [heap onHeap]; rewrite length_app; lia|].
    split; [rewrite length_fmap; reflexivity|].
    rewrite app_assoc, !length_fmap.
    apply list_lookup_middle. rewrite length_app, !length_fmap. reflexivity.
  - rewrite removeVectorColumns_unfold, Hcfg. cbn zeta. run.
    eexists _, _, _, (length (heap w)). split; [reflexivity|]. cbn [heap onHeap].
    split; [unfold h1; reflexivity|].
    split; [exact Hnorm|].
    split; [lia|].
    split; [rewrite length_app, length_fmap, length_fmap; reflexivity|].
    unfold h1. rewrite app_assoc, Hlen'.
    apply list_lookup_middle. reflexivity.
Qed.

Lemma tableAt_length h l objs :
  tableAt h l = Some objs → ∃ refs, h !! l = Some (ArrCell refs) ∧ length refs = length objs.
Proof.
  unfold tableAt. destruct (h !! l) as [[o|refs]|]; try discriminate.
  intros Hrows. apply mapM_Some in Hrows. exists refs. split; [reflexivity|].
  exact (Forall2_length _ _ _ Hrows).
Qed.

(** X14: on a table whose temporal cells are all valid,
    [normalizeSearchResult] returns a new array with as many rows, all of
    them new, pairwise distinct objects, and changes no object that existed
    before. The rows are the input rows in order, each with its temporal
    cells replaced by their ISO text, a column named ["__proto__"] left out
    and the other cells and the order of the columns unchanged, and then
    without the table's vector columns when its configuration resolves. *)
Theorem normalizeSearchResult_converts_then_strips E data tableName config w objs :
  tableAt (heap w) data = Some objs →
  forallb timesValid objs = true →
  ∃ out w' cells refs,
    normalizeSearchResult E data tableName config w = (Ret out, w') ∧
    heap w' = heap w ++ cells ∧
    length (heap w) ≤ out ∧
    heap w' !! out = Some (ArrCell refs) ∧ length refs = length objs ∧
    Forall (fun r => length (heap w) ≤ r) refs ∧ NoDup refs ∧
    tableAt (heap w') out
    = Some (match fst (getEmbeddingConfig E tableName config w) with
            | Ret cfg => withoutVectorColumns cfg <$> (isoRow <$> objs)
            | Throw _ => isoRow <$> objs
            end).
Proof.
  intros Htable Hvalid.
  destruct (normalizeSearchResult_valid E data tableName config w objs Htable Hvalid)
    as (out & w' & cells & base & Hrun & Hheap & Hout & Hbase & Hsum & Hrefs).
  exists out, w', cells, (seq base (length objs)).
  split; [exact Hrun|]. split; [exact Hheap|]. split; [lia|].
  split; [exact Hrefs|]. split; [apply length_seq|].
  split; [|split; [apply NoDup_seq | exact Hout]].
  apply Forall_forall. intros r Hr. apply elem_of_seq in Hr. lia.
Qed.

Lemma normalizeSearchResult_converts_then_strips_witness :
  ∃ out w' cells refs,
    normalizeSearchResult searchEnv 1 "notes" cfg0 protoWorld = (Ret out, w') ∧
    heap w' = heap protoWorld ++ cells ∧
    2 ≤ out ∧
    heap w' !! out = Some (ArrCell refs) ∧ length refs = 1 ∧
    Forall (fun r => 2 ≤ r) refs ∧ NoDup refs ∧
    tableAt (heap w') out
    = Some [[("id", JS.VNum 7); ("seen", JS.VStr "2024-01-01T00:00:00.000Z")]].
Proof.
  apply (normalizeSearchResult_converts_then_strips searchEnv 1 "notes" cfg0 protoWorld
           [[("id", JS.VNum 7); ("__proto__", JS.VNum 1); ("emb", JS.VVector [1; 2]%Z);
             ("seen", JS.VDate (Some "2024-01-01T00:00:00.000Z"))]]); reflexivity.
Defined.

(** X15: if a row of the table has a temporal cell whose [toISOString]
    throws (an invalid date), [normalizeSearchResult] throws that
    [RangeError]; it has then not looked the configuration up (nothing is
    logged or read) and has changed no object of the input. *)
Theorem normalizeSearchResult_invalid_time E data tableName config w objs :
  tableAt (heap w) data = Some objs →
  forallb timesValid objs = false →
  ∃ cells,
    normalizeSearchResult E data tableName config w
    = (Throw (JS.mkError "RangeError" "Invalid time value"),
       onHeap w (heap w ++ cells)).
Proof.
  intros Htable Hinvalid. unfold normalizeSearchResult. rewrite bind_run, readArray_run.
  unfold tableAt in Htable.
  destruct (heap w !! data) as [[o|rows]|] eqn:Hdata; try discriminate.
  apply mapM_Some in Htable.
  pose proof (mapM_normalizeRow rows objs w Htable) as Hmap. rewrite Hinvalid in Hmap.
  destruct Hmap as [cells Hmap]. rewrite bind_run, Hmap. exists cells. reflexivity.
Qed.

(** ** The configuration cache outlives the calls *)

Ltac ksame := intros ? ? ? [= <- <-]; reflexivity.

Lemma sameCache_connectLoop E config conn todo : ∀ lastError,
  keeps sameCache (connectLoop E config conn todo lastError).
Proof.
  induction todo as [|attempt rest IH]; intros lastError; cbn [connectLoop].
  - kbind; [unfold logger, emit; ksame | kret].
  - kbind; [unfold emit; ksame|]. kbind; [unfold tickAttempts; ksame|].
    destruct (connectStep E a0) as [| |e].
    + kbind; [kret|]. kbind; [unfold setCachedConnection; ksame|].
      kbind; [unfold logger, emit; ksame | kret].
    + kbind; [unfold connect; run; ksame|]. kbind; [unfold setCachedConnection; ksame|].
      kbind; [unfold logger, emit; ksame | kret].
    + kbind; [unfold setCachedConnection; ksame|].
      kbind; [unfold logger, emit; ksame|]. kbind; [|apply IH].
      destruct (attempt <? retry config + 1); [unfold emit; ksame | kret].
Qed.

Lemma sameCache_getKDBConnection E config :
  keeps sameCache (getKDBConnection E config).
Proof.
  unfold getKDBConnection. kbind; [kret|]. kbind.
  { destruct a; [unfold isConnected; run; ksame | kret]. }
  assert (Hfresh : keeps sameCache
            (logger LInfo ("Connecting to KDB at " +:+ host config +:+ ":"
                           +:+ pretty (port config));;
             conn ← newConnection;
             connectLoop E config conn (seq 1 (retry config + 1)) None)).
  { kbind; [unfold logger, emit; ksame|].
    kbind; [unfold newConnection; run; ksame | apply sameCache_connectLoop]. }
  destruct a as [c|], a0; try exact Hfresh. kret.
Qed.

Lemma sameCache_query E conn q : keeps sameCache (query E conn q).
Proof.
  unfold query. kbind; [unfold emit; ksame|]. kbind; [unfold isConnected; run; ksame|].
  destruct (negb a0); [kret|]. kbind; [unfold tickCalls; ksame|].
  destruct (remoteQuery E a1 q); kret.
Qed.

Lemma sameCache_getProvider name : keeps sameCache (getProvider name).
Proof.
  unfold getProvider. destruct (existsb _ _); kret.
Qed.

Lemma sameCache_denseEmbed E p t m : keeps sameCache (denseEmbed E p t m).
Proof.
  unfold denseEmbed. kbind; [unfold emit; ksame|]. kbind; [unfold tickCalls; ksame|].
  destruct (denseEmbedStep E a0 p t m); kret.
Qed.

Lemma sameCache_sparseEmbed E p t m : keeps sameCache (sparseEmbed E p t m).
Proof.
  unfold sparseEmbed. kbind; [unfold emit; ksame|]. kbind; [unfold tickCalls; ksame|].
  destruct (sparseEmbedStep E a0 p t m); kret.
Qed.

Lemma sameCache_hybridCalls E cfg queryText config :
  keeps sameCache (hybridCalls E cfg queryText config).
Proof.
  unfold hybridCalls. cbn zeta. kbind; [apply sameCache_getProvider|].
  kbind; [destruct (decide _); [kret | apply sameCache_getProvider]|].
  kbind; [apply sameCache_denseEmbed|]. kbind; [apply sameCache_sparseEmbed|].
  kbind; [apply sameCache_getKDBConnection | apply sameCache_query].
Qed.

Lemma sameCache_similarityCalls E cfg queryText config :
  keeps sameCache (similarityCalls E cfg queryText config).
Proof.
  unfold similarityCalls. kbind; [apply sameCache_getProvider|].
  kbind; [apply sameCache_denseEmbed|].
  kbind; [apply sameCache_getKDBConnection | apply sameCache_query].
Qed.

Lemma materialize_run rows : ∀ w,
  materialize rows w
  = (Ret (length (heap w) + length rows),
     onHeap w (heap w ++ (RowCell <$> rows)
                      ++ [ArrCell (seq (length (heap w)) (length rows))])).
Proof.
  assert (Hrows : ∀ rows w,
            mapM (fun o => alloc (RowCell o)) rows w
            = (Ret (seq (length (heap w)) (length rows)),
               onHeap w (heap w ++ (RowCell <$> rows)))).
  { clear rows. induction rows as [|o rows IH]; intros w.
    - cbn. rewrite app_nil_r. destruct w; reflexivity.
    - change (mapM (fun o0 => alloc (RowCell o0)) (o :: rows))
        with (y ← alloc (RowCell o); ys ← mapM (fun o0 => alloc (RowCell o0)) rows;
              mret (y :: ys)).
      rewrite bind_run, alloc_run, bind_run, IH. cbn.
      rewrite length_app, Nat.add_1_r, <- app_assoc. reflexivity. }
  intros w. unfold materialize. rewrite bind_run, Hrows, alloc_run. cbn.
  rewrite length_app, length_fmap, <- app_assoc. reflexivity.
Qed.

(** The reply handling shared by the two searches, on a reply of rows with
    valid temporal cells, in a process whose cache resolves the table. *)
Lemma reply_rows_normalized E tableName config cfg w1 wa w2 rows :
  getEmbeddingConfig E tableName config w1 = (Ret cfg, wa) →
  csvCache w2 = csvCache wa →
  forallb timesValid rows = true →
  ∃ out w' cells,
    (received ← materialize rows;
     normalized ← normalizeSearchResult E received tableName config;
     out ← readArray normalized;
     mret {| s_status := success; s_table := Some tableName;
             s_recordsCount := Some (length out);
             s_records := Some normalized; s_message := None |}) w2
    = (Ret {| s_status := success; s_table := Some tableName;
              s_recordsCount := Some (length rows);
              s_records := Some out; s_message := None |}, w') ∧
    heap w' = heap w2 ++ cells ∧
    tableAt (heap w') out = Some (withoutVectorColumns cfg <$> (isoRow <$> rows)).
Proof.
  intros Hcfg Hcache Hvalid. rewrite bind_run, materialize_run.
  set (w3 := onHeap w2 _).
  assert (Hreceived : tableAt (heap w3) (length (heap w2) + length rows) = Some rows).
  { unfold w3. cbn [heap onHeap]. apply tableAt_fresh. }
  destruct (normalizeSearchResult_valid E _ tableName config w3 rows Hreceived Hvalid)
    as (out & w' & cells & base & Hrun & Hheap & Hout & _).
  rewrite bind_run, Hrun, bind_run, readArray_run.
  destruct (getEmbeddingConfig_again _ _ _ _ _ _ Hcfg w3 Hcache) as [evs Hagain].
  rewrite Hagain in Hout. cbn [fst] in Hout.
  destruct (tableAt_length _ _ _ Hout) as (refs & Hrefs & Hlen).
  rewrite Hrefs. exists out, w'. eexists. split; [|split; [|exact Hout]].
  - cbn. rewrite Hlen, !length_fmap. reflexivity.
  - rewrite Hheap. unfold w3. cbn [heap onHeap]. rewrite <- app_assoc. reflexivity.
Qed.

(** X16: when the hybrid call returns rows (with valid temporal cells), the
    result is a success whose [recordsCount] is the number of rows of the
    reply and whose records are the rows of the reply, in order, with their
    temporal cells as ISO text, without a column named ["__proto__"] and
    without the vector columns of the table's configuration, the one
    resolved at the start of the invocation. *)
Theorem hybrid_search_returns_normalized_rows
    E tableName queryText n config w cfg w1 row rows w2 :
  getEmbeddingConfig E tableName config w = (Ret cfg, w1) →
  truthy (sparseIndexName cfg) = true →
  truthy (embeddingProvider cfg) = true →
  truthy (embeddingModel cfg) = true →
  hybridCalls E cfg queryText config w1 = (Ret (RTable (row :: rows)), w2) →
  forallb timesValid (row :: rows) = true →
  ∃ out w' cells,
    kdbxHybridSearchImpl E tableName queryText n config w
    = (Ret {| s_status := success; s_table := Some tableName;
              s_recordsCount := Some (S (length rows));
              s_records := Some out; s_message := None |}, w') ∧
    heap w' = heap w2 ++ cells ∧
    tableAt (heap w') out
    = Some (withoutVectorColumns cfg <$> (isoRow <$> (row :: rows))).
Proof.
  intros Hcfg Hsparse Hp Hm Hcalls Hvalid.
  rewrite (hybrid_unfold _ _ _ _ _ _ _ _ Hcfg Hsparse).
  rewrite (hybridSearch_split _ _ _ _ _ _ Hp Hm), bind_run, Hcalls.
  pose proof (sameCache_hybridCalls E cfg queryText config _ _ _ Hcalls) as Hcache.
  destruct (reply_rows_normalized E tableName config cfg w w1 w2 (row :: rows)
              Hcfg Hcache Hvalid) as (out & w' & cells & Hrun & Hheap & Hout).
  exists out, w', cells. unfold hybridReply. rewrite Hrun. auto.
Qed.

(** ** Similarity search *)

Lemma similarity_unfold E tableName queryText n config w cfg w1 :
  getEmbeddingConfig E tableName config w = (Ret cfg, w1) →
  truthy (embeddingColumn cfg) = true →
  truthy (embeddingProvider cfg) = true →
  truthy (embeddingModel cfg) = true →
  kdbxSimilaritySearchImpl E tableName queryText n config w
  = match similarityCalls E cfg queryText config w1 with
    | (Ret result, w2) =>
        match similarityReply E tableName config result w2 with
        | (Ret res, w3) => (Ret res, w3)
        | (Throw e, w3) => searchFailed tableName e w3
        end
    | (Throw e, w2) => searchFailed tableName e w2
    end.
Proof.
  intros Hcfg Hc Hp Hm. unfold kdbxSimilaritySearchImpl, tryCatch. cbn zeta.
  rewrite bind_run, Hcfg, Hc, Hp, Hm. cbn [negb orb]. unfold similaritySearch.
  rewrite bind_run.
  destruct (similarityCalls E cfg queryText config w1) as [[result|e] w2]; reflexivity.
Qed.

(** X17: similarity search needs the embedding column, the provider and the
    model of the table's configuration: if one of them is missing it returns
    the error "Table T does not have embedding configuration" and, after the
    configuration lookup, emits nothing but the error line (no provider
    call, no connection, no remote call). *)
Theorem similarity_search_needs_full_configuration
    E tableName queryText n config w cfg w1 :
  getEmbeddingConfig E tableName config w = (Ret cfg, w1) →
  truthy (embeddingColumn cfg) = false ∨ truthy (embeddingProvider cfg) = false
  ∨ truthy (embeddingModel cfg) = false →
  let text := "Error: Table " +:+ tableName +:+ " does not have embedding configuration" in
  kdbxSimilaritySearchImpl E tableName queryText n config w
  = (Ret {| s_status := error; s_table := Some tableName; s_recordsCount := None;
            s_records := None; s_message := Some text |},
     appendTrace w1 [Log LError ("Error performing search on table " +:+ tableName
                                 +:+ ": " +:+ text)]).
Proof.
  intros Hcfg Hmissing. cbn zeta. unfold kdbxSimilaritySearchImpl, tryCatch. cbn zeta.
  rewrite bind_run, Hcfg.
  assert (negb (truthy (embeddingColumn cfg)) || negb (truthy (embeddingProvider cfg))
          || negb (truthy (embeddingModel cfg)) = true) as ->.
  { destruct Hmissing as [-> | [-> | ->]]; cbn [negb orb];
      rewrite ?orb_true_r; reflexivity. }
  reflexivity.
Qed.

(** X18: when the similarity call returns an array of rows (with valid
    temporal cells), empty or not, the result is a success whose
    [recordsCount] is the number of rows and whose records are the rows in
    order, with temporal cells as ISO text, without a column named
    ["__proto__"] and without the table's vector columns. *)
Theorem similarity_search_returns_normalized_rows
    E tableName queryText n config w cfg w1 rows w2 :
  getEmbeddingConfig E tableName config w = (Ret cfg, w1) →
  truthy (embeddingColumn cfg) = true →
  truthy (embeddingProvider cfg) = true →
  truthy (embeddingModel cfg) = true →
  similarityCalls E cfg queryText config w1 = (Ret (RTable rows), w2) →
  forallb timesValid rows = true →
  ∃ out w' cells,
    kdbxSimilaritySearchImpl E tableName queryText n config w
    = (Ret {| s_status := success; s_table := Some tableName;
              s_recordsCount := Some (length rows);
              s_records := Some out; s_message := None |}, w') ∧
    heap w' = heap w2 ++ cells ∧
    tableAt (heap w') out = Some (withoutVectorColumns cfg <$> (isoRow <$> rows)).
Proof.
  intros Hcfg Hc Hp Hm Hcalls Hvalid.
  rewrite (similarity_unfold _ _ _ _ _ _ _ _ Hcfg Hc Hp Hm), Hcalls.
  pose proof (sameCache_similarityCalls E cfg queryText config _ _ _ Hcalls) as Hcache.
  destruct (reply_rows_normalized E tableName config cfg w w1 w2 rows
              Hcfg Hcache Hvalid) as (out & w' & cells & Hrun & Hheap & Hout).
  exists out, w', cells. unfold similarityReply. rewrite Hrun. auto.
Qed.

(** X19: a [null] reply of the similarity call is an error, not an empty
    success: [normalizeSearchResult] calls [map] on it, and the result
    carries that [TypeError]. (Hybrid search tests the reply first and
    reports zero records.) *)
Theorem similarity_search_null_reply
    E tableName queryText n config w cfg w1 w2 :
  getEmbeddingConfig E tableName config w = (Ret cfg, w1) →
  truthy (embeddingColumn cfg) = true →
  truthy (embeddingProvider cfg) = true →
  truthy (embeddingModel cfg) = true →
  similarityCalls E cfg queryText config w1 = (Ret RNull, w2) →
  let text := "TypeError: Cannot read properties of null (reading 'map')" in
  kdbxSimilaritySearchImpl E tableName queryText n config w
  = (Ret {| s_status := error; s_table := Some tableName; s_recordsCount := None;
            s_records := None; s_message := Some text |},
     appendTrace w2 [Log LError ("Error performing search on table " +:+ tableName
                                 +:+ ": " +:+ text)]).
Proof.
  intros Hcfg Hc Hp Hm Hcalls. cbn zeta.
  rewrite (similarity_unfold _ _ _ _ _ _ _ _ Hcfg Hc Hp Hm), Hcalls. reflexivity.
Qed.

(** ** The configuration table is read once *)

(** X20: once [getCsvData] has returned the table of a path, the table
    stays cached: in the state it leaves, a further call for the path
    returns the same table without reading the file and without changing
    anything, whatever the file then holds (for every environment); the
    tables cached for other paths are as they were. *)
Theorem csv_table_cached_after_first_read E path w df w1 :
  getCsvData E path w = (Ret df, w1) →
  csvCache w1 !! path = Some df ∧
  (∀ other, other ≠ path → csvCache w1 !! other = csvCache w !! other) ∧
  ∀ E', getCsvData E' path w1 = (Ret df, w1).
Proof.
  intros Hrun. apply getCsvData_effects in Hrun as (evs & _ & -> & _). cbn.
  split; [apply lookup_insert_eq|]. split.
  - intros other Hne. apply lookup_insert_ne. congruence.
  - intros E'. unfold getCsvData. run. rewrite lookup_insert_eq. reflexivity.
Qed.

Lemma csv_table_cached_after_first_read_witness :
  let w1 := snd (getCsvData searchEnv "embeddings.csv" initialWorld) in
  csvCache w1 !! "embeddings.csv"
  = Some (fmap (M := gmap string) cast <$> [docsRecord; notesRecord]) ∧
  getCsvData downEnv "embeddings.csv" w1
  = (Ret (fmap (M := gmap string) cast <$> [docsRecord; notesRecord]), w1).
Proof.
  destruct (csv_table_cached_after_first_read searchEnv "embeddings.csv" initialWorld
              (fmap (M := gmap string) cast <$> [docsRecord; notesRecord])
              (snd (getCsvData searchEnv "embeddings.csv" initialWorld)))
    as (Hhit & _ & Hagain); [vm_compute; reflexivity|].
  split; [exact Hhit | exact (Hagain downEnv)].
Defined.

(** X21: a failed read is not cached: [getCsvData] throws "Failed to read
    embeddings CSV: ..." with the text of the underlying error, leaves the
    cache as it was, and the next call reads the file again, so it succeeds
    once the file can be read. *)
Theorem csv_read_failure_not_cached E path w e w1 :
  getCsvData E path w = (Throw e, w1) →
  (∃ e0, readCsv E path = inl e0 ∧
         JS.toString e = "Error: Failed to read embeddings CSV: " +:+ JS.toString e0) ∧
  csvCache w1 = csvCache w ∧
  ∀ E' raw, readCsv E' path = inr raw →
    getCsvData E' path w1
    = (Ret (fmap (M := gmap string) cast <$> raw),
       {| conns := conns w1; cachedConnection := cachedConnection w1;
          csvCache := <[path := fmap (M := gmap string) cast <$> raw]> (csvCache w1);
          heap := heap w1; trace := trace w1 ++ [ReadCsv path];
          attempts := attempts w1; calls := calls w1 |}).
Proof.
  intros Hrun.
  apply getCsvData_effects in Hrun as (evs & _ & -> & Hmiss & e0 & Hread & ->). cbn.
  split; [exists e0; split; [exact Hread | reflexivity]|]. split; [reflexivity|].
  intros E' raw Hraw. unfold getCsvData. run. rewrite Hmiss, Hraw. reflexivity.
Qed.

Lemma csv_read_failure_not_cached_witness :
  let w1 := snd (getCsvData downEnv "embeddings.csv" initialWorld) in
  csvCache w1 = ∅ ∧
  ∃ w2, getCsvData searchEnv "embeddings.csv" w1
        = (Ret (fmap (M := gmap string) cast <$> [docsRecord; notesRecord]), w2)
        ∧ trace w2 = [ReadCsv "embeddings.csv"; ReadCsv "embeddings.csv"].
Proof.
  destruct (csv_read_failure_not_cached downEnv "embeddings.csv" initialWorld
              (JS.newError "Failed to read embeddings CSV: Error: ENOENT")
              (snd (getCsvData downEnv "embeddings.csv" initialWorld)))
    as (_ & Hcache & Hnext); [vm_compute; reflexivity|].
  split; [exact Hcache|]. eexists. split; [apply Hnext; reflexivity | reflexivity].
Defined.

(** ** Sample runs of the searches *)

Lemma hybrid_search_needs_dense_configuration_witness :
  ∃ w',
    kdbxHybridSearchImpl searchEnv2 "logs" "disk full" None cfg0 initialWorld
    = (Ret {| s_status := error; s_table := Some "logs"; s_recordsCount := None;
              s_records := None;
              s_message := Some "Error: Table logs does not have embedding configuration" |},
       w') ∧ calls w' = 0.
Proof.
  eexists. split.
  - etransitivity.
    + apply (hybrid_search_needs_dense_configuration searchEnv2 "logs" "disk full" None
               cfg0 initialWorld (configOfRow (cast <$> logsRecord))
               (snd (getEmbeddingConfig searchEnv2 "logs" cfg0 initialWorld)));
        [vm_compute; reflexivity | vm_compute; reflexivity | left; vm_compute; reflexivity].
    + vm_compute. reflexivity.
  - vm_compute. reflexivity.
Defined.

Lemma hybrid_search_unknown_provider_witness :
  ∃ w',
    kdbxHybridSearchImpl searchEnv2 "wiki" "kdb" None cfg0 initialWorld
    = (Ret {| s_status := error; s_table := Some "wiki"; s_recordsCount := None;
              s_records := None;
              s_message := Some "Error: Unknown provider: cohere" |}, w')
    ∧ calls w' = 0.
Proof.
  destruct (hybrid_search_unknown_provider searchEnv2 "wiki" "kdb" None cfg0
              initialWorld (configOfRow (cast <$> wikiRecord))
              (snd (getEmbeddingConfig searchEnv2 "wiki" cfg0 initialWorld)))
    as (name & Hname & _ & Hrun);
    [vm_compute; reflexivity | vm_compute; reflexivity | vm_compute; reflexivity
    | vm_compute; reflexivity | left; vm_compute; reflexivity |].
  assert (name = "cohere") as -> by (destruct Hname as [-> | ->]; vm_compute; reflexivity).
  eexists. split.
  - etransitivity; [exact Hrun|]. vm_compute. reflexivity.
  - vm_compute. reflexivity.
Defined.

Lemma hybrid_search_dense_embedding_failure_witness :
  ∃ w',
    kdbxHybridSearchImpl denseFailEnv "notes" "kdb" None cfg0 initialWorld
    = (Ret {| s_status := error; s_table := Some "notes"; s_recordsCount := None;
              s_records := None;
              s_message := Some "RateLimitError: 429 Too Many Requests" |}, w')
    ∧ calls w' = 1 ∧ attempts w' = 0.
Proof.
  destruct (hybrid_search_dense_embedding_failure denseFailEnv "notes" "kdb" None cfg0
              initialWorld (configOfRow (cast <$> notesRecord))
              (snd (getEmbeddingConfig denseFailEnv "notes" cfg0 initialWorld))
              (JS.mkError "RateLimitError" "429 Too Many Requests"))
    as (w' & Hrun & _ & Hcalls & Hatt & _); try (vm_compute; reflexivity).
  exists w'. split; [exact Hrun|]. split; [exact Hcalls | exact Hatt].
Defined.

Lemma hybrid_search_embeds_before_calling_witness :
  ∃ res w' rest,
    kdbxHybridSearchImpl searchEnv "notes" "kdb" None cfg0 initialWorld = (Ret res, w') ∧
    trace w' = [ReadCsv "embeddings.csv"]
               ++ DenseEmbed "openai" "kdb" "text-embedding-3-small"
               :: SparseEmbed "openai" "kdb" "text-embedding-3-small" :: rest ∧
    forallb notProviderCall rest = true.
Proof.
  destruct (hybrid_search_embeds_before_calling searchEnv "notes" "kdb" None cfg0
              initialWorld (configOfRow (cast <$> notesRecord))
              (snd (getEmbeddingConfig searchEnv "notes" cfg0 initialWorld)))
    as (res & w' & rest & Hrun & Htrace & Hrest); try (vm_compute; reflexivity).
  exists res, w', rest. split; [exact Hrun|]. split; [|exact Hrest].
  rewrite Htrace. vm_compute. reflexivity.
Defined.

Lemma hybrid_search_empty_reply_witness :
  ∃ w',
    kdbxHybridSearchImpl searchEnv2 "notes" "kdb" None cfg0 initialWorld
    = (Ret {| s_status := success; s_table := Some "notes"; s_recordsCount := Some 0;
              s_records := Some 0;
              s_message := Some "No results found - the sparse search returned no matches for the query" |},
       w') ∧ heap w' = [ArrCell []].
Proof.
  eexists. split.
  - etransitivity.
    + apply (hybrid_search_empty_reply searchEnv2 "notes" "kdb" None cfg0 initialWorld
               (configOfRow (cast <$> notesRecord))
               (snd (getEmbeddingConfig searchEnv2 "notes" cfg0 initialWorld))
               (RTable [])
               (snd (hybridCalls searchEnv2 (configOfRow (cast <$> notesRecord)) "kdb" cfg0
                       (snd (getEmbeddingConfig searchEnv2 "notes" cfg0 initialWorld)))));
        [vm_compute; reflexivity | vm_compute; reflexivity | vm_compute; reflexivity
        | vm_compute; reflexivity | vm_compute; reflexivity | right; reflexivity].
    + vm_compute. reflexivity.
  - vm_compute. reflexivity.
Defined.

Lemma hybrid_search_returns_normalized_rows_witness :
  ∃ out w',
    kdbxHybridSearchImpl protoReplyEnv "notes" "kdb" None cfg0 initialWorld
    = (Ret {| s_status := success; s_table := Some "notes"; s_recordsCount := Some 1;
              s_records := Some out; s_message := None |}, w') ∧
    tableAt (heap w') out
    = Some [[("id", JS.VNum 7); ("seen", JS.VStr "2024-01-01T00:00:00.000Z")]].
Proof.
  destruct (hybrid_search_returns_normalized_rows protoReplyEnv "notes" "kdb" None cfg0
              initialWorld (configOfRow (cast <$> notesRecord))
              (snd (getEmbeddingConfig protoReplyEnv "notes" cfg0 initialWorld))
              [("id", JS.VNum 7); ("__proto__", JS.VNum 1); ("emb", JS.VVector [1; 2]%Z);
               ("sparse", JS.VNull);
               ("seen", JS.VDate (Some "2024-01-01T00:00:00.000Z"))]
              []
              (snd (hybridCalls protoReplyEnv (configOfRow (cast <$> notesRecord)) "kdb" cfg0
                      (snd (getEmbeddingConfig protoReplyEnv "notes" cfg0 initialWorld)))))
    as (out & w' & cells & Hrun & _ & Htable); try (vm_compute; reflexivity).
  exists out, w'. split; [exact Hrun|].
  rewrite Htable. vm_compute. reflexivity.
Defined.

Lemma normalizeSearchResult_invalid_time_witness :
  ∃ w',
    normalizeSearchResult searchEnv 2 "notes" cfg0 badDateWorld
    = (Throw (JS.mkError "RangeError" "Invalid time value"), w').
Proof.
  destruct (normalizeSearchResult_invalid_time searchEnv 2 "notes" cfg0 badDateWorld
              [[("id", JS.VNum 1); ("seen", JS.VDate (Some "2024-01-01T00:00:00.000Z"))];
               [("id", JS.VNum 2); ("seen", JS.VDate None)]])
    as (cells & Hrun); try (vm_compute; reflexivity).
  eexists. exact Hrun.
Defined.

Lemma similarity_search_needs_full_configuration_witness :
  ∃ w',
    kdbxSimilaritySearchImpl searchEnv2 "logs" "disk full" None cfg0 initialWorld
    = (Ret {| s_status := error; s_table := Some "logs"; s_recordsCount := None;
              s_records := None;
              s_message := Some "Error: Table logs does not have embedding configuration" |},
       w') ∧ calls w' = 0.
Proof.
  eexists. split.
  - etransitivity.
    + apply (similarity_search_needs_full_configuration searchEnv2 "logs" "disk full" None
               cfg0 initialWorld (configOfRow (cast <$> logsRecord))
               (snd (getEmbeddingConfig searchEnv2 "logs" cfg0 initialWorld)));
        [vm_compute; reflexivity | right; left; vm_compute; reflexivity].
    + vm_compute. reflexivity.
  - vm_compute. reflexivity.
Defined.

Lemma similarity_search_returns_normalized_rows_witness :
  ∃ out w',
    kdbxSimilaritySearchImpl protoReplyEnv "docs" "kdb" (Some 3) cfg0 initialWorld
    = (Ret {| s_status := success; s_table := Some "docs"; s_recordsCount := Some 1;
              s_records := Some out; s_message := None |}, w') ∧
    tableAt (heap w') out
    = Some [[("id", JS.VNum 7); ("sparse", JS.VNull);
             ("seen", JS.VStr "2024-01-01T00:00:00.000Z")]].
Proof.
  destruct (similarity_search_returns_normalized_rows protoReplyEnv "docs" "kdb" (Some 3) cfg0
              initialWorld (configOfRow (cast <$> docsRecord))
              (snd (getEmbeddingConfig protoReplyEnv "docs" cfg0 initialWorld))
              [[("id", JS.VNum 7); ("__proto__", JS.VNum 1); ("emb", JS.VVector [1; 2]%Z);
                ("sparse", JS.VNull);
                ("seen", JS.VDate (Some "2024-01-01T00:00:00.000Z"))]]
              (snd (similarityCalls protoReplyEnv (configOfRow (cast <$> docsRecord)) "kdb" cfg0
                      (snd (getEmbeddingConfig protoReplyEnv "docs" cfg0 initialWorld)))))
    as (out & w' & cells & Hrun & _ & Htable); try (vm_compute; reflexivity).
  exists out, w'. split; [exact Hrun|].
  rewrite Htable. vm_compute. reflexivity.
Defined.

Lemma similarity_search_null_reply_witness :
  ∃ w',
    kdbxSimilaritySearchImpl nullReplyEnv "docs" "kdb" None cfg0 initialWorld
    = (Ret {| s_status := error; s_table := Some "docs"; s_recordsCount := None;
              s_records := None;
              s_message := Some "TypeError: Cannot read properties of null (reading 'map')" |},
       w').
Proof.
  eexists. etransitivity.
  - apply (similarity_search_null_reply nullReplyEnv "docs" "kdb" None cfg0 initialWorld
             (configOfRow (cast <$> docsRecord))
             (snd (getEmbeddingConfig nullReplyEnv "docs" cfg0 initialWorld))
             (snd (similarityCalls nullReplyEnv (configOfRow (cast <$> docsRecord)) "kdb" cfg0
                     (snd (getEmbeddingConfig nullReplyEnv "docs" cfg0 initialWorld)))));
      vm_compute; reflexivity.
  - vm_compute. reflexivity.
Defined.

(** ** The tokenizer of the providers *)

Lemma toInt32_range z : (- 2 ^ 31 <= toInt32 z < 2 ^ 31)%Z.
Proof.
  unfold toInt32. cbv zeta.
  pose proof (Z.mod_pos_bound z (2 ^ 32) ltac:(lia)).
  destruct (Z.leb_spec (2 ^ 31) (z mod 2 ^ 32)); lia.
Qed.

Lemma toInt32_congr a b :
  (a mod 2 ^ 32 = b mod 2 ^ 32)%Z → toInt32 a = toInt32 b.
Proof. unfold toInt32. intros ->. reflexivity. Qed.

Lemma toInt32_shift z : ∃ k, toInt32 z = (z + k * 2 ^ 32)%Z.
Proof.
  unfold toInt32. cbv zeta.
  pose proof (Z.div_mod z (2 ^ 32) ltac:(lia)) as Hz.
  destruct (Z.leb_spec (2 ^ 31) (z mod 2 ^ 32)).
  - exists (- (z / 2 ^ 32) - 1)%Z. lia.
  - exists (- (z / 2 ^ 32))%Z. lia.
Qed.

Lemma hashStep_spec hash char :
  hashStep hash char = toInt32 (31 * hash + char).
Proof.
  unfold hashStep, bitAnd, shiftLeft. cbv zeta.
  rewrite Z.land_diag.
  change (5 mod 32)%Z with 5%Z.
  rewrite Z.shiftl_mul_pow2 by lia.
  apply toInt32_congr.
  destruct (toInt32_shift hash) as [k1 ->].
  destruct (toInt32_shift ((hash + k1 * 2 ^ 32) * 2 ^ 5)) as [k2 ->].
  replace ((hash + k1 * 2 ^ 32) * 2 ^ 5 + k2 * 2 ^ 32 - hash + char)%Z
    with (31 * hash + char + (k1 * 2 ^ 5 + k2) * 2 ^ 32)%Z by lia.
  apply Z_mod_plus_full.
Qed.

Lemma hashLoop_spec str hash :
  hashLoop str (toInt32 hash)
  = toInt32 (foldl (fun h c => (31 * h + charCode c)%Z) hash
               (String.list_ascii_of_string str)).
Proof.
  revert hash. induction str as [|c str IH]; intros hash; cbn [hashLoop].
  - reflexivity.
  - rewrite hashStep_spec.
    cbn [String.list_ascii_of_string foldl]. rewrite <- IH. f_equal.
    apply toInt32_congr.
    destruct (toInt32_shift hash) as [k ->].
    replace (31 * (hash + k * 2 ^ 32) + charCode c)%Z
      with (31 * hash + charCode c + (31 * k) * 2 ^ 32)%Z by lia.
    apply Z_mod_plus_full.
Qed.

(** X22: the token identifier is the 31-polynomial of the code units
    (Java's string hash), wrapped to 32 bits once at the end, without its
    sign. *)
Theorem simpleHash_is_wrapped_polynomial str :
  simpleHash str = pretty (Z.abs (toInt32 (polynomial31 str))).
Proof.
  unfold simpleHash, polynomial31.
  rewrite <- hashLoop_spec. reflexivity.
Qed.

(** X23: a token identifier is the decimal text of a number between 0 and
    2^31: never negative, and 2^31 itself is possible. *)
Theorem simpleHash_range str :
  ∃ n : Z, simpleHash str = pretty n ∧ (0 <= n <= 2 ^ 31)%Z.
Proof.
  exists (Z.abs (hashLoop str 0)). split; [reflexivity|].
  pose proof (hashLoop_spec str 0) as Hspec.
  change (toInt32 0) with 0%Z in Hspec. rewrite Hspec.
  pose proof (toInt32_range
    (foldl (fun h c => (31 * h + charCode c)%Z) 0%Z (String.list_ascii_of_string str))).
  lia.
Qed.

Lemma pretty_N_go_digit (x : N) : ∀ s,
  (0 < x)%N → ∃ d rest, pretty_N_go x s = String d rest ∧ isDigit d = true.
Proof.
  induction (N.lt_wf_0 x) as [x _ IH]. intros s Hx.
  rewrite pretty_N_go_step by exact Hx.
  destruct (decide (x `div` 10 = 0)%N) as [Hz|Hz].
  - rewrite Hz, pretty_N_go_0. eexists _, _. split; [reflexivity|].
    pose proof (N.mod_lt x 10 ltac:(lia)) as Hlt.
    unfold pretty_N_char.
    set (r := (x `mod` 10)%N) in *.
    assert (r = 0 ∨ r = 1 ∨ r = 2 ∨ r = 3 ∨ r = 4 ∨ r = 5 ∨ r = 6 ∨ r = 7
            ∨ r = 8 ∨ r = 9)%N as Hr by lia.
    repeat (destruct Hr as [-> | Hr]; [reflexivity|]). rewrite Hr. reflexivity.
  - assert (0 < x `div` 10)%N as Hpos by (apply N.neq_0_lt_0, Hz).
    apply IH; [apply N.div_lt; lia | exact Hpos].
Qed.

Lemma pretty_Z_digit (z : Z) :
  (0 <= z)%Z → ∃ d rest, pretty z = String d rest ∧ isDigit d = true.
Proof.
  intros Hz. destruct z as [|p|p]; [| |lia].
  - exists "0"%char, EmptyString. split; reflexivity.
  - apply (pretty_N_go_digit (Npos p)). lia.
Qed.

(** X24: a token identifier starts with a digit, so it is none of the
    names a plain object inherits: [tokenCounts[tokenId]] reads a count the
    loop stored, or nothing. *)
Theorem simpleHash_not_inherited str :
  (∃ d rest, simpleHash str = String d rest ∧ isDigit d = true) ∧
  existsb (String.eqb (simpleHash str)) JS.inherited = false.
Proof.
  destruct (pretty_Z_digit (Z.abs (hashLoop str 0)) ltac:(lia)) as (d & rest & Heq & Hd).
  unfold simpleHash. rewrite Heq. split; [eauto|].
  unfold JS.inherited. cbn [existsb String.eqb].
  destruct d as [[] [] [] [] [] [] [] []]; try discriminate Hd; reflexivity.
Qed.

Lemma foldl_countToken tokenId tokens : ∀ m,
  foldl countToken m tokens !! tokenId
  = match tokensWithId tokenId tokens, m !! tokenId with
    | 0, None => None
    | n, o => Some (default 0 o + n)
    end.
Proof.
  induction tokens as [|t tokens IH]; intros m.
  - cbn. destruct (m !! tokenId); cbn; [f_equal; lia | reflexivity].
  - cbn [foldl]. rewrite IH. unfold tokensWithId, countToken. cbn [List.filter].
    destruct (String.eqb_spec (simpleHash t) tokenId) as [->|Hne].
    + rewrite lookup_insert_eq. cbn [length default].
      destruct (length (List.filter _ tokens)); f_equal;
        destruct (m !! tokenId); cbn; lia.
    + rewrite lookup_insert_ne by exact Hne. reflexivity.
Qed.

(** X25: the weight of an identifier is the number of pieces of the text
    that hash to it; identifiers no piece hashes to are absent. *)
Theorem sparse_weight_counts_tokens text tokenId :
  tokenCountsOf text !! tokenId
  = match tokensWithId tokenId (splitWhitespace text) with
    | 0 => None
    | n => Some n
    end.
Proof.
  unfold tokenCountsOf. rewrite foldl_countToken, lookup_empty.
  destruct (tokensWithId tokenId (splitWhitespace text)); reflexivity.
Qed.

Lemma splitFrom_end text : ∀ cur inGap,
  endsWithSpace text = true → In EmptyString (splitFrom text cur inGap).
Proof.
  induction text as [|c rest IH]; intros cur inGap Hend; [discriminate|].
  cbn [splitFrom]. destruct rest as [|c' rest].
  - cbn in Hend. rewrite Hend. destruct inGap; cbn; auto.
  - assert (endsWithSpace (String c' rest) = true) as Hrest by exact Hend.
    destruct (isWhiteSpace c); [destruct inGap|]; try right; apply IH, Hrest.
Qed.

Lemma tokensWithId_In t tokens :
  In t tokens → ∃ n, tokensWithId (simpleHash t) tokens = S n.
Proof.
  intros Hin. unfold tokensWithId.
  assert (In t (List.filter (fun t' => String.eqb (simpleHash t') (simpleHash t)) tokens))
    as Hf by (apply List.filter_In; split; [exact Hin | apply String.eqb_refl]).
  destruct (List.filter _ tokens); [destruct Hf | eexists; reflexivity].
Qed.

(** X26: the empty text, and a text that starts or ends with white space,
    has an empty piece, which is counted under the identifier 0. *)
Theorem blank_edge_counted_as_token_zero text :
  text = EmptyString ∨ startsWithSpace text = true ∨ endsWithSpace text = true →
  ∃ n, tokenCountsOf text !! "0" = Some (S n).
Proof.
  intros Hedge.
  assert (In EmptyString (splitWhitespace text)) as Hin.
  { destruct Hedge as [-> | [Hs | He]].
    - left. reflexivity.
    - destruct text as [|c rest]; [discriminate|]. cbn in Hs.
      unfold splitWhitespace. cbn [splitFrom]. rewrite Hs. left. reflexivity.
    - apply splitFrom_end, He. }
  destruct (tokensWithId_In _ _ Hin) as [n Hn].
  exists n. unfold tokenCountsOf. rewrite foldl_countToken, lookup_empty.
  change (simpleHash EmptyString) with "0" in Hn. rewrite Hn. reflexivity.
Qed.

Lemma blank_edge_counted_as_token_zero_witness :
  ∃ n, tokenCountsOf " kdb tick" !! "0" = Some (S n).
Proof.
  apply (blank_edge_counted_as_token_zero " kdb tick").
  right. left. reflexivity.
Defined.

(** ** Text tables *)

Lemma length_append (s t : string) :
  String.length (s +:+ t) = String.length s + String.length t.
Proof.
  induction s as [|c s IH]; [reflexivity|].
  rewrite append_cons. cbn [String.length]. rewrite IH. reflexivity.
Qed.

Lemma length_repeatString c n :
  String.length (repeatString (String c EmptyString) n) = n.
Proof.
  induction n as [|n IH]; [reflexivity|].
  cbn [repeatString]. rewrite length_append, IH. reflexivity.
Qed.

Lemma length_padEnd n s : String.length (padEnd n s) = Nat.max n (String.length s).
Proof. unfold padEnd. rewrite length_append, length_repeatString. lia. Qed.

Lemma length_join sep l :
  String.length (join sep l) = joinedLength (String.length sep) (String.length <$> l).
Proof.
  induction l as [|x [|y l] IH]; [reflexivity..|].
  change (join sep (x :: y :: l)) with (x +:+ sep +:+ join sep (y :: l)).
  rewrite !length_append, IH.
  change (String.length <$> x :: y :: l)
    with (String.length x :: (String.length <$> y :: l)).
  change (String.length <$> y :: l) with (String.length y :: (String.length <$> l)).
  cbn [joinedLength]. lia.
Qed.

Lemma maxOf_ge l : ∀ x, x ≤ maxOf x l ∧ ∀ y, y ∈ l → y ≤ maxOf x l.
Proof.
  induction l as [|z l IH]; intros x; cbn.
  - split; [lia|]. intros y Hy. inversion Hy.
  - destruct (IH (Nat.max x z)) as [H1 H2]. split; [unfold maxOf in *; lia|].
    intros y Hy. apply elem_of_cons in Hy as [-> | Hy]; [unfold maxOf in *; lia|].
    apply H2, Hy.
Qed.

Lemma padded_lengths (colWidths : list nat) (values : list string) :
  length values = length colWidths →
  (∀ i v w, values !! i = Some v → colWidths !! i = Some w → String.length v ≤ w) →
  String.length <$> imap (fun i v => padEnd (default 0 (colWidths !! i)) v) values
  = colWidths.
Proof.
  intros Hlen Hle. apply list_eq. intros i.
  rewrite list_lookup_fmap, list_lookup_imap.
  destruct (values !! i) as [v|] eqn:Hv; cbn.
  - destruct (colWidths !! i) as [w|] eqn:Hw.
    + cbn. rewrite length_padEnd. f_equal. specialize (Hle i v w Hv Hw). lia.
    + apply lookup_lt_Some in Hv. apply lookup_ge_None in Hw. lia.
  - symmetry. apply lookup_ge_None. apply lookup_ge_None in Hv. lia.
Qed.

Lemma length_formatRow colWidths values :
  length values = length colWidths →
  (∀ i v w, values !! i = Some v → colWidths !! i = Some w → String.length v ≤ w) →
  String.length (formatRow colWidths values) = 2 + joinedLength 3 colWidths.
Proof.
  intros Hlen Hle. unfold formatRow.
  rewrite length_append, length_join, padded_lengths by assumption. reflexivity.
Qed.

(** X27: a non-empty array is laid out as a header line, a rule and one
    line for each row, all of the same length: every cell is padded to the
    width of its column. *)
Theorem table_lines_aligned text inheritedText first rest :
  ∃ lines width,
    formatDataForDisplay text inheritedText (DArray (first :: rest))
    = join newline lines ∧
    length lines = 2 + length (first :: rest) ∧
    Forall (fun line => String.length line = width) lines.
Proof.
  exists (tableLines text inheritedText first (first :: rest)).
  exists (2 + joinedLength 3
              (imap (fun i h =>
                 maxOf (String.length h)
                   ((fun r => String.length (default EmptyString (r !! i)))
                    <$> ((fun row => cellText text inheritedText row <$> (fst <$> first))
                         <$> first :: rest)))
                 (fst <$> first))).
  split; [reflexivity|].
  unfold tableLines. cbv zeta.
  set (headers := fst <$> first).
  set (rows := (fun row => cellText text inheritedText row <$> headers) <$> first :: rest).
  set (colWidths := imap _ headers).
  assert (length colWidths = length headers) as Hlen by apply length_imap.
  assert (∀ i h w, headers !! i = Some h → colWidths !! i = Some w →
                   String.length h ≤ w) as Hhead.
  { intros i h w Hh Hw. unfold colWidths in Hw.
    apply list_lookup_imap_Some in Hw as (h' & Hh' & ->).
    rewrite Hh in Hh'. injection Hh' as <-.
    exact (proj1 (maxOf_ge _ _)). }
  assert (∀ r, r ∈ rows → length r = length headers ∧
            ∀ i v w, r !! i = Some v → colWidths !! i = Some w → String.length v ≤ w)
    as Hrows.
  { intros r Hr. split.
    - unfold rows in Hr. apply list_elem_of_fmap in Hr as (row & -> & _).
      apply length_fmap.
    - intros i v w Hv Hw. unfold colWidths in Hw.
      apply list_lookup_imap_Some in Hw as (h & _ & ->).
      apply (proj2 (maxOf_ge _ _)).
      apply list_elem_of_fmap. exists r. rewrite Hv. auto. }
  split; [cbn [length]; rewrite length_fmap; unfold rows; rewrite length_fmap; reflexivity|].
  apply Forall_cons_2; [|apply Forall_cons_2].
  - apply length_formatRow; [lia | exact Hhead].
  - rewrite length_append, length_join, <- list_fmap_compose.
    assert (String.length ∘ (fun w => repeatString "-" w) <$> colWidths = colWidths)
      as -> ; [|reflexivity].
    rewrite <- (list_fmap_id colWidths) at 2.
    apply list_fmap_ext. intros _ w _. apply length_repeatString.
  - apply Forall_forall. intros line Hline.
    apply list_elem_of_fmap in Hline as (r & -> & Hr).
    destruct (Hrows r Hr) as [Hl Hle]. apply length_formatRow; [lia | exact Hle].
Qed.

Lemma cellText_own text inheritedText (r r' : Object) h :
  getOwn h r = getOwn h r' →
  cellText text inheritedText r h = cellText text inheritedText r' h.
Proof. unfold cellText. intros ->. reflexivity. Qed.

(** X28: the columns of the table are the keys of the first row. The text
    depends on the other rows only through their own values under these
    keys: a column the first row lacks is never shown. *)
Theorem table_columns_from_first_row text inheritedText first rest rest' :
  Forall2 (fun r r' => ∀ h, h ∈ first.*1 → getOwn h r = getOwn h r') rest rest' →
  formatDataForDisplay text inheritedText (DArray (first :: rest))
  = formatDataForDisplay text inheritedText (DArray (first :: rest')).
Proof.
  intros Hsame. unfold formatDataForDisplay, tableLines. cbv zeta.
  assert ((fun row => cellText text inheritedText row <$> first.*1) <$> rest
          = (fun row => cellText text inheritedText row <$> first.*1) <$> rest') as Hrows.
  { induction Hsame as [|r r' rest rest' Hr _ IH]; [reflexivity|].
    rewrite !fmap_cons, IH. f_equal.
    apply list_fmap_ext. intros i h Hh. apply cellText_own, Hr.
    eapply list_elem_of_lookup_2, Hh. }
  rewrite !fmap_cons, Hrows. reflexivity.
Qed.

Lemma table_columns_from_first_row_witness :
  formatDataForDisplay (fun _ => "7") (fun _ => "") 
    (DArray [[("id", JS.VNum 1)]; [("id", JS.VNum 2); ("emb", JS.VVector [1; 2]%Z)]])
  = formatDataForDisplay (fun _ => "7") (fun _ => "")
      (DArray [[("id", JS.VNum 1)]; [("id", JS.VNum 2)]]).
Proof.
  apply (table_columns_from_first_row (fun _ => "7") (fun _ => "")
           [("id", JS.VNum 1)]
           [[("id", JS.VNum 2); ("emb", JS.VVector [1; 2]%Z)]]
           [[("id", JS.VNum 2)]]).
  apply Forall2_cons_2; [|apply Forall2_nil_2].
  intros h Hh. apply list_elem_of_singleton in Hh as ->. reflexivity.
Defined.
